(** * ocs-client-operator: the ClusterVersion reconciler

    A shallow embedding of [controllers/clusterversion_controller.go]:
    the label parser, the flag resolution, the mutate functions handed to
    create-or-update, the event routing and the reconcile sequence, over
    an explicit model of the remote object store the controller talks to. *)

From stdpp Require Import base option strings list gmap.
From Stdlib Require Import Ascii DecimalString.

Open Scope string_scope.
Open Scope list_scope.

(** ** Outcomes of Go calls

    A Go function of this controller returns normally, returns a non-nil
    [error], or panics (an index out of range, a write to a nil map, a nil
    pointer dereference).  [fmt.Errorf] with the verb [%v] yields a fresh
    plain error: the wrapped cause no longer answers [IsNotFound] or
    [IsAlreadyExists]. *)

Inductive Error :=
| ErrNotFound
| ErrAlreadyExists
| ErrConflict
| ErrOther (msg : string)
| Errorf (msg : string) (cause : Error).

Definition IsNotFound (e : Error) : bool :=
  match e with ErrNotFound => true | _ => false end.

Definition IsAlreadyExists (e : Error) : bool :=
  match e with ErrAlreadyExists => true | _ => false end.

Inductive Outcome (A : Type) :=
| Ok (a : A)
| Err (e : Error)
| Panic (msg : string).
Arguments Ok {A} a.
Arguments Err {A} e.
Arguments Panic {A} msg.

Global Instance Outcome_ret : MRet Outcome := fun A a => Ok a.
Global Instance Outcome_bind : MBind Outcome := fun A B f o =>
  match o with
  | Ok a => f a
  | Err e => Err e
  | Panic msg => Panic msg
  end.

(** ** The Go standard library functions the controller calls *)

Module strings.

Definition byte (n : nat) : ascii := ascii_of_nat n.
Definition bytes (l : list nat) : string :=
  foldr (fun n s => String (byte n) s) "" l.

Fixpoint contains (c : ascii) (s : string) : bool :=
  match s with
  | "" => false
  | String d s' => if Ascii.eqb c d then true else contains c s'
  end.

(** [Cut s sep] for a one-byte separator: the text before the first
    occurrence of [sep] and the text after it, or nothing when [sep]
    does not occur. *)
Fixpoint Cut (s : string) (sep : ascii) : option (string * string) :=
  match s with
  | "" => None
  | String c s' =>
      if Ascii.eqb c sep then Some ("", s')
      else match Cut s' sep with
           | Some (before, after) => Some (String c before, after)
           | None => None
           end
  end.

(** The loop of [genSplit]: at most [cuts] separators are consumed, the
    rest of the text is the last piece. *)
Fixpoint genSplit (cuts : nat) (s : string) (sep : ascii) : list string :=
  match cuts with
  | O => [s]
  | S cuts' =>
      match Cut s sep with
      | None => [s]
      | Some (before, after) => before :: genSplit cuts' after sep
      end
  end.

(** [strings.Split(s, sep)] with a one-byte [sep]: every occurrence
    cuts, and a text of [n] bytes holds at most [n] of them. *)
Definition Split (s : string) (sep : ascii) : list string :=
  genSplit (String.length s) s sep.

(** [strings.SplitN(s, sep, n)] with a one-byte [sep]: [n = 0] gives no
    piece, [n < 0] every piece, [n > 0] at most [n] pieces, the last one
    being the unsplit remainder. *)
Definition SplitN (s : string) (sep : ascii) (n : Z) : list string :=
  if decide (n = 0)%Z then []
  else if decide (n < 0)%Z then Split s sep
  else genSplit (Z.to_nat n - 1) s sep.

(** [unicode.IsSpace], on the UTF-8 encodings of the white space code
    points: one byte for U+0009..U+000D and U+0020, two bytes for U+0085
    and U+00A0, three bytes for U+1680, U+2000..U+200A, U+2028, U+2029,
    U+202F, U+205F and U+3000. *)
Definition asciiSpace (c : ascii) : bool :=
  let n := nat_of_ascii c in
  (Nat.leb 9 n && Nat.leb n 13) || Nat.eqb n 32.

Definition space2 (c1 c2 : ascii) : bool :=
  Nat.eqb (nat_of_ascii c1) 194 &&
  (Nat.eqb (nat_of_ascii c2) 133 || Nat.eqb (nat_of_ascii c2) 160).

Definition space3 (c1 c2 c3 : ascii) : bool :=
  let a := nat_of_ascii c1 in
  let b := nat_of_ascii c2 in
  let c := nat_of_ascii c3 in
  (Nat.eqb a 225 && Nat.eqb b 154 && Nat.eqb c 128) ||
  (Nat.eqb a 226 && Nat.eqb b 128 &&
     ((Nat.leb 128 c && Nat.leb c 138) || Nat.eqb c 168 || Nat.eqb c 169
      || Nat.eqb c 175)) ||
  (Nat.eqb a 226 && Nat.eqb b 129 && Nat.eqb c 159) ||
  (Nat.eqb a 227 && Nat.eqb b 128 && Nat.eqb c 128).

(** [TrimLeftFunc(s, unicode.IsSpace)]: drop white space runes from the
    front. *)
Fixpoint TrimLeftSpace (s : string) : string :=
  match s with
  | "" => ""
  | String c1 s1 =>
      if asciiSpace c1 then TrimLeftSpace s1
      else match s1 with
           | "" => s
           | String c2 s2 =>
               if space2 c1 c2 then TrimLeftSpace s2
               else match s2 with
                    | "" => s
                    | String c3 s3 =>
                        if space3 c1 c2 c3 then TrimLeftSpace s3 else s
                    end
           end
  end.

(** The same from the back, on the reversed text (so the bytes of a
    rune arrive last byte first). *)
Fixpoint TrimLeftSpaceRev (s : string) : string :=
  match s with
  | "" => ""
  | String c1 s1 =>
      if asciiSpace c1 then TrimLeftSpaceRev s1
      else match s1 with
           | "" => s
           | String c2 s2 =>
               if space2 c2 c1 then TrimLeftSpaceRev s2
               else match s2 with
                    | "" => s
                    | String c3 s3 =>
                        if space3 c3 c2 c1 then TrimLeftSpaceRev s3 else s
                    end
           end
  end.

Definition TrimRightSpace (s : string) : string :=
  String.rev (TrimLeftSpaceRev (String.rev s)).

(** [strings.TrimSpace]: leading and trailing white space removed. *)
Definition TrimSpace (s : string) : string :=
  TrimRightSpace (TrimLeftSpace s).

End strings.

Module strconv.

(** [strconv.ParseBool]: exactly twelve spellings are accepted. *)
Definition ParseBool (str : string) : Outcome bool :=
  if bool_decide (str ∈ ["1"; "t"; "T"; "TRUE"; "true"; "True"]) then Ok true
  else if bool_decide (str ∈ ["0"; "f"; "F"; "FALSE"; "false"; "False"])
  then Ok false
  else Err (ErrOther ("strconv.ParseBool: parsing " +:+ str +:+ ": invalid syntax")).

End strconv.

(** ** Kubernetes objects, as far as the controller looks into them *)

Inductive Kind :=
| KClusterVersion
| KConfigMap
| KCustomResourceDefinition
| KSubscription
| KValidatingWebhookConfiguration
| KDeployment
| KDaemonSet
| KService
| KConsolePlugin
| KSecurityContextConstraints
| KCSIDriver
| KPrometheusRule.

Global Instance Kind_eq_dec : EqDecision Kind.
Proof. solve_decision. Defined.

(** [metav1.OwnerReference]; the owner's API group and kind are the Go type
    of the owner. *)
Record OwnerReference := {
  orKind : Kind;
  orName : string;
  orController : bool;
  orBlockOwnerDeletion : bool;
}.

Global Instance OwnerReference_eq_dec : EqDecision OwnerReference.
Proof. solve_decision. Defined.

(** [metav1.ObjectMeta].  A Go map is [None] when nil. *)
Record ObjectMeta := {
  Name : string;
  Namespace : string;
  ResourceVersion : string;
  Labels : option (gmap string string);
  Annotations : option (gmap string string);
  OwnerReferences : list OwnerReference;
}.

Global Instance ObjectMeta_eq_dec : EqDecision ObjectMeta.
Proof. solve_decision. Defined.

Definition emptyMeta : ObjectMeta :=
  {| Name := ""; Namespace := ""; ResourceVersion := ""; Labels := None;
     Annotations := None; OwnerReferences := [] |}.

Definition setName (v : string) (m : ObjectMeta) : ObjectMeta :=
  {| Name := v; Namespace := Namespace m;
     ResourceVersion := ResourceVersion m; Labels := Labels m;
     Annotations := Annotations m; OwnerReferences := OwnerReferences m |}.

Definition setNamespace (v : string) (m : ObjectMeta) : ObjectMeta :=
  {| Name := Name m; Namespace := v;
     ResourceVersion := ResourceVersion m; Labels := Labels m;
     Annotations := Annotations m; OwnerReferences := OwnerReferences m |}.

Definition setResourceVersion (v : string) (m : ObjectMeta) : ObjectMeta :=
  {| Name := Name m; Namespace := Namespace m;
     ResourceVersion := v; Labels := Labels m;
     Annotations := Annotations m; OwnerReferences := OwnerReferences m |}.

Definition setLabels (v : option (gmap string string)) (m : ObjectMeta)
  : ObjectMeta :=
  {| Name := Name m; Namespace := Namespace m;
     ResourceVersion := ResourceVersion m; Labels := v;
     Annotations := Annotations m; OwnerReferences := OwnerReferences m |}.

Definition setAnnotations (v : option (gmap string string)) (m : ObjectMeta)
  : ObjectMeta :=
  {| Name := Name m; Namespace := Namespace m;
     ResourceVersion := ResourceVersion m; Labels := Labels m;
     Annotations := v; OwnerReferences := OwnerReferences m |}.

Definition setOwnerReferences (v : list OwnerReference) (m : ObjectMeta)
  : ObjectMeta :=
  {| Name := Name m; Namespace := Namespace m;
     ResourceVersion := ResourceVersion m; Labels := Labels m;
     Annotations := Annotations m; OwnerReferences := v |}.

(** [metav1.LabelSelector] *)
Record LabelSelector := {
  MatchLabels : gmap string string;
}.

Global Instance LabelSelector_eq_dec : EqDecision LabelSelector.
Proof. solve_decision. Defined.

(** [admrv1.ServiceReference] and [admrv1.WebhookClientConfig] *)
Record ServiceReference := {
  srNamespace : string;
  srName : string;
  srPath : option string;
  srPort : option Z;
}.

Global Instance ServiceReference_eq_dec : EqDecision ServiceReference.
Proof. solve_decision. Defined.

Record WebhookClientConfig := {
  URL : option string;
  Service : option ServiceReference;
  CABundle : list Byte.byte;
}.

Global Instance Byte_eq_dec : EqDecision Byte.byte := Byte.byte_eq_dec.

Global Instance WebhookClientConfig_eq_dec : EqDecision WebhookClientConfig.
Proof. solve_decision. Defined.

Section Controller.

(** What the controller never looks into (a pod template, the rules of a
    webhook, the body of a security policy) is carried as an opaque
    payload that can be compared; [zero] is the payload of a Go struct
    that has only its metadata filled in. *)
Context {Payload : Type} `{!EqDecision Payload} (zero : Payload).

(** [admrv1.ValidatingWebhook]; [whRest] stands for Rules, FailurePolicy,
    MatchPolicy, SideEffects, TimeoutSeconds and AdmissionReviewVersions. *)
Record ValidatingWebhook := {
  whName : string;
  ClientConfig : WebhookClientConfig;
  NamespaceSelector : option LabelSelector;
  ObjectSelector : option LabelSelector;
  whRest : Payload;
}.

Global Instance ValidatingWebhook_eq_dec : EqDecision ValidatingWebhook.
Proof. solve_decision. Defined.

(** [opv1a1.SubscriptionSpec].  [Subscription.Spec] is a pointer, which
    the test of [labelClientOperatorSubscription] dereferences; every
    subscription the store serves is taken to have its spec set, so a
    subscription without one, on which that test would panic, is not
    among the objects here. *)
Record SubscriptionSpec := {
  Package : string;
  subRest : Payload;
}.

Global Instance SubscriptionSpec_eq_dec : EqDecision SubscriptionSpec.
Proof. solve_decision. Defined.

(** What an object of each kind holds besides its metadata: the [Data] of
    a config map ([None] for the nil map), the [Webhooks] of a webhook
    configuration, the [Spec] of a subscription, [Status.Desired.Version]
    of the cluster version, nothing for a definition read as
    [PartialObjectMetadata]. *)
Definition SpecOf (k : Kind) : Type :=
  match k with
  | KConfigMap => option (gmap string string)
  | KValidatingWebhookConfiguration => list ValidatingWebhook
  | KSubscription => SubscriptionSpec
  | KClusterVersion => string
  | KCustomResourceDefinition => unit
  | _ => Payload
  end.

Global Instance SpecOf_eq_dec k : EqDecision (SpecOf k).
Proof. destruct k; simpl; apply _. Defined.

Record Resource (k : Kind) := {
  meta : ObjectMeta;
  spec : SpecOf k;
}.
Arguments meta {k} _.
Arguments spec {k} _.

Global Instance Resource_eq_dec k : EqDecision (Resource k).
Proof. solve_decision. Defined.

Definition withMeta {k} (m : ObjectMeta) (r : Resource k) : Resource k :=
  {| meta := m; spec := spec r |}.
Definition withSpec {k} (s : SpecOf k) (r : Resource k) : Resource k :=
  {| meta := meta r; spec := s |}.

Definition GetName {k} (r : Resource k) : string := Name (meta r).
Definition GetNamespace {k} (r : Resource k) : string := Namespace (meta r).
Definition GetLabels {k} (r : Resource k) : option (gmap string string) :=
  Labels (meta r).

Definition Data (cm : Resource KConfigMap) : option (gmap string string) :=
  spec cm.
Definition Webhooks (wc : Resource KValidatingWebhookConfiguration)
  : list ValidatingWebhook := spec wc.

(** Reading a key of a Go map that may be nil: the zero value when the
    key (or the map) is absent. *)
Definition mapIndex (m : option (gmap string string)) (key : string) : string :=
  default "" (m ≫= (fun d => d !! key)).

(** ** The remote object store

    Objects of every kind, in the order the store lists them. *)
Definition Obj : Type := sigT Resource.

Definition cast (k : Kind) (o : Obj) : option (Resource k) :=
  match decide (projT1 o = k) with
  | left e => Some (eq_rect (projT1 o) Resource (projT2 o) k e)
  | right _ => None
  end.

Definition named {k} (ns name : string) (r : Resource k) : bool :=
  bool_decide (GetNamespace r = ns ∧ GetName r = name).

Fixpoint storeGet (k : Kind) (ns name : string) (l : list Obj)
  : option (Resource k) :=
  match l with
  | [] => None
  | o :: l' =>
      match cast k o with
      | Some r => if named ns name r then Some r else storeGet k ns name l'
      | None => storeGet k ns name l'
      end
  end.

Fixpoint storePut {k : Kind} (r : Resource k) (l : list Obj) : list Obj :=
  match l with
  | [] => []
  | o :: l' =>
      match cast k o with
      | Some r0 =>
          if named (GetNamespace r) (GetName r) r0
          then existT k r :: l'
          else o :: storePut r l'
      | None => o :: storePut r l'
      end
  end.

Definition storeList (k : Kind) (ns : string) (l : list Obj)
  : list (Resource k) :=
  filter (fun r => GetNamespace r = ns) (omap (cast k) l).

(** What comes back from the store went through JSON with [omitempty]:
    an empty map is read back as nil. *)
Definition omitempty (m : option (gmap string string))
  : option (gmap string string) :=
  match m with
  | Some d => if decide (d = ∅) then None else Some d
  | None => None
  end.

Definition wireSpec (k : Kind) : SpecOf k -> SpecOf k :=
  match k with
  | KConfigMap => omitempty
  | _ => fun s => s
  end.

Definition wire {k} (r : Resource k) : Resource k :=
  {| meta := setAnnotations (omitempty (Annotations (meta r)))
               (setLabels (omitempty (Labels (meta r))) (meta r));
     spec := wireSpec k (spec r) |}.

(** [equality.Semantic.DeepEqual]: a nil map and an empty map are equal. *)
Definition SemanticDeepEqual {k} (a b : Resource k) : bool :=
  bool_decide (wire a = wire b).

Inductive Verb := VGet | VList | VCreate | VUpdate.

Record Call := {
  verb : Verb;
  callKind : Kind;
  callNamespace : string;
  callName : string;
}.

(** The world the reconciler runs in: the objects in the store, the
    counter the store draws resource versions from, the failures the
    coming client calls will meet (one slot per call, [None] for a call
    that goes through), and the calls issued so far, latest first. *)
Record World := {
  objects : list Obj;
  revision : N;
  faults : list (option Error);
  calls : list Call;
}.

Definition M (A : Type) : Type := World -> Outcome A * World.

Global Instance M_ret : MRet M := fun A a w => (Ok a, w).
Global Instance M_bind : MBind M := fun A B f m w =>
  match m w with
  | (Ok a, w') => f a w'
  | (Err e, w') => (Err e, w')
  | (Panic msg, w') => (Panic msg, w')
  end.

Definition fail {A} (e : Error) : M A := fun w => (Err e, w).
Definition panic {A} (msg : string) : M A := fun w => (Panic msg, w).
Definition lift {A} (o : Outcome A) : M A := fun w => (o, w).

(** [if err := m; err != nil { ... }]: the error of [m] as a value. *)
Definition try {A} (m : M A) : M (Error + A) := fun w =>
  match m w with
  | (Ok a, w') => (Ok (inr a), w')
  | (Err e, w') => (Ok (inl e), w')
  | (Panic msg, w') => (Panic msg, w')
  end.

Definition record (v : Verb) (k : Kind) (ns name : string) : M unit :=
  fun w => (Ok tt,
            {| objects := objects w; revision := revision w;
               faults := faults w;
               calls := {| verb := v; callKind := k; callNamespace := ns;
                           callName := name |} :: calls w |}).

Definition nextFault : M unit := fun w =>
  match faults w with
  | [] => (Ok tt, w)
  | f :: fs =>
      let w' := {| objects := objects w; revision := revision w;
                   faults := fs; calls := calls w |} in
      match f with
      | Some e => (Err e, w')
      | None => (Ok tt, w')
      end
  end.

Definition rvString (n : N) : string := NilZero.string_of_uint (N.to_uint n).

(** The store commits [l] and moves to the next resource version. *)
Definition commit (l : list Obj) : M unit := fun w =>
  (Ok tt, {| objects := l; revision := N.succ (revision w);
             faults := faults w; calls := calls w |}).

Definition stamp {k} (r : Resource k) : M (Resource k) := fun w =>
  (Ok (wire (withMeta (setResourceVersion (rvString (N.succ (revision w)))
                         (meta r)) r)), w).

(** Custom resources must name the version they update; the built-in
    kinds accept an update without one. *)
Definition allowsUnconditionalUpdate (k : Kind) : bool :=
  match k with
  | KConfigMap | KDeployment | KDaemonSet | KService | KCSIDriver
  | KValidatingWebhookConfiguration | KCustomResourceDefinition => true
  | _ => false
  end.

(** *** The client

    Every call is recorded, meets the next failure slot, and otherwise
    behaves as the store does: a read of a missing object is NotFound, a
    create of a present one is AlreadyExists, an update must carry the
    stored resource version (or none, for the kinds that allow it). *)

Definition getObjects : M (list Obj) := fun w => (Ok (objects w), w).

Definition Get (k : Kind) (ns name : string) : M (Resource k) :=
  _ ← record VGet k ns name;
  _ ← nextFault;
  l ← getObjects;
  match storeGet k ns name l with
  | Some r => mret r
  | None => fail ErrNotFound
  end.

Definition List (k : Kind) (ns : string) : M (list (Resource k)) :=
  _ ← record VList k ns "";
  _ ← nextFault;
  l ← getObjects;
  mret (storeList k ns l).

Definition Create {k} (obj : Resource k) : M (Resource k) :=
  _ ← record VCreate k (GetNamespace obj) (GetName obj);
  _ ← nextFault;
  l ← getObjects;
  match storeGet k (GetNamespace obj) (GetName obj) l with
  | Some _ => fail ErrAlreadyExists
  | None =>
      stored ← stamp obj;
      _ ← commit (l ++ [existT k stored]);
      mret stored
  end.

Definition Update {k} (obj : Resource k) : M (Resource k) :=
  _ ← record VUpdate k (GetNamespace obj) (GetName obj);
  _ ← nextFault;
  l ← getObjects;
  match storeGet k (GetNamespace obj) (GetName obj) l with
  | None => fail ErrNotFound
  | Some current =>
      let rv := ResourceVersion (meta obj) in
      if decide (rv = "") then
        if allowsUnconditionalUpdate k then
          stored ← stamp obj;
          _ ← commit (storePut stored l);
          mret stored
        else
          fail (ErrOther "metadata.resourceVersion: must be specified for an update")
      else if decide (rv = ResourceVersion (meta current)) then
        stored ← stamp obj;
        _ ← commit (storePut stored l);
        mret stored
      else fail ErrConflict
  end.

(** *** controllerutil *)

(** [controllerutil.CreateOrUpdate]: the mutate function runs on the
    fetched object (or on the caller's object when there is none) and
    must leave name and namespace alone; an object the mutation leaves
    semantically equal is not written. *)
Definition mutate {k} (f : Resource k -> Outcome (Resource k))
    (ns name : string) (obj : Resource k) : M (Resource k) :=
  obj' ← lift (f obj);
  if bool_decide (GetNamespace obj' = ns ∧ GetName obj' = name)
  then mret obj'
  else fail (ErrOther "MutateFn cannot mutate object name and/or object namespace").

Inductive OperationResult :=
| OperationResultNone
| OperationResultCreated
| OperationResultUpdated.

Definition CreateOrUpdate {k} (obj : Resource k)
    (f : Resource k -> Outcome (Resource k)) : M OperationResult :=
  let ns := GetNamespace obj in
  let name := GetName obj in
  got ← try (Get k ns name);
  match got with
  | inl err =>
      if IsNotFound err then
        obj' ← mutate f ns name obj;
        _ ← Create obj';
        mret OperationResultCreated
      else fail err
  | inr existing =>
      obj' ← mutate f ns name existing;
      if SemanticDeepEqual existing obj' then mret OperationResultNone
      else
        _ ← Update obj';
        mret OperationResultUpdated
  end.

(** [controllerutil.SetControllerReference]: a namespaced owner cannot
    own a cluster-scoped object or one of another namespace; an object
    another controller owns is refused; otherwise the owner's reference
    replaces the one to the same owner or is appended. *)
Definition validateOwner {ko k} (owner : Resource ko) (object : Resource k)
  : Outcome unit :=
  let ownerNs := GetNamespace owner in
  if decide (ownerNs ≠ "") then
    let objNs := GetNamespace object in
    if decide (objNs = "") then
      Err (ErrOther "cluster-scoped resource must not have a namespace-scoped owner")
    else if decide (ownerNs ≠ objNs) then
      Err (ErrOther "cross-namespace owner references are disallowed")
    else Ok tt
  else Ok tt.

Definition referSameObject (a b : OwnerReference) : bool :=
  bool_decide (orKind a = orKind b ∧ orName a = orName b).

Definition GetControllerOf {k} (controlled : Resource k)
  : option OwnerReference :=
  snd <$> list_find (fun r => orController r = true)
            (OwnerReferences (meta controlled)).

Definition upsertOwnerRef {k} (ref : OwnerReference) (object : Resource k)
  : Resource k :=
  let owners := OwnerReferences (meta object) in
  let owners' :=
    match list_find (fun r => referSameObject r ref = true) owners with
    | Some (idx, _) => <[idx := ref]> owners
    | None => owners ++ [ref]
    end in
  withMeta (setOwnerReferences owners' (meta object)) object.

Definition SetControllerReference {ko k} (owner : Resource ko)
    (controlled : Resource k) : Outcome (Resource k) :=
  match validateOwner owner controlled with
  | Err e => Err e
  | Panic msg => Panic msg
  | Ok _ =>
      let ref := {| orKind := ko; orName := GetName owner;
                    orController := true; orBlockOwnerDeletion := true |} in
      match GetControllerOf controlled with
      | Some existing =>
          if referSameObject existing ref
          then Ok (upsertOwnerRef ref controlled)
          else Err (ErrOther "object is already owned by another controller")
      | None => Ok (upsertOwnerRef ref controlled)
      end
  end.

(** *** controller-runtime events, predicates and handlers *)

Inductive Event (k : Kind) :=
| CreateEvent (Object : Resource k)
| UpdateEvent (ObjectOld ObjectNew : Resource k)
| DeleteEvent (Object : Resource k)
| GenericEvent (Object : Resource k).
Arguments CreateEvent {k} _.
Arguments UpdateEvent {k} _ _.
Arguments DeleteEvent {k} _.
Arguments GenericEvent {k} _.

Definition Predicate (k : Kind) : Type := Event k -> bool.

(** [predicate.NewPredicateFuncs]: the filter sees the object of the
    event, the new one for an update. *)
Definition NewPredicateFuncs {k} (filter : Resource k -> bool) : Predicate k :=
  fun e =>
    match e with
    | CreateEvent o => filter o
    | UpdateEvent _ new => filter new
    | DeleteEvent o => filter o
    | GenericEvent o => filter o
    end.

(** [predicate.LabelChangedPredicate]: only an update is filtered, by
    [reflect.DeepEqual] on the two label maps (nil and empty differ). *)
Definition LabelChangedPredicate {k} : Predicate k :=
  fun e =>
    match e with
    | UpdateEvent old new => negb (bool_decide (GetLabels new = GetLabels old))
    | _ => true
    end.

Record Request := {
  reqNamespace : string;
  reqName : string;
}.

Global Instance Request_eq_dec : EqDecision Request.
Proof. solve_decision. Defined.

(** [handler.EnqueueRequestsFromMapFunc]: the map function runs on the
    object of the event, on both objects of an update, and a request is
    enqueued once. *)
Definition EnqueueRequestsFromMapFunc {k}
    (fn : Resource k -> list Request) (e : Event k) : list Request :=
  match e with
  | CreateEvent o => remove_dups (fn o)
  | UpdateEvent old new => remove_dups (fn old ++ fn new)
  | DeleteEvent o => remove_dups (fn o)
  | GenericEvent o => remove_dups (fn o)
  end.

(** One [Watches(kind, handler, predicates...)] of the builder: an event
    reaches the handler when every predicate lets it through. *)
Definition Watches {k} (handler : Event k -> list Request)
    (predicates : list (Predicate k)) (e : Event k) : list Request :=
  if forallb (fun p => p e) predicates then handler e else [].

(** ** What the packages outside this file provide

    [pkg/templates], [pkg/csi] and [pkg/console] of this repository and
    the embedded rule file: names, templates and the desired-state
    functions, taken as given.  [Sidecars] is the package state of [csi]
    that [InitializeSidecars] sets up and the desired-state functions of
    the workloads read. *)
Class Externals := {
  SubscriptionWebhookName : string;
  MonConfigMapName : string;
  EncryptionConfigMapName : string;
  SubscriptionValidatingWebhook : ValidatingWebhook;
  CephFSCSIDriver : Resource KCSIDriver;
  RbdCSIDriver : Resource KCSIDriver;

  Sidecars : Type;
  InitializeSidecars : string -> Outcome Sidecars;
  SCCName : string;
  CephFSDeploymentName : string;
  CephFSDaemonSetName : string;
  RBDDeploymentName : string;
  RBDDaemonSetName : string;
  GetCephFSDriverName : string;
  GetRBDDriverName : string;
  SetSecurityContextConstraintsDesiredState :
    Resource KSecurityContextConstraints -> string ->
    Resource KSecurityContextConstraints;
  SetCephFSDeploymentDesiredState :
    Sidecars -> Resource KDeployment -> Resource KDeployment;
  SetCephFSDaemonSetDesiredState :
    Sidecars -> Resource KDaemonSet -> Resource KDaemonSet;
  SetRBDDeploymentDesiredState :
    Sidecars -> Resource KDeployment -> Resource KDeployment;
  SetRBDDaemonSetDesiredState :
    Sidecars -> Resource KDaemonSet -> Resource KDaemonSet;

  DeploymentName : string;
  NginxConfigMapName : string;
  GetNginxConf : string;
  GetService : Z -> string -> Resource KService;
  GetConsolePlugin : Z -> string -> Resource KConsolePlugin;

  pvcPrometheusRules : string;
  Decode : string -> Outcome (Resource KPrometheusRule);
}.

(** ** controllers/clusterversion_controller.go *)

Definition operatorConfigMapName : string := "ocs-client-operator-config".
Definition clusterVersionName : string := "version".
Definition deployCSIKey : string := "DEPLOY_CSI".
Definition subscriptionLabelKey : string := "managed-by".
Definition subscriptionLabelValue : string :=
  "webhook.subscription.ocs.openshift.io".

(** The fields of the reconciler that are set when it is built; the
    others hold objects of the pass in progress and are plain local
    values here. *)
Record ClusterVersionReconciler := {
  OperatorDeployment : Resource KDeployment;
  OperatorNamespace : string;
  ConsolePort : Z;
}.

Context `{!Externals} (c : ClusterVersionReconciler).

(** *** SetupWithManager: the watches on the secondary kinds

    The primary watch ([For] the cluster version, on a change of its
    generation) enqueues the changed object itself and is the
    framework's own handler; the four [Watches] carry the closures of
    this file. *)

Definition configMapPredicates : list (Predicate KConfigMap) :=
  [NewPredicateFuncs (fun client =>
     let namespace := GetNamespace client in
     let name := GetName client in
     bool_decide (namespace = OperatorNamespace c) &&
     bool_decide (name = operatorConfigMapName))].

Definition enqueueClusterVersionRequest {k} : Event k -> list Request :=
  EnqueueRequestsFromMapFunc (fun _ =>
    [{| reqNamespace := ""; reqName := clusterVersionName |}]).

Definition subscriptionPredicates : list (Predicate KSubscription) :=
  [NewPredicateFuncs (fun client =>
     bool_decide (GetNamespace client = OperatorNamespace c));
   LabelChangedPredicate].

Definition webhookPredicates
  : list (Predicate KValidatingWebhookConfiguration) :=
  [NewPredicateFuncs (fun client =>
     bool_decide (GetName client = SubscriptionWebhookName))].

Definition watchConfigMap : Event KConfigMap -> list Request :=
  Watches enqueueClusterVersionRequest configMapPredicates.
Definition watchCustomResourceDefinition
  : Event KCustomResourceDefinition -> list Request :=
  Watches enqueueClusterVersionRequest [].
Definition watchSubscription : Event KSubscription -> list Request :=
  Watches enqueueClusterVersionRequest subscriptionPredicates.
Definition watchValidatingWebhookConfiguration
  : Event KValidatingWebhookConfiguration -> list Request :=
  Watches enqueueClusterVersionRequest webhookPredicates.

(** *** The helpers of the reconciler *)

Definition createOrUpdate {k} (obj : Resource k)
    (f : Resource k -> Outcome (Resource k)) : M unit :=
  _ ← CreateOrUpdate obj f;
  mret tt.

Definition own {k} (obj : Resource k) : Outcome (Resource k) :=
  SetControllerReference (OperatorDeployment c) obj.

Definition create {k} (obj : Resource k) : M unit :=
  _ ← Create obj;
  mret tt.

Definition get {k} (obj : Resource k) : M (Resource k) :=
  Get k (GetNamespace obj) (GetName obj).

(** The loop of [applyLabels] over the lines, [promLabel] being the map
    built so far.  [parts[1]] is out of range when the line has no
    colon. *)
Fixpoint applyLabelsLoop (labels : list string)
    (promLabel : gmap string string) : Outcome (gmap string string) :=
  match labels with
  | [] => Ok promLabel
  | line :: labels' =>
      if decide (String.length line = 0) then
        applyLabelsLoop labels' promLabel
      else
        let parts := strings.SplitN line ":" 2 in
        match parts !! 0%nat with
        | None => Panic "index out of range [0]"
        | Some part0 =>
            let key := strings.TrimSpace part0 in
            match parts !! 1%nat with
            | None => Panic "index out of range [1] with length 1"
            | Some part1 =>
                let value := strings.TrimSpace part1 in
                applyLabelsLoop labels' (<[key := value]> promLabel)
            end
        end
  end.

Definition applyLabels (label : string) (t : ObjectMeta) : Outcome ObjectMeta :=
  let promLabel : gmap string string := ∅ in
  let labels := strings.Split label (strings.byte 10) in
  match applyLabelsLoop labels promLabel with
  | Ok promLabel => Ok (setLabels (Some promLabel) t)
  | Err e => Err e
  | Panic msg => Panic msg
  end.

Definition newObject (k : Kind) (ns name : string) (s : SpecOf k)
  : Resource k :=
  {| meta := setNamespace ns (setName name emptyMeta); spec := s |}.

Definition getOperatorConfig : M (Resource KConfigMap) :=
  let cm := newObject KConfigMap "" "" None in
  got ← try (Get KConfigMap (OperatorNamespace c) operatorConfigMapName);
  match got with
  | inl err => if negb (IsNotFound err) then fail err else mret cm
  | inr cm => mret cm
  end.

(** The mutate functions of [ensureConsolePlugin], each on the object
    create-or-update hands it. *)
Definition nginxConfigMapMutate (consoleDeployment : Resource KDeployment)
    (nginxConf : string) (nginxConfigMap : Resource KConfigMap)
  : Outcome (Resource KConfigMap) :=
  let consoleConfigMapData := mapIndex (Data nginxConfigMap) "nginx.conf" in
  nginxConfigMap ←
    (if decide (consoleConfigMapData ≠ nginxConf) then
       match Data nginxConfigMap with
       | None => Panic "assignment to entry in nil map"
       | Some data =>
           Ok (withSpec (k := KConfigMap)
                 (Some (<["nginx.conf" := nginxConf]> data)) nginxConfigMap)
       end
     else Ok nginxConfigMap);
  SetControllerReference consoleDeployment nginxConfigMap.

Definition consoleServiceMutate (consoleDeployment : Resource KDeployment)
    (consoleService : Resource KService) : Outcome (Resource KService) :=
  _ ← SetControllerReference consoleDeployment consoleService;
  mret (GetService (ConsolePort c) (OperatorNamespace c)).

Definition consolePluginMutate (consolePlugin : Resource KConsolePlugin)
  : Outcome (Resource KConsolePlugin) :=
  (* preserve the resourceVersion of the consolePlugin *)
  let resourceVersion := ResourceVersion (meta consolePlugin) in
  let consolePlugin := GetConsolePlugin (ConsolePort c) (OperatorNamespace c) in
  let consolePlugin :=
    withMeta (setResourceVersion resourceVersion (meta consolePlugin))
      consolePlugin in
  Ok consolePlugin.

Definition ensureConsolePlugin : M unit :=
  consoleDeployment ← Get KDeployment (OperatorNamespace c) DeploymentName;
  let nginxConf := GetNginxConf in
  let nginxConfigMap :=
    newObject KConfigMap (OperatorNamespace c) NginxConfigMapName
      (Some {["nginx.conf" := nginxConf]}) in
  _ ← createOrUpdate nginxConfigMap
        (nginxConfigMapMutate consoleDeployment nginxConf);
  let consoleService := GetService (ConsolePort c) (OperatorNamespace c) in
  _ ← createOrUpdate consoleService (consoleServiceMutate consoleDeployment);
  let consolePlugin := GetConsolePlugin (ConsolePort c) (OperatorNamespace c) in
  _ ← createOrUpdate consolePlugin consolePluginMutate;
  mret tt.

(** [getDeployCSIConfig] returns a pair: the flag and the error. *)
Definition getDeployCSIConfig : M (bool * option Error) :=
  let operatorConfig :=
    newObject KConfigMap (OperatorNamespace c) operatorConfigMapName None in
  got ← try (get operatorConfig);
  match got with
  | inl err =>
      mret (false, Some (Errorf "failed to get operator configmap" err))
  | inr operatorConfig =>
      let data := Data operatorConfig in
      let data := match data with None => ∅ | Some data => data end in
      match data !! deployCSIKey with
      | Some value =>
          match strconv.ParseBool value with
          | Ok deployCSI => mret (deployCSI, None)
          | Err err =>
              mret (false,
                    Some (Errorf "failed to parse value for DEPLOY_CSI in operator configmap as a boolean" err))
          | Panic msg => panic msg
          end
      | None =>
          (* CSI installation is not specified explicitly in the configmap *)
          let storageClusterCRD :=
            newObject KCustomResourceDefinition ""
              "storageclusters.ocs.openshift.io" tt in
          probe ← try (get storageClusterCRD);
          match probe with
          | inl err =>
              if negb (IsNotFound err) then
                mret (false,
                      Some (Errorf "failed to verify existence of storagecluster crd" err))
              else
                (* storagecluster CRD doesn't exist *)
                mret (true, None)
          | inr _ =>
              (* storagecluster CRD exists *)
              mret (false, None)
          end
      end
  end.

Definition setClientConfig (v : WebhookClientConfig) (wh : ValidatingWebhook)
  : ValidatingWebhook :=
  {| whName := whName wh; ClientConfig := v;
     NamespaceSelector := NamespaceSelector wh;
     ObjectSelector := ObjectSelector wh; whRest := whRest wh |}.

(** The mutate function of [reconcileSubscriptionValidatingWebhook]. *)
Definition subscriptionWebhookMutate
    (whConfig : Resource KValidatingWebhookConfiguration)
  : Outcome (Resource KValidatingWebhookConfiguration) :=
  (* openshift fills in the ca on finding this annotation *)
  let whConfig :=
    withMeta
      (setAnnotations
         (Some {["service.beta.openshift.io/inject-cabundle" := "true"]})
         (meta whConfig)) whConfig in
  let '(caBundle, others) :=
    match Webhooks whConfig with
    | [] => ([], [])
    | first :: others =>
        (* do not mutate CA bundle that was injected by openshift *)
        (CABundle (ClientConfig first), others)
    end in
  (* webhook desired state: the template copied over Webhooks[0] *)
  let wh := SubscriptionValidatingWebhook in
  let wh :=
    {| whName := GetName whConfig;
       ClientConfig := ClientConfig wh;
       (* only send requests received from own namespace *)
       NamespaceSelector :=
         Some {| MatchLabels :=
                   {["kubernetes.io/metadata.name" := OperatorNamespace c]} |};
       (* only send resources matching the label *)
       ObjectSelector :=
         Some {| MatchLabels :=
                   {[subscriptionLabelKey := subscriptionLabelValue]} |};
       whRest := whRest wh |} in
  (* preserve the existing (injected) CA bundle if any *)
  let wh :=
    setClientConfig
      {| URL := URL (ClientConfig wh); Service := Service (ClientConfig wh);
         CABundle := caBundle |} wh in
  (* send request to the service running in own namespace *)
  match Service (ClientConfig wh) with
  | None => Panic "invalid memory address or nil pointer dereference"
  | Some service =>
      let service :=
        {| srNamespace := OperatorNamespace c; srName := srName service;
           srPath := srPath service; srPort := srPort service |} in
      let wh :=
        setClientConfig
          {| URL := URL (ClientConfig wh); Service := Some service;
             CABundle := CABundle (ClientConfig wh) |} wh in
      Ok (withSpec (k := KValidatingWebhookConfiguration) (wh :: others)
            whConfig)
  end.

Definition reconcileSubscriptionValidatingWebhook : M unit :=
  let whConfig :=
    newObject KValidatingWebhookConfiguration "" SubscriptionWebhookName [] in
  createOrUpdate whConfig subscriptionWebhookMutate.

(** Modelled from the spec: [utils.Find] of [pkg/utils], which is not
    among the sources: the first item of the list the test accepts, if
    any. *)
Definition Find {A} (list : list A) (f : A -> bool) : option A :=
  snd <$> list_find (fun item => f item = true) list.

(** Modelled from the spec: [utils.AddLabel] of [pkg/utils], which is
    not among the sources: the label is set and [true] returned unless
    the object already carries the label with that value. *)
Definition AddLabel {k} (obj : Resource k) (key value : string)
  : bool * Resource k :=
  let labels := default ∅ (GetLabels obj) in
  if decide (labels !! key = Some value) then (false, obj)
  else (true,
        withMeta (setLabels (Some (<[key := value]> labels)) (meta obj)) obj).

Definition labelClientOperatorSubscription : M unit :=
  listed ← try (List KSubscription (OperatorNamespace c));
  match listed with
  | inl _ => fail (ErrOther "failed to list subscriptions")
  | inr items =>
      match Find items (fun sub =>
              bool_decide (Package (spec (k := KSubscription) sub)
                           = "ocs-client-operator")) with
      | None =>
          fail (ErrOther "failed to find subscription with ocs-client-operator package")
      | Some sub =>
          let '(added, sub) :=
            AddLabel sub subscriptionLabelKey subscriptionLabelValue in
          _ ← (if added then _ ← Update sub; mret tt else mret tt);
          mret tt
      end
  end.

(** Modelled from the spec: [csi.CreateCSIDriver] of [pkg/csi], which is
    not among the sources: a driver descriptor is created if absent. *)
Definition CreateCSIDriver (csiDriver : Resource KCSIDriver) : M unit :=
  created ← try (Create csiDriver);
  match created with
  | inl err => if IsAlreadyExists err then mret tt else fail err
  | inr _ => mret tt
  end.

(** The mutate function of the SCC in [Reconcile]. *)
Definition sccMutate (scc : Resource KSecurityContextConstraints)
  : Outcome (Resource KSecurityContextConstraints) :=
  (* this is a hack to preserve the resourceVersion of the SCC *)
  let resourceVersion := ResourceVersion (meta scc) in
  let scc :=
    SetSecurityContextConstraintsDesiredState scc (OperatorNamespace c) in
  let scc := withMeta (setResourceVersion resourceVersion (meta scc)) scc in
  Ok scc.

(** The mutate function of the Prometheus rule in [Reconcile]. *)
Definition prometheusRuleMutate (operatorConfig : Resource KConfigMap)
    (prometheusRule : Resource KPrometheusRule)
  : Outcome (Resource KPrometheusRule) :=
  objectMeta ←
    applyLabels (mapIndex (Data operatorConfig) "OCS_METRICS_LABELS")
      (meta prometheusRule);
  own (withMeta objectMeta prometheusRule).

(** A write-once config map of [Reconcile]: owned, created, and an
    AlreadyExists answer is not an error. *)
Definition createConfigMapOnce (name : string) : M unit :=
  let configMap :=
    newObject KConfigMap (OperatorNamespace c) name
      (Some {["config.json" := "[]"]}) in
  configMap ← lift (own configMap);
  created ← try (create configMap);
  match created with
  | inl err => if negb (IsAlreadyExists err) then fail err else mret tt
  | inr _ => mret tt
  end.

Definition Reconcile (req : Request) : M unit :=
  _ ← reconcileSubscriptionValidatingWebhook;
  _ ← labelClientOperatorSubscription;
  _ ← ensureConsolePlugin;
  resolved ← getDeployCSIConfig;
  let deployCSI : bool := fst resolved in
  let err : option Error := snd resolved in
  match err with
  | Some err => fail err
  | None =>
      if deployCSI then
        instance ← Get KClusterVersion (reqNamespace req) (reqName req);
        sidecars ←
          lift (InitializeSidecars (spec (k := KClusterVersion) instance));

        let scc := newObject KSecurityContextConstraints "" SCCName zero in
        _ ← createOrUpdate scc sccMutate;

        (* create the monitor configmap for the csi drivers but never
           updates it *)
        _ ← createConfigMapOnce MonConfigMapName;
        (* create the encryption configmap for the csi driver but never
           updates it *)
        _ ← createConfigMapOnce EncryptionConfigMapName;

        let cephFSDeployment :=
          newObject KDeployment (OperatorNamespace c) CephFSDeploymentName
            zero in
        _ ← createOrUpdate cephFSDeployment (fun cephFSDeployment =>
               cephFSDeployment ← own cephFSDeployment;
               mret (SetCephFSDeploymentDesiredState sidecars cephFSDeployment));

        let cephFSDaemonSet :=
          newObject KDaemonSet (OperatorNamespace c) CephFSDaemonSetName
            zero in
        _ ← createOrUpdate cephFSDaemonSet (fun cephFSDaemonSet =>
               cephFSDaemonSet ← own cephFSDaemonSet;
               mret (SetCephFSDaemonSetDesiredState sidecars cephFSDaemonSet));

        let rbdDeployment :=
          newObject KDeployment (OperatorNamespace c) RBDDeploymentName
            zero in
        _ ← createOrUpdate rbdDeployment (fun rbdDeployment =>
               rbdDeployment ← own rbdDeployment;
               mret (SetRBDDeploymentDesiredState sidecars rbdDeployment));

        let rbdDaemonSet :=
          newObject KDaemonSet (OperatorNamespace c) RBDDaemonSetName zero in
        _ ← createOrUpdate rbdDaemonSet (fun rbdDaemonSet =>
               rbdDaemonSet ← own rbdDaemonSet;
               mret (SetRBDDaemonSetDesiredState sidecars rbdDaemonSet));

        (* the csiDriver objects are cluster scoped: no owner reference *)
        let cephfsCSIDriver :=
          withMeta (setName GetCephFSDriverName (meta CephFSCSIDriver))
            CephFSCSIDriver in
        _ ← CreateCSIDriver cephfsCSIDriver;

        let rbdCSIDriver :=
          withMeta (setName GetRBDDriverName (meta RbdCSIDriver))
            RbdCSIDriver in
        _ ← CreateCSIDriver rbdCSIDriver;

        prometheusRule ← lift (Decode pvcPrometheusRules);

        operatorConfig ← getOperatorConfig;
        let prometheusRule :=
          withMeta (setNamespace (OperatorNamespace c) (meta prometheusRule))
            prometheusRule in

        _ ← createOrUpdate prometheusRule (prometheusRuleMutate operatorConfig);
        mret tt
      else mret tt
  end.

End Controller.

Arguments meta {Payload k} _.
Arguments spec {Payload k} _.
Arguments CreateEvent {Payload k} _.
Arguments UpdateEvent {Payload k} _ _.
Arguments DeleteEvent {Payload k} _.
Arguments GenericEvent {Payload k} _.

(** ** The label text, in the words of the specification

    A sequence of lines, each [key:value] cut at the first colon, both
    sides trimmed of surrounding white space; empty lines are skipped. *)

Definition newline : ascii := strings.byte 10.

Fixpoint beforeColon (line : string) : string :=
  match line with
  | "" => ""
  | String ch rest =>
      if Ascii.eqb ch ":" then "" else String ch (beforeColon rest)
  end.

Fixpoint afterColon (line : string) : string :=
  match line with
  | "" => ""
  | String ch rest => if Ascii.eqb ch ":" then rest else afterColon rest
  end.

Definition labelLines (label : string) : list string :=
  filter (fun line => line ≠ "") (strings.Split label newline).


(** Every non-empty line of the text holds a colon. *)
Definition lineOk (line : string) : bool :=
  bool_decide (line = "") || strings.contains ":" line.

Definition everyLineHasColon (label : string) : bool :=
  forallb lineOk (strings.Split label newline).

Definition labelStep (labels : gmap string string) (line : string)
  : gmap string string :=
  <[strings.TrimSpace (beforeColon line) :=
      strings.TrimSpace (afterColon line)]> labels.

Definition parsedLabels (label : string) : gmap string string :=
  foldl labelStep ∅ (labelLines label).

(** The metadata [t'] has every field of [t] but, possibly, the labels:
    field by field. *)
Definition sameButLabels (t t' : ObjectMeta) : Prop :=
  Name t' = Name t ∧ Namespace t' = Namespace t
  ∧ ResourceVersion t' = ResourceVersion t
  ∧ Annotations t' = Annotations t
  ∧ OwnerReferences t' = OwnerReferences t.

(** The same for the annotations. *)
Definition sameButAnnotations (t t' : ObjectMeta) : Prop :=
  Name t' = Name t ∧ Namespace t' = Namespace t
  ∧ ResourceVersion t' = ResourceVersion t
  ∧ Labels t' = Labels t
  ∧ OwnerReferences t' = OwnerReferences t.

Definition exampleLabels : string :=
  "team: storage" +:+ String newline ("env:  prod" +:+ String newline (String newline "")).


Section Specification.

Context {Payload : Type} `{!EqDecision Payload}.
Context `{!@Externals Payload} (c : @ClusterVersionReconciler Payload).

(** The webhook the mutate function leaves at the head of [Webhooks],
    for a template that calls the service [service], with [caBundle] as
    the certificate bundle. *)
Definition desiredWebhook (name : string) (service : ServiceReference)
    (caBundle : list Byte.byte) : @ValidatingWebhook Payload :=
  {| whName := name;
     ClientConfig :=
       {| URL := URL (ClientConfig SubscriptionValidatingWebhook);
          Service := Some {| srNamespace := OperatorNamespace c;
                             srName := srName service;
                             srPath := srPath service;
                             srPort := srPort service |};
          CABundle := caBundle |};
     NamespaceSelector :=
       Some {| MatchLabels :=
                 {["kubernetes.io/metadata.name" := OperatorNamespace c]} |};
     ObjectSelector :=
       Some {| MatchLabels :=
                 {["managed-by" := "webhook.subscription.ocs.openshift.io"]} |};
     whRest := whRest SubscriptionValidatingWebhook |}.

(** The object of an event that a filter looks at. *)
Definition eventObject {k} (e : @Event Payload k) : Resource k :=
  match e with
  | CreateEvent o => o
  | UpdateEvent _ new => new
  | DeleteEvent o => o
  | GenericEvent o => o
  end.

(** The one request every secondary watch maps to. *)
Definition versionRequest : Request :=
  {| reqNamespace := ""; reqName := "version" |}.

Definition passes {k} (predicates : list (@Predicate Payload k)) (e : Event k)
  : bool :=
  forallb (fun p => p e) predicates.

(** A call of the client, as the world records it. *)
Definition theCall (v : Verb) (k : Kind) (ns name : string) : Call :=
  {| verb := v; callKind := k; callNamespace := ns; callName := name |}.

(** The list call of [labelClientOperatorSubscription]. *)
Definition listCall : Call :=
  theCall VList KSubscription (OperatorNamespace c) "".

(** The key of an object differs from a given key. *)
Definition otherKey {k} (r : @Resource Payload k) (k0 : Kind)
    (ns0 name0 : string) : Prop :=
  ¬ (k = k0 ∧ GetNamespace r = ns0 ∧ GetName r = name0).

(** *** What a run leaves alone

    [calls w'] extends [calls w] by the calls of the run, latest first.
    An object is [untouched] by a run that leaves the store's answer for
    its key as it was and issues no create and no update for it; it is
    [keptOnce] by a run that, if the object was there, leaves it as it was
    and issues no update for it. *)
Definition isWrite (v : Verb) : bool :=
  match v with
  | VCreate | VUpdate => true
  | VGet | VList => false
  end.

Definition isUpdate (v : Verb) : bool :=
  match v with
  | VUpdate => true
  | _ => false
  end.

Definition callsFor (k : Kind) (ns name : string) (call : Call) : Prop :=
  callKind call = k ∧ callNamespace call = ns ∧ callName call = name.

Definition issuedOnly (forbidden : Verb -> bool) (k : Kind) (ns name : string)
    (w w' : @World Payload) : Prop :=
  ∃ new, calls w' = new ++ calls w
         ∧ Forall (fun call => callsFor k ns name call →
                               forbidden (verb call) = false) new.

Definition untouched (k : Kind) (ns name : string) (w w' : @World Payload)
  : Prop :=
  storeGet k ns name (objects w') = storeGet k ns name (objects w)
  ∧ issuedOnly isWrite k ns name w w'.

Definition keptOnce (k : Kind) (ns name : string) (w w' : @World Payload)
  : Prop :=
  (∀ r, storeGet k ns name (objects w) = Some r →
        storeGet k ns name (objects w') = Some r)
  ∧ issuedOnly isUpdate k ns name w w'.

(** A computation respects a relation between the world it starts in and
    the world it ends in. *)
Definition respects (R : relation (@World Payload)) {A} (m : M A) : Prop :=
  ∀ w, R w (snd (m w)).

(** The resources the CSI branch of [Reconcile] manages: the security
    context constraints, the workloads, the driver descriptors, the
    Prometheus rule (every object of these kinds), and the two write-once
    config maps of the operator namespace. *)
Definition csiManaged (k : Kind) (ns name : string) : Prop :=
  k ∈ [KSecurityContextConstraints; KDeployment; KDaemonSet; KCSIDriver;
       KPrometheusRule]
  ∨ (k = KConfigMap ∧ ns = OperatorNamespace c
     ∧ (name = MonConfigMapName ∨ name = EncryptionConfigMapName)).

(** A pass up to and including the flag resolution: the flag it resolves,
    if the steps before it succeed. *)
Definition flagOfPass : M (bool * option Error) :=
  _ ← reconcileSubscriptionValidatingWebhook c;
  _ ← labelClientOperatorSubscription c;
  _ ← ensureConsolePlugin c;
  getDeployCSIConfig c.

(** The subscriptions of the operator namespace for the package of this
    operator, in the order the store lists them. *)
Definition clientSubscriptions (w : @World Payload)
  : list (Resource KSubscription) :=
  filter (fun sub => Package (spec (k := KSubscription) sub) = "ocs-client-operator")
    (storeList KSubscription (OperatorNamespace c) (objects w)).

(** The subscription carries the label of the webhook already. *)
Definition labelled (sub : @Resource Payload KSubscription) : Prop :=
  default ∅ (GetLabels sub) !! "managed-by"
  = Some "webhook.subscription.ocs.openshift.io".

(** The worlds after each of a sequence of reconcile passes. *)
Fixpoint reconcilePasses (zero : Payload) (reqs : list Request)
    (w : @World Payload) : @World Payload :=
  match reqs with
  | [] => w
  | req :: reqs' => reconcilePasses zero reqs' (snd (Reconcile zero c req w))
  end.

End Specification.

(** ** Further notions for the properties of the code *)

Section SpecificationMore.

Context {Payload : Type} `{!EqDecision Payload}.
Context (zero : Payload).
Context `{!@Externals Payload} (c : @ClusterVersionReconciler Payload).

(** The owner reference [own] writes. *)
Definition operatorReference : OwnerReference :=
  {| orKind := KDeployment; orName := GetName (OperatorDeployment c);
     orController := true; orBlockOwnerDeletion := true |}.

(** The two reads of the flag resolution. *)
Definition readConfigCall : Call :=
  theCall VGet KConfigMap (OperatorNamespace c) "ocs-client-operator-config".

Definition probeCall : Call :=
  theCall VGet KCustomResourceDefinition ""
    "storageclusters.ocs.openshift.io".

(** What [Reconcile] does with the resolved flag: the part of its body
    after the call of [getDeployCSIConfig]. *)
Definition afterFlag (req : Request) : bool * option Error → M unit :=
  ltac:(let body := eval cbv delta [Reconcile] beta in (Reconcile zero c req) in
        match body with
        | mbind (fun _ => mbind (fun _ => mbind (fun _ => mbind ?rest _) _) _) _ =>
            exact rest
        end).

(** What no pass writes: the cluster version, the custom resource
    definitions, and every config map but the three the pass writes. *)
Definition neverWritten (k : Kind) (ns name : string) : Prop :=
  k = KClusterVersion ∨ k = KCustomResourceDefinition
  ∨ (k = KConfigMap
     ∧ ¬ (ns = OperatorNamespace c
          ∧ (name = NginxConfigMapName ∨ name = MonConfigMapName
             ∨ name = EncryptionConfigMapName))).

(** The next call of the client meets no injected failure. *)
Definition unhindered (w : @World Payload) : Prop :=
  match faults w with
  | Some _ :: _ => False
  | _ => True
  end.

(** The read of the webhook configuration. *)
Definition webhookCall : Call :=
  theCall VGet KValidatingWebhookConfiguration "" SubscriptionWebhookName.

(** The test [labelClientOperatorSubscription] hands to [utils.Find]. *)
Definition isClientSubscription (sub : @Resource Payload KSubscription)
  : bool :=
  bool_decide (Package (spec (k := KSubscription) sub) = "ocs-client-operator").

(** No failure the schedule still holds is AlreadyExists: that answer
    then only comes from the store, for an object it holds. *)
Definition benign (w : @World Payload) : Prop :=
  Forall (fun f => ∀ e, f = Some e → IsAlreadyExists e = false) (faults w).

(** The store holds an object under the key. *)
Definition held (w : @World Payload) (key : Kind * string * string) : Prop :=
  is_Some (storeGet key.1.1 key.1.2 key.2 (objects w)).

(** From [w] to [w'] nothing was removed and no failure was added to the
    schedule. *)
Definition carries (w w' : @World Payload) : Prop :=
  (benign w → benign w') ∧ ∀ key, held w key → held w' key.

(** The keys of what the CSI branch of a pass creates, in the order of
    the pass, [rule] being the decoded Prometheus rule. *)
Definition csiObjects (rule : @Resource Payload KPrometheusRule)
  : list (Kind * string * string) :=
  [(KSecurityContextConstraints, "", SCCName);
   (KConfigMap, OperatorNamespace c, MonConfigMapName);
   (KConfigMap, OperatorNamespace c, EncryptionConfigMapName);
   (KDeployment, OperatorNamespace c, CephFSDeploymentName);
   (KDaemonSet, OperatorNamespace c, CephFSDaemonSetName);
   (KDeployment, OperatorNamespace c, RBDDeploymentName);
   (KDaemonSet, OperatorNamespace c, RBDDaemonSetName);
   (KCSIDriver, GetNamespace CephFSCSIDriver, GetCephFSDriverName);
   (KCSIDriver, GetNamespace RbdCSIDriver, GetRBDDriverName);
   (KPrometheusRule, OperatorNamespace c, GetName rule)].

End SpecificationMore.
(** ** A concrete cluster

    One instance of the packages, a reconciler and a few stores, with
    strings as payloads, to run the controller on. *)

Module Scenario.

Definition operatorNamespace : string := "openshift-storage".

Definition webhookTemplate : @ValidatingWebhook string :=
  {| whName := "";
     ClientConfig :=
       {| URL := None;
          Service := Some {| srNamespace := ""; srName := "webhook-server";
                             srPath := Some "/validate-subscription";
                             srPort := Some 443%Z |};
          CABundle := [] |};
     NamespaceSelector := None;
     ObjectSelector := None;
     whRest := "subscription rules" |}.

Definition externals : @Externals string :=
  {| SubscriptionWebhookName := "subscription.ocs.openshift.io";
     MonConfigMapName := "ceph-csi-configs";
     EncryptionConfigMapName := "ceph-csi-kms-config";
     SubscriptionValidatingWebhook := webhookTemplate;
     CephFSCSIDriver := newObject KCSIDriver "" "" "cephfs driver";
     RbdCSIDriver := newObject KCSIDriver "" "" "rbd driver";
     Sidecars := string;
     InitializeSidecars := fun version => Ok version;
     SCCName := "ocs-csi-scc";
     CephFSDeploymentName := "csi-cephfsplugin-provisioner";
     CephFSDaemonSetName := "csi-cephfsplugin";
     RBDDeploymentName := "csi-rbdplugin-provisioner";
     RBDDaemonSetName := "csi-rbdplugin";
     GetCephFSDriverName := "openshift-storage.cephfs.csi.ceph.com";
     GetRBDDriverName := "openshift-storage.rbd.csi.ceph.com";
     SetSecurityContextConstraintsDesiredState := fun _ namespace =>
       newObject KSecurityContextConstraints "" "ocs-csi-scc"
         ("users of " +:+ namespace);
     SetCephFSDeploymentDesiredState := fun sidecars d =>
       withSpec (k := KDeployment) ("cephfs provisioner " +:+ sidecars) d;
     SetCephFSDaemonSetDesiredState := fun sidecars d =>
       withSpec (k := KDaemonSet) ("cephfs plugin " +:+ sidecars) d;
     SetRBDDeploymentDesiredState := fun sidecars d =>
       withSpec (k := KDeployment) ("rbd provisioner " +:+ sidecars) d;
     SetRBDDaemonSetDesiredState := fun sidecars d =>
       withSpec (k := KDaemonSet) ("rbd plugin " +:+ sidecars) d;
     DeploymentName := "ocs-client-operator-console";
     NginxConfigMapName := "ocs-client-operator-console-nginx-conf";
     GetNginxConf := "server { listen 9001 ssl; }";
     GetService := fun _ namespace =>
       newObject KService namespace "ocs-client-operator-console-service"
         "console service";
     GetConsolePlugin := fun _ _ =>
       newObject KConsolePlugin "" "odf-client-console" "console plugin";
     pvcPrometheusRules := "pvc-rules.yaml";
     Decode := fun _ =>
       Ok (newObject KPrometheusRule "" "prometheus-pvc-rules" "pvc rules");
  |}.

Definition reconciler : @ClusterVersionReconciler string :=
  {| OperatorDeployment :=
       newObject KDeployment operatorNamespace
         "ocs-client-operator-controller-manager" "manager";
     OperatorNamespace := operatorNamespace;
     ConsolePort := 9001 |}.

Definition request : Request :=
  {| reqNamespace := ""; reqName := "version" |}.

Definition resource (k : Kind) (ns name rv : string) (s : @SpecOf string k)
  : @Resource string k :=
  {| meta := setResourceVersion rv (setNamespace ns (setName name emptyMeta));
     spec := s |}.

Definition world (objs : list (@Obj string)) : @World string :=
  {| objects := objs; revision := 100; faults := []; calls := [] |}.

(** The world after one more call that left the store as it was. *)
Definition afterCall (call : Call) (w : @World string) : @World string :=
  {| objects := objects w; revision := revision w; faults := faults w;
     calls := call :: calls w |}.

Definition clusterVersion : @Resource string KClusterVersion :=
  resource KClusterVersion "" "version" "1" "4.16.0".
Definition consoleDeployment : @Resource string KDeployment :=
  resource KDeployment operatorNamespace "ocs-client-operator-console" "2"
    "console".
Definition subscription : @Resource string KSubscription :=
  resource KSubscription operatorNamespace "ocs-client-operator" "3"
    {| Package := "ocs-client-operator"; subRest := "stable" |}.
Definition otherSubscription : @Resource string KSubscription :=
  resource KSubscription operatorNamespace "odf-operator" "4"
    {| Package := "odf-operator"; subRest := "stable" |}.
Definition operatorConfig (data : list (string * string))
  : @Resource string KConfigMap :=
  resource KConfigMap operatorNamespace "ocs-client-operator-config" "5"
    (Some (list_to_map data)).
Definition storageClusterCRD : @Resource string KCustomResourceDefinition :=
  resource KCustomResourceDefinition "" "storageclusters.ocs.openshift.io" "6"
    tt.

(** A webhook configuration whose first webhook got its bundle injected. *)
Definition injectedWebhook : @ValidatingWebhook string :=
  {| whName := "subscription.ocs.openshift.io";
     ClientConfig :=
       {| URL := None;
          Service := Some {| srNamespace := "old-namespace";
                             srName := "webhook-server";
                             srPath := None; srPort := None |};
          CABundle := [Byte.x30; Byte.x82; Byte.x01; Byte.x0a] |};
     NamespaceSelector := None;
     ObjectSelector := None;
     whRest := "stale rules" |}.
Definition webhookConfiguration
  : @Resource string KValidatingWebhookConfiguration :=
  resource KValidatingWebhookConfiguration "" "subscription.ocs.openshift.io"
    "8" [injectedWebhook].

(** The operator is installed, without its config map. *)
Definition installed : @World string :=
  world [existT _ clusterVersion; existT _ consoleDeployment;
         existT _ subscription].

(** The operator is installed and configured. *)
Definition configured (data : list (string * string)) : @World string :=
  world [existT _ clusterVersion; existT _ consoleDeployment;
         existT _ subscription; existT _ (operatorConfig data)].

(** The same next to a storage cluster definition. *)
Definition withStorageCluster (data : list (string * string))
  : @World string :=
  world [existT _ clusterVersion; existT _ consoleDeployment;
         existT _ subscription; existT _ (operatorConfig data);
         existT _ storageClusterCRD].


(** Only another operator is subscribed in the namespace. *)
Definition unsubscribed : @World string :=
  world [existT _ clusterVersion; existT _ consoleDeployment;
         existT _ otherSubscription; existT _ (operatorConfig [])].

Definition readConfigMap : Call :=
  theCall VGet KConfigMap operatorNamespace "ocs-client-operator-config".

Definition createdConfigMapEvent : @Event string KConfigMap :=
  CreateEvent (operatorConfig [("DEPLOY_CSI", "true")]).

End Scenario.


(** ** Further states of the concrete cluster *)

Module Cases.

Import Scenario.

(** The same world, with the failures the next calls will meet. *)
Definition withFaults (fs : list (option Error)) (w : @World string)
  : @World string :=
  {| objects := objects w; revision := revision w; faults := fs;
     calls := calls w |}.

(** The webhook configuration the webhook step starts from. *)
Definition newWebhookConfiguration
  : @Resource string KValidatingWebhookConfiguration :=
  newObject KValidatingWebhookConfiguration "" "subscription.ocs.openshift.io"
    [].

Definition templateService : ServiceReference :=
  {| srNamespace := ""; srName := "webhook-server";
     srPath := Some "/validate-subscription"; srPort := Some 443%Z |}.

(** The webhook configuration of the scenario as the mutate function
    shapes it. *)
Definition shapedWebhookConfiguration
  : @Resource string KValidatingWebhookConfiguration :=
  withSpec (k := KValidatingWebhookConfiguration)
    [desiredWebhook (H := externals) reconciler
       "subscription.ocs.openshift.io" templateService
       [Byte.x30; Byte.x82; Byte.x01; Byte.x0a]]
    (withMeta
       (setAnnotations
          (Some {["service.beta.openshift.io/inject-cabundle" := "true"]})
          (meta webhookConfiguration))
       webhookConfiguration).

(** The nginx config map as the store returns it when it has no data. *)
Definition bareNginxConfigMap : @Resource string KConfigMap :=
  resource KConfigMap operatorNamespace
    "ocs-client-operator-console-nginx-conf" "9" None.

Definition monConfigMap : @Resource string KConfigMap :=
  newObject KConfigMap operatorNamespace "ceph-csi-configs"
    (Some {["config.json" := "[]"]}).

Definition ownedMonConfigMap : @Resource string KConfigMap :=
  withMeta
    (setOwnerReferences [operatorReference reconciler] (meta monConfigMap))
    monConfigMap.

Definition prometheusRule : @Resource string KPrometheusRule :=
  withMeta
    (setLabels (Some {["prometheus" := "k8s"]})
       (setNamespace operatorNamespace
          (setName "prometheus-pvc-rules" emptyMeta)))
    (newObject KPrometheusRule "" "" "pvc rules").

Definition unlabelledPrometheusRule : @Resource string KPrometheusRule :=
  withMeta
    (setOwnerReferences [operatorReference reconciler]
       (setLabels (Some ∅) (meta prometheusRule)))
    prometheusRule.

(** A console service of an earlier version of the operator. *)
Definition oldConsoleService : @Resource string KService :=
  resource KService operatorNamespace "ocs-client-operator-console-service"
    "10" "old console service".

Definition withConsoleService : @World string :=
  world [existT _ clusterVersion; existT _ consoleDeployment;
         existT _ subscription; existT _ oldConsoleService].

Definition readConsoleService : Call :=
  theCall VGet KService operatorNamespace
    "ocs-client-operator-console-service".

(** The operator is installed and configured, the cluster version is
    not there. *)
Definition withoutVersion : @World string :=
  world [existT _ consoleDeployment; existT _ subscription;
         existT _ (operatorConfig [])].

(** The subscription moved to another channel. *)
Definition movedSubscription : @Resource string KSubscription :=
  resource KSubscription operatorNamespace "ocs-client-operator" "11"
    {| Package := "ocs-client-operator"; subRest := "fast" |}.

(** The store does not answer. *)
Definition unreachable : @World string :=
  withFaults [Some (ErrOther "connection refused")] installed.

End Cases.
Section LabelProperties.

Lemma length_zero_iff (s : string) : String.length s = 0 ↔ s = "".
Proof. destruct s; simpl; split; intros; congruence. Qed.

(** Each cut consumes the separator: the fuel [Split] gives [genSplit],
    the length of the text, is never used up before the separators are,
    and more fuel changes nothing. *)
Lemma Cut_length (s : string) (sep : ascii) before after :
  strings.Cut s sep = Some (before, after) →
  (String.length after < String.length s)%nat.
Proof.
  revert before. induction s as [|ch rest IH]; intros before;
    cbn [strings.Cut String.length]; [done|].
  destruct (Ascii.eqb ch sep).
  - intros [= _ <-]. lia.
  - destruct (strings.Cut rest sep) as [[b a]|] eqn:Hcut; [|done].
    intros [= _ <-]. specialize (IH b eq_refl). lia.
Qed.

Lemma genSplit_fuel (n : nat) :
  ∀ (s : string) (sep : ascii),
    (String.length s ≤ n)%nat →
    strings.genSplit n s sep = strings.genSplit (String.length s) s sep.
Proof.
  induction n as [n IH] using lt_wf_ind. intros s sep Hlen.
  destruct n as [|n'].
  - by replace (String.length s) with 0 by lia.
  - cbn [strings.genSplit].
    destruct (String.length s) as [|m] eqn:Hs.
    + apply length_zero_iff in Hs as ->. done.
    + cbn [strings.genSplit].
      destruct (strings.Cut s sep) as [[before after]|] eqn:Hcut; [|done].
      apply Cut_length in Hcut. rewrite Hs in Hcut.
      rewrite (IH n') by lia. rewrite (IH m) by lia. done.
Qed.

Example Split_examples :
  strings.Split "a,b,,c" "," = ["a"; "b"; ""; "c"]
  ∧ strings.Split "" "," = [""]
  ∧ strings.SplitN "a:b:c" ":" 2 = ["a"; "b:c"]
  ∧ strings.SplitN "abc" ":" 2 = ["abc"]
  ∧ strings.SplitN "a:b" ":" 0 = [].
Proof. repeat split; reflexivity. Qed.

Example TrimSpace_examples :
  strings.TrimSpace "  prod " = "prod"
  ∧ strings.TrimSpace (strings.bytes [9; 97; 32; 98; 194; 160; 10]) = "a b"
  ∧ strings.TrimSpace (strings.bytes [226; 128; 131; 97; 227; 128; 128]) = "a"
  ∧ strings.TrimSpace (strings.bytes [194; 97]) = strings.bytes [194; 97].
Proof. repeat split; reflexivity. Qed.

Example ParseBool_examples :
  strconv.ParseBool "True" = Ok true
  ∧ strconv.ParseBool "0" = Ok false
  ∧ strconv.ParseBool "yes"
    = Err (ErrOther "strconv.ParseBool: parsing yes: invalid syntax").
Proof. repeat split; reflexivity. Qed.

Lemma Cut_colon (line : string) :
  strings.contains ":" line = true →
  strings.Cut line ":" = Some (beforeColon line, afterColon line).
Proof.
  induction line as [|ch rest IH];
    cbn [strings.contains strings.Cut beforeColon afterColon]; [done|].
  rewrite (Ascii.eqb_sym ":" ch).
  destruct (Ascii.eqb ch ":"); [done|].
  intros Hc. by rewrite (IH Hc).
Qed.

Lemma Cut_no_colon (line : string) :
  strings.contains ":" line = false → strings.Cut line ":" = None.
Proof.
  induction line as [|ch rest IH];
    cbn [strings.contains strings.Cut beforeColon afterColon]; [done|].
  rewrite (Ascii.eqb_sym ":" ch).
  destruct (Ascii.eqb ch ":"); [done|].
  intros Hc. by rewrite (IH Hc).
Qed.

Lemma SplitN_colon (line : string) :
  strings.contains ":" line = true →
  strings.SplitN line ":" 2 = [beforeColon line; afterColon line].
Proof.
  intros Hc. unfold strings.SplitN. simpl.
  by rewrite (Cut_colon _ Hc).
Qed.

Lemma SplitN_no_colon (line : string) :
  strings.contains ":" line = false → strings.SplitN line ":" 2 = [line].
Proof.
  intros Hc. unfold strings.SplitN. simpl.
  by rewrite (Cut_no_colon _ Hc).
Qed.

End LabelProperties.

Section LabelTheorems.


Lemma forallb_false_elem {A} (f : A → bool) (l : list A) :
  forallb f l = false → ∃ x, x ∈ l ∧ f x = false.
Proof.
  induction l as [|a l IH]; cbn [forallb]; [done|].
  destruct (f a) eqn:Ha; cbn [andb].
  - intros Hl. destruct (IH Hl) as (x & Hin & Hx).
    exists x. split; [by apply list_elem_of_further|done].
  - intros _. exists a. split; [by apply list_elem_of_here|done].
Qed.

Lemma applyLabelsLoop_ok (lines : list string) :
  ∀ promLabel,
    forallb lineOk lines = true →
    applyLabelsLoop lines promLabel
    = Ok (foldl labelStep promLabel (filter (fun line => line ≠ "") lines)).
Proof.
  induction lines as [|line lines IH]; intros promLabel Hok; [done|].
  cbn [forallb] in Hok. apply andb_true_iff in Hok as [Hline Hrest].
  cbn [applyLabelsLoop].
  destruct (decide (String.length line = 0)) as [Hz|Hnz].
  - apply length_zero_iff in Hz. subst line.
    rewrite filter_cons_False; [|by intros []]. by apply IH.
  - assert (line ≠ "") as Hne by (by rewrite <-length_zero_iff).
    unfold lineOk in Hline. rewrite bool_decide_eq_false_2 in Hline by done.
    cbn [orb] in Hline.
    rewrite (SplitN_colon _ Hline). cbn [lookup list_lookup].
    rewrite filter_cons_True by done. cbn [foldl]. by apply IH.
Qed.

Lemma applyLabelsLoop_panic (lines : list string) :
  ∀ promLabel,
    forallb lineOk lines = false →
    applyLabelsLoop lines promLabel
    = Panic "index out of range [1] with length 1".
Proof.
  induction lines as [|line lines IH]; intros promLabel Hbad; [done|].
  cbn [forallb] in Hbad. cbn [applyLabelsLoop].
  destruct (decide (String.length line = 0)) as [Hz|Hnz].
  - apply length_zero_iff in Hz. subst line. by apply IH.
  - assert (line ≠ "") as Hne by (by rewrite <-length_zero_iff).
    unfold lineOk in Hbad at 1.
    rewrite bool_decide_eq_false_2 in Hbad by done. cbn [orb] in Hbad.
    destruct (strings.contains ":" line) eqn:Hc.
    + rewrite (SplitN_colon _ Hc). cbn [lookup list_lookup]. by apply IH.
    + by rewrite (SplitN_no_colon _ Hc).
Qed.

(** C5.  [applyLabels] cuts the text into lines, skips the empty ones,
    cuts each other line at its first colon and trims key and value:
    on a text whose non-empty lines all hold a colon it returns, the
    labels of the metadata it returns are [parsedLabels] of the text, and
    the other fields are as they were; on the text
    ["team: storage\nenv:  prod\n\n"] the labels it returns are exactly
    team=storage and env=prod. *)
Theorem applyLabels_parses :
  (∀ (label : string) (t : ObjectMeta),
      everyLineHasColon label = true →
      ∃ t', applyLabels label t = Ok t'
            ∧ Labels t' = Some (parsedLabels label)
            ∧ sameButLabels t t')
  ∧ (∀ t : ObjectMeta,
        ∃ t', applyLabels exampleLabels t = Ok t'
              ∧ Labels t'
                = Some (<["team" := "storage"]> {["env" := "prod"]})
              ∧ Labels t' ≫= (fun labels => labels !! "team")
                = Some "storage"
              ∧ Labels t' ≫= (fun labels => labels !! "env") = Some "prod"
              ∧ (∀ key, key ≠ "team" → key ≠ "env" →
                        Labels t' ≫= (fun labels => labels !! key) = None)).
Proof.
  assert (∀ label t, everyLineHasColon label = true →
            ∃ t', applyLabels label t = Ok t'
                  ∧ Labels t' = Some (parsedLabels label)
                  ∧ sameButLabels t t')
    as Hgen.
  { intros label t Hok. unfold applyLabels.
    rewrite (applyLabelsLoop_ok _ ∅ Hok). eexists. split; [reflexivity|].
    split; [reflexivity|]. by repeat split. }
  split; [exact Hgen|].
  intros t. destruct (Hgen exampleLabels t eq_refl) as (t' & Hrun & Hl & _).
  exists t'. split; [done|]. rewrite Hl.
  change (parsedLabels exampleLabels)
    with (<["team" := "storage"]> (<["env" := "prod"]> (∅ : gmap string string))).
  cbn [mbind option_bind].
  split; [by rewrite insert_empty|].
  split; [by rewrite lookup_insert_eq|].
  split; [by rewrite lookup_insert_ne, lookup_insert_eq|].
  intros key Ht He. by rewrite !lookup_insert_ne, lookup_empty.
Qed.

(** C6.  On a text whose non-empty lines all hold a colon every
    [parts[1]] is in bounds and [applyLabels] returns; on a text with a
    non-empty line without a colon, such as ["abc"], the access
    [parts[1]] is out of range and [applyLabels] panics. *)
Theorem applyLabels_safety :
  (∀ (label : string) (t : ObjectMeta),
      everyLineHasColon label = true →
      (∀ line, line ∈ strings.Split label newline → line ≠ "" →
               is_Some (strings.SplitN line ":" 2 !! 1%nat))
      ∧ ∃ t', applyLabels label t = Ok t')
  ∧ (∀ (label : string) (t : ObjectMeta),
        everyLineHasColon label = false →
        (∃ line, line ∈ strings.Split label newline ∧ line ≠ ""
                 ∧ strings.SplitN line ":" 2 !! 1%nat = None)
        ∧ applyLabels label t = Panic "index out of range [1] with length 1")
  ∧ everyLineHasColon "abc" = false.
Proof.
  split; [|split; [|reflexivity]].
  - intros label t Hok. split.
    + intros line Hin Hne. unfold everyLineHasColon in Hok.
      rewrite forallb_forall in Hok.
      apply list_elem_of_In in Hin. specialize (Hok _ Hin).
      unfold lineOk in Hok.
      rewrite bool_decide_eq_false_2 in Hok by done. cbn [orb] in Hok.
      rewrite (SplitN_colon _ Hok). by eexists.
    + eexists. unfold applyLabels.
      by rewrite (applyLabelsLoop_ok _ ∅ Hok).
  - intros label t Hbad. split.
    + destruct (forallb_false_elem _ _ Hbad) as (line & Hin & Hline).
      apply orb_false_iff in Hline as [Hne Hc].
      apply bool_decide_eq_false in Hne.
      exists line. by rewrite (SplitN_no_colon _ Hc).
    + unfold applyLabels. by rewrite (applyLabelsLoop_panic _ ∅ Hbad).
Qed.

End LabelTheorems.


Section MutateProperties.

Context {Payload : Type} `{!EqDecision Payload}.
Context `{!@Externals Payload} (c : @ClusterVersionReconciler Payload).

(** C3.  On a webhook configuration whose first webhook carries a
    non-empty certificate bundle, the mutate function of
    [reconcileSubscriptionValidatingWebhook] returns a configuration whose
    first webhook has the desired state in every field but the bundle,
    which is the one found, byte for byte, and so still non-empty; the
    webhooks after the first stay as they are. *)
Theorem subscriptionWebhookMutate_keeps_CABundle
    (whConfig : Resource KValidatingWebhookConfiguration)
    (first : ValidatingWebhook) (others : list ValidatingWebhook)
    (service : ServiceReference) :
  Webhooks whConfig = first :: others →
  CABundle (ClientConfig first) ≠ [] →
  Service (ClientConfig SubscriptionValidatingWebhook) = Some service →
  ∃ whConfig' wh,
    subscriptionWebhookMutate c whConfig = Ok whConfig'
    ∧ Webhooks whConfig' = wh :: others
    ∧ CABundle (ClientConfig wh) = CABundle (ClientConfig first)
    ∧ CABundle (ClientConfig wh) ≠ []
    ∧ wh = desiredWebhook c (GetName whConfig) service
             (CABundle (ClientConfig first))
    ∧ meta whConfig'
      = setAnnotations
          (Some {["service.beta.openshift.io/inject-cabundle" := "true"]})
          (meta whConfig).
Proof.
  intros Hwebhooks Hbundle Hservice.
  unfold subscriptionWebhookMutate, Webhooks in *. cbn [spec meta withMeta].
  rewrite Hwebhooks. cbn [ClientConfig setClientConfig Service].
  rewrite Hservice.
  eexists _, _. split; [reflexivity|].
  cbn [spec withSpec meta withMeta ClientConfig CABundle].
  repeat split; done.
Qed.

(** C9.  The mutate functions of the security context constraints and of
    the console plugin return the freshly computed desired object with
    one field taken from the object they were handed: its resource
    version. *)
Theorem mutate_keeps_ResourceVersion :
  (∀ scc : Resource KSecurityContextConstraints,
      let desired :=
        SetSecurityContextConstraintsDesiredState scc (OperatorNamespace c) in
      ∃ scc',
        sccMutate c scc = Ok scc'
        ∧ ResourceVersion (meta scc') = ResourceVersion (meta scc)
        ∧ scc' = withMeta (setResourceVersion (ResourceVersion (meta scc))
                             (meta desired)) desired
        ∧ spec scc' = spec desired
        ∧ Name (meta scc') = Name (meta desired)
        ∧ Namespace (meta scc') = Namespace (meta desired)
        ∧ Labels (meta scc') = Labels (meta desired)
        ∧ Annotations (meta scc') = Annotations (meta desired)
        ∧ OwnerReferences (meta scc') = OwnerReferences (meta desired))
  ∧ (∀ consolePlugin : Resource KConsolePlugin,
        let desired := GetConsolePlugin (ConsolePort c) (OperatorNamespace c) in
        ∃ consolePlugin',
          consolePluginMutate c consolePlugin = Ok consolePlugin'
          ∧ ResourceVersion (meta consolePlugin')
            = ResourceVersion (meta consolePlugin)
          ∧ consolePlugin'
            = withMeta (setResourceVersion
                          (ResourceVersion (meta consolePlugin))
                          (meta desired)) desired
          ∧ spec consolePlugin' = spec desired
          ∧ Name (meta consolePlugin') = Name (meta desired)
          ∧ Namespace (meta consolePlugin') = Namespace (meta desired)
          ∧ Labels (meta consolePlugin') = Labels (meta desired)
          ∧ Annotations (meta consolePlugin') = Annotations (meta desired)
          ∧ OwnerReferences (meta consolePlugin')
            = OwnerReferences (meta desired)).
Proof.
  split.
  - intros scc desired. eexists. split; [reflexivity|].
    repeat split; reflexivity.
  - intros consolePlugin desired. eexists. split; [reflexivity|].
    repeat split; reflexivity.
Qed.

End MutateProperties.

Section EventProperties.

Context {Payload : Type} `{!EqDecision Payload}.
Context `{!@Externals Payload} (c : @ClusterVersionReconciler Payload).

Lemma enqueueClusterVersionRequest_one {k} (e : @Event Payload k) :
  enqueueClusterVersionRequest e = [versionRequest].
Proof. destruct e; reflexivity. Qed.

(** C8.  A change of a config map, of a custom resource definition, of a
    subscription or of a webhook configuration that passes the predicates
    of its watch is mapped to exactly one request, for the cluster version
    named ["version"], whatever the changed object is; one that does not
    pass is mapped to none; a config map event passes exactly when the
    object is [ocs-client-operator-config] in the operator namespace. *)
Theorem watches_enqueue_version_request :
  (∀ e : Event KConfigMap,
      passes (configMapPredicates c) e = true →
      watchConfigMap c e = [versionRequest])
  ∧ (∀ e : @Event Payload KCustomResourceDefinition,
        watchCustomResourceDefinition e = [versionRequest])
  ∧ (∀ e : Event KSubscription,
        passes (subscriptionPredicates c) e = true →
        watchSubscription c e = [versionRequest])
  ∧ (∀ e : Event KValidatingWebhookConfiguration,
        passes webhookPredicates e = true →
        watchValidatingWebhookConfiguration e = [versionRequest])
  ∧ (∀ e : Event KConfigMap,
        passes (configMapPredicates c) e = true
        ↔ GetNamespace (eventObject e) = OperatorNamespace c
          ∧ GetName (eventObject e) = "ocs-client-operator-config")
  ∧ (∀ e : Event KConfigMap,
        passes (configMapPredicates c) e = false → watchConfigMap c e = []).
Proof.
  unfold watchConfigMap, watchCustomResourceDefinition, watchSubscription,
    watchValidatingWebhookConfiguration, Watches, passes.
  refine (conj _ (conj _ (conj _ (conj _ (conj _ _))))).
  - intros e ->. apply enqueueClusterVersionRequest_one.
  - intros e. apply enqueueClusterVersionRequest_one.
  - intros e ->. apply enqueueClusterVersionRequest_one.
  - intros e ->. apply enqueueClusterVersionRequest_one.
  - intros e. unfold configMapPredicates. cbn [forallb].
    rewrite andb_true_r.
    destruct e; cbn [NewPredicateFuncs eventObject];
      rewrite andb_true_iff, !bool_decide_eq_true; done.
  - by intros e ->.
Qed.

End EventProperties.

Section StoreProperties.

Context {Payload : Type} `{!EqDecision Payload}.

Local Abbreviation Resource := (@Resource Payload).
Local Abbreviation Obj := (@Obj Payload).
Local Abbreviation World := (@World Payload).

Implicit Types (l : list Obj) (w : World).

Lemma cast_same k (r : Resource k) : cast k (existT k r) = Some r.
Proof.
  unfold cast. cbn [projT1 projT2].
  destruct (decide (k = k)) as [e|]; [|done].
  by rewrite (proof_irrel e eq_refl).
Qed.

Lemma cast_other k k0 (r : Resource k) : k ≠ k0 → cast k0 (existT k r) = None.
Proof.
  intros Hne. unfold cast. cbn [projT1 projT2].
  by destruct (decide (k = k0)).
Qed.

Lemma cast_Some k (o : Obj) (r : Resource k) :
  cast k o = Some r → o = existT k r.
Proof.
  destruct o as [ko ro]. destruct (decide (ko = k)) as [->|Hne].
  - rewrite cast_same. by intros [= ->].
  - by rewrite cast_other.
Qed.

Lemma named_true {k} ns name (r : Resource k) :
  named ns name r = true ↔ GetNamespace r = ns ∧ GetName r = name.
Proof. unfold named. by rewrite bool_decide_eq_true. Qed.

Lemma storeGet_named k ns name l (r : Resource k) :
  storeGet k ns name l = Some r → GetNamespace r = ns ∧ GetName r = name.
Proof.
  induction l as [|o l IH]; cbn [storeGet]; [done|].
  destruct (cast k o) as [r0|]; [|done].
  destruct (named ns name r0) eqn:Hn; [|done].
  intros [= ->]. by apply named_true.
Qed.

Lemma storeGet_app_Some k ns name l l' (r : Resource k) :
  storeGet k ns name l = Some r → storeGet k ns name (l ++ l') = Some r.
Proof.
  induction l as [|o l IH]; cbn [storeGet app]; [done|].
  destruct (cast k o) as [r0|]; [|done].
  by destruct (named ns name r0).
Qed.

Lemma storeGet_cons_other k (r : Resource k) k0 ns0 name0 l :
  otherKey r k0 ns0 name0 →
  storeGet k0 ns0 name0 (existT k r :: l) = storeGet k0 ns0 name0 l.
Proof.
  intros Hother. cbn [storeGet].
  destruct (decide (k = k0)) as [->|Hne].
  - rewrite cast_same.
    destruct (named ns0 name0 r) eqn:Hn; [|done].
    apply named_true in Hn. by destruct Hother.
  - by rewrite cast_other.
Qed.

Lemma storeGet_app_other k (r : Resource k) k0 ns0 name0 l :
  otherKey r k0 ns0 name0 →
  storeGet k0 ns0 name0 (l ++ [existT k r]) = storeGet k0 ns0 name0 l.
Proof.
  intros Hother. induction l as [|o l IH].
  - cbn [app]. by rewrite storeGet_cons_other.
  - cbn [storeGet app]. rewrite IH. done.
Qed.

Lemma storeGet_storePut_other k (r : Resource k) k0 ns0 name0 l :
  otherKey r k0 ns0 name0 →
  storeGet k0 ns0 name0 (storePut r l) = storeGet k0 ns0 name0 l.
Proof.
  intros Hother. induction l as [|o l IH]; [done|].
  cbn [storePut].
  destruct (cast k o) as [r0|] eqn:Hcast.
  - apply cast_Some in Hcast as ->.
    destruct (named (GetNamespace r) (GetName r) r0) eqn:Hn.
    + apply named_true in Hn as [Hns Hname].
      change (storeGet k0 ns0 name0 (existT k r :: l)
              = storeGet k0 ns0 name0 (existT k r0 :: l)).
      rewrite !storeGet_cons_other; [done| |done].
      unfold otherKey in *. rewrite Hns, Hname. done.
    + cbn [storeGet]. rewrite IH. done.
  - cbn [storeGet]. rewrite IH. done.
Qed.

Lemma storeList_app_other k (r : Resource k) k0 ns0 l :
  k ≠ k0 → storeList k0 ns0 (l ++ [existT k r]) = storeList k0 ns0 l.
Proof.
  intros Hne. unfold storeList. rewrite omap_app. cbn [omap list_omap].
  rewrite cast_other by done. by rewrite app_nil_r.
Qed.

Lemma storeList_storePut_other k (r : Resource k) k0 ns0 l :
  k ≠ k0 → storeList k0 ns0 (storePut r l) = storeList k0 ns0 l.
Proof.
  intros Hne. unfold storeList. f_equal.
  induction l as [|o l IH]; [done|]. cbn [storePut].
  destruct (cast k o) as [r0|] eqn:Hcast.
  - apply cast_Some in Hcast as ->.
    destruct (named (GetNamespace r) (GetName r) r0).
    + cbn [omap list_omap]. by rewrite !cast_other.
    + cbn [omap list_omap]. by rewrite IH.
  - cbn [omap list_omap]. by rewrite IH.
Qed.

End StoreProperties.

Section FrameProperties.

Context {Payload : Type} `{!EqDecision Payload}.

Local Abbreviation Resource := (@Resource Payload).
Local Abbreviation Obj := (@Obj Payload).
Local Abbreviation World := (@World Payload).
Local Abbreviation M := (@M Payload).
Local Abbreviation respects := (@respects Payload).
Local Abbreviation untouched := (@untouched Payload).
Local Abbreviation keptOnce := (@keptOnce Payload).
Local Abbreviation issuedOnly := (@issuedOnly Payload).

Implicit Types (w : World).

Lemma bind_run {A B} (m : M A) (f : A → M B) w :
  (m ≫= f) w
  = match m w with
    | (Ok a, w') => f a w'
    | (Err e, w') => (Err e, w')
    | (Panic msg, w') => (Panic msg, w')
    end.
Proof. reflexivity. Qed.

Lemma try_run {A} (m : M A) w :
  try m w
  = match m w with
    | (Ok a, w') => (Ok (inr a), w')
    | (Err e, w') => (Ok (inl e), w')
    | (Panic msg, w') => (Panic msg, w')
    end.
Proof. reflexivity. Qed.

(** *** Composition *)

Lemma respects_ret (R : relation World) `{!Reflexive R} {A} (a : A) :
  respects R (mret a : M A).
Proof. intros w. reflexivity. Qed.

Lemma respects_fail (R : relation World) `{!Reflexive R} {A} (e : Error) :
  respects R (fail e : M A).
Proof. intros w. reflexivity. Qed.

Lemma respects_panic (R : relation World) `{!Reflexive R} {A} (msg : string) :
  respects R (panic msg : M A).
Proof. intros w. reflexivity. Qed.

Lemma respects_lift (R : relation World) `{!Reflexive R} {A} (o : Outcome A) :
  respects R (lift o : M A).
Proof. intros w. reflexivity. Qed.

Lemma respects_bind (R : relation World) `{!Transitive R} {A B}
    (m : M A) (f : A → M B) :
  respects R m → (∀ a, respects R (f a)) → respects R (m ≫= f).
Proof.
  intros Hm Hf w. rewrite bind_run. specialize (Hm w).
  destruct (m w) as [[a|e|msg] w']; cbn [snd] in *; [|done..].
  etrans; [exact Hm|]. apply Hf.
Qed.

Lemma respects_try (R : relation World) {A} (m : M A) :
  respects R m → respects R (try m).
Proof.
  intros Hm w. rewrite try_run. specialize (Hm w).
  by destruct (m w) as [[a|e|msg] w'].
Qed.

(** *** The two relations are preorders *)

Global Instance issuedOnly_refl forbidden k ns name :
  Reflexive (issuedOnly forbidden k ns name).
Proof. intros w. exists []. split; [done|constructor]. Qed.

Global Instance issuedOnly_trans forbidden k ns name :
  Transitive (issuedOnly forbidden k ns name).
Proof.
  intros w1 w2 w3 (new1 & Hc1 & Hf1) (new2 & Hc2 & Hf2).
  exists (new2 ++ new1). split.
  - rewrite Hc2, Hc1. by rewrite app_assoc.
  - by apply Forall_app.
Qed.

Global Instance untouched_refl k ns name :
  Reflexive (untouched k ns name).
Proof. intros w. split; reflexivity. Qed.

Global Instance untouched_trans k ns name :
  Transitive (untouched k ns name).
Proof.
  intros w1 w2 w3 [Hs1 Hc1] [Hs2 Hc2]. split.
  - by rewrite Hs2.
  - by etrans.
Qed.

Global Instance keptOnce_refl k ns name :
  Reflexive (keptOnce k ns name).
Proof. intros w. split; [done|reflexivity]. Qed.

Global Instance keptOnce_trans k ns name :
  Transitive (keptOnce k ns name).
Proof.
  intros w1 w2 w3 [Hs1 Hc1] [Hs2 Hc2]. split.
  - intros r Hr. by apply Hs2, Hs1.
  - by etrans.
Qed.


(** *** What one client call does to the world *)

Ltac run_client :=
  cbv [Get List Create Update mbind M_bind record nextFault getObjects
       fail mret M_ret stamp commit];
  cbn [objects revision faults calls fst snd].

Lemma Get_effect k ns name w :
  objects (snd (Get k ns name w)) = objects w
  ∧ calls (snd (Get k ns name w)) = theCall VGet k ns name :: calls w.
Proof.
  run_client. destruct (faults w) as [|[e|] fs]; cbn [objects calls snd];
    try done; by destruct (storeGet k ns name (objects w)).
Qed.

Lemma Get_result k ns name w (r : Resource k) w' :
  Get k ns name w = (Ok r, w') →
  storeGet k ns name (objects w) = Some r.
Proof.
  run_client. destruct (faults w) as [|[e|] fs]; cbn [objects calls snd];
    try done; destruct (storeGet k ns name (objects w)); by intros [= <- <-].
Qed.

Lemma Get_no_panic k ns name w msg w' : Get k ns name w ≠ (Panic msg, w').
Proof.
  run_client. destruct (faults w) as [|[e|] fs]; cbn [objects calls snd];
    try done; by destruct (storeGet k ns name (objects w)).
Qed.

Lemma List_effect k ns w :
  objects (snd (List k ns w)) = objects w
  ∧ calls (snd (List k ns w)) = theCall VList k ns "" :: calls w.
Proof.
  run_client. by destruct (faults w) as [|[e|] fs].
Qed.

Lemma Create_effect {k} (obj : Resource k) w :
  calls (snd (Create obj w))
  = theCall VCreate k (GetNamespace obj) (GetName obj) :: calls w
  ∧ (objects (snd (Create obj w)) = objects w
     ∨ ∃ stored : Resource k,
         GetNamespace stored = GetNamespace obj
         ∧ GetName stored = GetName obj
         ∧ storeGet k (GetNamespace obj) (GetName obj) (objects w) = None
         ∧ objects (snd (Create obj w)) = objects w ++ [existT k stored]).
Proof.
  run_client. destruct (faults w) as [|[e|] fs]; cbn [objects calls snd];
    try (split; [done|by left]);
    (destruct (storeGet k (GetNamespace obj) (GetName obj) (objects w)) eqn:Hget;
     cbn beta iota; cbn [objects calls snd]; (split; [done|]); [by left|];
     right; eexists; by refine (conj _ (conj _ (conj _ eq_refl)))).
Qed.

Lemma Update_effect {k} (obj : Resource k) w :
  calls (snd (Update obj w))
  = theCall VUpdate k (GetNamespace obj) (GetName obj) :: calls w
  ∧ (objects (snd (Update obj w)) = objects w
     ∨ ∃ stored : Resource k,
         GetNamespace stored = GetNamespace obj
         ∧ GetName stored = GetName obj
         ∧ objects (snd (Update obj w)) = storePut stored (objects w)).
Proof.
  run_client. destruct (faults w) as [|[e|] fs]; cbn [objects calls snd];
    try (split; [done|by left]);
    (destruct (storeGet k (GetNamespace obj) (GetName obj) (objects w)) eqn:Hget;
     cbn beta iota; cbn [objects calls snd]; [|split; [done|by left]];
     repeat case_decide; try destruct (allowsUnconditionalUpdate k);
     cbn beta iota; cbn [objects calls snd]; (split; [done|]);
     first [by left | right; eexists; by refine (conj _ (conj _ eq_refl))]).
Qed.

Lemma List_result k ns w (items : list (Resource k)) w' :
  List k ns w = (Ok items, w') → items = storeList k ns (objects w).
Proof.
  run_client. destruct (faults w) as [|[e|] fs]; by intros [= <- <-].
Qed.

Lemma List_no_panic k ns w msg w' : List k ns w ≠ (Panic msg, w').
Proof. run_client. by destruct (faults w) as [|[e|] fs]. Qed.

(** *** Client calls and the two relations *)

Lemma issuedOnly_one forbidden k0 ns0 name0 w w' (call : Call) :
  calls w' = call :: calls w →
  (callsFor k0 ns0 name0 call → forbidden (verb call) = false) →
  issuedOnly forbidden k0 ns0 name0 w w'.
Proof.
  intros Hc Hcall. exists [call]. split; [done|].
  by apply Forall_singleton.
Qed.


Lemma Get_untouched k0 ns0 name0 k ns name :
  respects (untouched k0 ns0 name0) (Get k ns name).
Proof.
  intros w. destruct (Get_effect k ns name w) as [Ho Hc]. split.
  - by rewrite Ho.
  - by eapply issuedOnly_one.
Qed.

Lemma List_untouched k0 ns0 name0 k ns :
  respects (untouched k0 ns0 name0) (List k ns).
Proof.
  intros w. destruct (List_effect k ns w) as [Ho Hc]. split.
  - by rewrite Ho.
  - by eapply issuedOnly_one.
Qed.

Lemma otherKey_call {k} (obj : Resource k) k0 ns0 name0 v :
  otherKey obj k0 ns0 name0 →
  ¬ callsFor k0 ns0 name0 (theCall v k (GetNamespace obj) (GetName obj)).
Proof. intros Hother Hcall. by apply Hother. Qed.

Lemma Create_untouched k0 ns0 name0 {k} (obj : Resource k) :
  otherKey obj k0 ns0 name0 →
  respects (untouched k0 ns0 name0) (Create obj).
Proof.
  intros Hother w. destruct (Create_effect obj w) as [Hc Ho]. split.
  - destruct Ho as [->|(stored & Hns & Hname & _ & ->)]; [done|].
    apply storeGet_app_other. unfold otherKey. by rewrite Hns, Hname.
  - eapply issuedOnly_one; [exact Hc|].
    intros Hcall. by destruct (otherKey_call obj _ _ _ VCreate Hother).
Qed.

Lemma Update_untouched k0 ns0 name0 {k} (obj : Resource k) :
  otherKey obj k0 ns0 name0 →
  respects (untouched k0 ns0 name0) (Update obj).
Proof.
  intros Hother w. destruct (Update_effect obj w) as [Hc Ho]. split.
  - destruct Ho as [->|(stored & Hns & Hname & ->)]; [done|].
    apply storeGet_storePut_other. unfold otherKey. by rewrite Hns, Hname.
  - eapply issuedOnly_one; [exact Hc|].
    intros Hcall. by destruct (otherKey_call obj _ _ _ VUpdate Hother).
Qed.


Lemma mutate_run {k} (f : Resource k → Outcome (Resource k)) ns name
    (obj : Resource k) w :
  mutate f ns name obj w
  = match f obj with
    | Ok obj' =>
        if bool_decide (GetNamespace obj' = ns ∧ GetName obj' = name)
        then (Ok obj', w)
        else (Err (ErrOther "MutateFn cannot mutate object name and/or object namespace"), w)
    | Err e => (Err e, w)
    | Panic msg => (Panic msg, w)
    end.
Proof.
  unfold mutate. rewrite bind_run. unfold lift.
  destruct (f obj) as [obj'|e|msg]; [|done..].
  by case_bool_decide.
Qed.

Lemma respects_mutate_bind (R : relation World) `{!Reflexive R} {k B}
    (f : Resource k → Outcome (Resource k)) ns name (obj : Resource k)
    (g : Resource k → M B) :
  (∀ obj', GetNamespace obj' = ns → GetName obj' = name → respects R (g obj')) →
  respects R (mutate f ns name obj ≫= g).
Proof.
  intros Hg w. rewrite bind_run, mutate_run.
  destruct (f obj) as [obj'|e|msg]; [|done..].
  case_bool_decide as Hkey; [|done].
  destruct Hkey. by apply Hg.
Qed.

Lemma CreateOrUpdate_untouched k0 ns0 name0 {k} (obj : Resource k)
    (f : Resource k → Outcome (Resource k)) :
  otherKey obj k0 ns0 name0 →
  respects (untouched k0 ns0 name0) (CreateOrUpdate obj f).
Proof.
  intros Hother. unfold CreateOrUpdate.
  apply (respects_bind _); [apply respects_try, Get_untouched|].
  intros [err|existing].
  - destruct (IsNotFound err); [|apply (respects_fail _)].
    apply (respects_mutate_bind _). intros obj' Hns Hname.
    apply (respects_bind _); [|intros; apply (respects_ret _)].
    apply Create_untouched. unfold otherKey. by rewrite Hns, Hname.
  - apply (respects_mutate_bind _). intros obj' Hns Hname.
    destruct (SemanticDeepEqual existing obj'); [apply (respects_ret _)|].
    apply (respects_bind _); [|intros; apply (respects_ret _)].
    apply Update_untouched. unfold otherKey. by rewrite Hns, Hname.
Qed.

(** What create-or-update can do to the store: nothing, one object of
    its kind appended, or one object of its kind replaced. *)
Lemma CreateOrUpdate_objects {k} (obj : Resource k)
    (f : Resource k → Outcome (Resource k)) w :
  let l' := objects (snd (CreateOrUpdate obj f w)) in
  l' = objects w
  ∨ ∃ stored : Resource k,
      l' = objects w ++ [existT k stored] ∨ l' = storePut stored (objects w).
Proof.
  unfold CreateOrUpdate. rewrite bind_run, try_run.
  destruct (Get_effect k (GetNamespace obj) (GetName obj) w) as [Ho _].
  destruct (Get k (GetNamespace obj) (GetName obj) w) as [[existing|err|msg] w1];
    cbn [snd] in *; cbv beta iota; [| |by left].
  - rewrite bind_run, mutate_run.
    destruct (f existing) as [obj'|e|msg]; [|by left..].
    case_bool_decide; [|by left].
    destruct (SemanticDeepEqual existing obj'); [by left|].
    rewrite bind_run. destruct (Update_effect obj' w1) as [_ Hu].
    rewrite Ho in Hu.
    destruct (Update obj' w1) as [[?|?|?] w2]; cbn [snd] in Hu;
      cbv beta iota; unfold mret, M_ret; cbn [snd];
      (destruct Hu as [->|(stored & _ & _ & ->)]; [by left|]);
      right; exists stored; by right.
  - destruct (IsNotFound err); [|by left].
    rewrite bind_run, mutate_run.
    destruct (f obj) as [obj'|e|msg]; [|by left..].
    case_bool_decide; [|by left].
    rewrite bind_run. destruct (Create_effect obj' w1) as [_ Hc].
    rewrite Ho in Hc.
    destruct (Create obj' w1) as [[?|?|?] w2]; cbn [snd] in Hc;
      cbv beta iota; unfold mret, M_ret; cbn [snd];
      (destruct Hc as [->|(stored & _ & _ & _ & ->)]; [by left|]);
      right; exists stored; by left.
Qed.

Lemma CreateOrUpdate_storeList {k} (obj : Resource k)
    (f : Resource k → Outcome (Resource k)) k0 ns0 w :
  k ≠ k0 →
  storeList k0 ns0 (objects (snd (CreateOrUpdate obj f w)))
  = storeList k0 ns0 (objects w).
Proof.
  intros Hne.
  destruct (CreateOrUpdate_objects obj f w) as [->|(stored & [->| ->])].
  - done.
  - by apply storeList_app_other.
  - by apply storeList_storePut_other.
Qed.

End FrameProperties.

Section StepProperties.

Context {Payload : Type} `{!EqDecision Payload} (zero : Payload).
Context `{!@Externals Payload} (c : @ClusterVersionReconciler Payload).

Local Abbreviation Resource := (@Resource Payload).
Local Abbreviation World := (@World Payload).
Local Abbreviation M := (@M Payload).
Local Abbreviation respects := (@respects Payload).
Local Abbreviation untouched := (@untouched Payload).
Local Abbreviation keptOnce := (@keptOnce Payload).

Implicit Types (w : World).

Ltac frame_simple :=
  first [ apply (respects_ret _) | apply (respects_fail _)
        | apply (respects_panic _) | apply (respects_lift _) ].

Lemma otherKey_kind {k} (obj : Resource k) k0 ns0 name0 :
  k ≠ k0 → otherKey obj k0 ns0 name0.
Proof. intros Hne [Hk _]. done. Qed.

Lemma createOrUpdate_untouched k0 ns0 name0 {k} (obj : Resource k)
    (f : Resource k → Outcome (Resource k)) :
  otherKey obj k0 ns0 name0 →
  respects (untouched k0 ns0 name0) (createOrUpdate obj f).
Proof.
  intros Hother. unfold createOrUpdate.
  apply (respects_bind _); [by apply CreateOrUpdate_untouched|].
  intros; frame_simple.
Qed.

Lemma webhook_untouched k0 ns0 name0 :
  k0 ≠ KValidatingWebhookConfiguration →
  respects (untouched k0 ns0 name0) (reconcileSubscriptionValidatingWebhook c).
Proof.
  intros Hk. unfold reconcileSubscriptionValidatingWebhook.
  apply createOrUpdate_untouched, otherKey_kind. done.
Qed.

Lemma labelSubscription_untouched k0 ns0 name0 :
  k0 ≠ KSubscription →
  respects (untouched k0 ns0 name0) (labelClientOperatorSubscription c).
Proof.
  intros Hk. unfold labelClientOperatorSubscription.
  apply (respects_bind _); [apply respects_try, List_untouched|].
  intros [err|items]; [frame_simple|].
  destruct (Find items _) as [sub|]; [|frame_simple].
  destruct (AddLabel sub _ _) as [added sub'].
  apply (respects_bind _); [|intros; frame_simple].
  destruct added; [|frame_simple].
  apply (respects_bind _); [|intros; frame_simple].
  apply Update_untouched, otherKey_kind. done.
Qed.

Lemma ensureConsolePlugin_untouched k0 ns0 name0 :
  k0 ≠ KService → k0 ≠ KConsolePlugin →
  ¬ (k0 = KConfigMap ∧ ns0 = OperatorNamespace c ∧ name0 = NginxConfigMapName) →
  respects (untouched k0 ns0 name0) (ensureConsolePlugin c).
Proof.
  intros Hsvc Hplugin Hnginx. unfold ensureConsolePlugin.
  apply (respects_bind _); [apply Get_untouched|]. intros consoleDeployment.
  apply (respects_bind _).
  { apply createOrUpdate_untouched. intros (<- & Hns & Hname).
    apply Hnginx. by rewrite <-Hns, <-Hname. }
  intros _. apply (respects_bind _).
  { apply createOrUpdate_untouched, otherKey_kind. done. }
  intros _. apply (respects_bind _).
  { apply createOrUpdate_untouched, otherKey_kind. done. }
  intros; frame_simple.
Qed.

Lemma getDeployCSIConfig_untouched k0 ns0 name0 :
  respects (untouched k0 ns0 name0) (getDeployCSIConfig c).
Proof.
  unfold getDeployCSIConfig, get.
  apply (respects_bind _); [apply respects_try, Get_untouched|].
  intros [err|operatorConfig]; [frame_simple|].
  destruct (_ !! deployCSIKey) as [value|].
  - destruct (strconv.ParseBool value); frame_simple.
  - apply (respects_bind _); [apply respects_try, Get_untouched|].
    intros [err|crd]; [|frame_simple].
    destruct (negb (IsNotFound err)); frame_simple.
Qed.

Lemma csiManaged_kinds k0 ns0 name0 :
  csiManaged c k0 ns0 name0 →
  k0 ≠ KValidatingWebhookConfiguration ∧ k0 ≠ KSubscription
  ∧ k0 ≠ KService ∧ k0 ≠ KConsolePlugin.
Proof.
  intros [Hk|(-> & _)]; [|done].
  repeat (apply elem_of_cons in Hk as [->|Hk]; [done|]).
  by apply elem_of_nil in Hk.
Qed.

Lemma flagOfPass_untouched k0 ns0 name0 :
  NginxConfigMapName ≠ MonConfigMapName →
  NginxConfigMapName ≠ EncryptionConfigMapName →
  csiManaged c k0 ns0 name0 →
  respects (untouched k0 ns0 name0) (flagOfPass c).
Proof.
  intros Hmon Henc Hcsi.
  destruct (csiManaged_kinds _ _ _ Hcsi) as (Hwh & Hsub & Hsvc & Hplugin).
  unfold flagOfPass.
  apply (respects_bind _); [by apply webhook_untouched|]. intros _.
  apply (respects_bind _); [by apply labelSubscription_untouched|]. intros _.
  apply (respects_bind _); [|intros _; apply getDeployCSIConfig_untouched].
  apply ensureConsolePlugin_untouched; [done..|].
  intros (-> & -> & ->). destruct Hcsi as [Hk|(_ & _ & [?|?])]; [|done..].
  repeat (apply elem_of_cons in Hk as [?|Hk]; [done|]).
  by apply elem_of_nil in Hk.
Qed.

(** C7.  In a pass whose flag resolution succeeds with [false],
    [Reconcile] returns without an error in the world the flag resolution
    left, and no resource the CSI branch manages was created or updated:
    the store answers for each of them as before the pass. *)
Theorem disabled_flag_is_no_op (req : Request) w w' :
  NginxConfigMapName ≠ MonConfigMapName →
  NginxConfigMapName ≠ EncryptionConfigMapName →
  flagOfPass c w = (Ok (false, None), w') →
  Reconcile zero c req w = (Ok tt, w')
  ∧ ∀ k ns name, csiManaged c k ns name → untouched k ns name w w'.
Proof.
  intros Hmon Henc Hflag. split.
  - unfold Reconcile. unfold flagOfPass in Hflag.
    rewrite bind_run in Hflag. rewrite bind_run.
    destruct (reconcileSubscriptionValidatingWebhook c w) as [[[]|?|?] w1];
      [|done..].
    cbv beta iota in Hflag |- *. rewrite bind_run in Hflag. rewrite bind_run.
    destruct (labelClientOperatorSubscription c w1) as [[[]|?|?] w2];
      [|done..].
    cbv beta iota in Hflag |- *. rewrite bind_run in Hflag. rewrite bind_run.
    destruct (ensureConsolePlugin c w2) as [[[]|?|?] w3]; [|done..].
    cbv beta iota in Hflag |- *. rewrite bind_run, Hflag. reflexivity.
  - intros k ns name Hcsi.
    pose proof (flagOfPass_untouched k ns name Hmon Henc Hcsi w) as Hu.
    by rewrite Hflag in Hu.
Qed.

(** *** The whole pass and a config map that is already there *)




Lemma getOperatorConfig_untouched k0 ns0 name0 :
  respects (untouched k0 ns0 name0) (getOperatorConfig c).
Proof.
  unfold getOperatorConfig.
  apply (respects_bind _); [apply respects_try, Get_untouched|].
  intros [err|cm]; [|frame_simple].
  destruct (negb (IsNotFound err)); frame_simple.
Qed.



Lemma SetControllerReference_key {ko k} (owner : Resource ko)
    (obj obj' : Resource k) :
  SetControllerReference owner obj = Ok obj' →
  GetNamespace obj' = GetNamespace obj ∧ GetName obj' = GetName obj.
Proof.
  unfold SetControllerReference.
  destruct (validateOwner owner obj); [|done..].
  destruct (GetControllerOf obj) as [existing|].
  - destruct (referSameObject existing _); [|done]. by intros [= <-].
  - by intros [= <-].
Qed.

Lemma SetControllerReference_error {ko k} (owner : Resource ko)
    (obj : Resource k) (e : Error) :
  SetControllerReference owner obj = Err e → ∃ msg, e = ErrOther msg.
Proof.
  unfold SetControllerReference, validateOwner.
  repeat case_decide; try (intros [= <-]; by eexists).
  all: destruct (GetControllerOf obj) as [existing|]; [|done].
  all: destruct (referSameObject existing _); [done|].
  all: intros [= <-]; by eexists.
Qed.

Lemma createConfigMapOnce_swallows (name : string) w :
  fst (createConfigMapOnce c name w) ≠ Err ErrAlreadyExists.
Proof.
  unfold createConfigMapOnce, create. rewrite bind_run. unfold lift.
  destruct (own c _) as [configMap|e|msg] eqn:Hown; [|cbn [fst]..].
  - rewrite bind_run, try_run, bind_run.
    destruct (Create configMap w) as [[stored|e|msg] w1]; cbn [fst]; [done| |done].
    destruct e; done.
  - apply SetControllerReference_error in Hown as [msg' ->]. done.
  - done.
Qed.


End StepProperties.

Section FlagProperties.

Context {Payload : Type} `{!EqDecision Payload}.
Context (c : @ClusterVersionReconciler Payload).

Local Abbreviation Resource := (@Resource Payload).
Local Abbreviation World := (@World Payload).
Local Abbreviation M := (@M Payload).

Implicit Types (w : World).

Lemma get_newObject k ns name s :
  get (newObject k ns name s) = (Get k ns name : M (Resource k)).
Proof. reflexivity. Qed.

(** What the flag resolution does once the config map has been read. *)
Lemma getDeployCSIConfig_read w w1 (operatorConfig : Resource KConfigMap) :
  Get KConfigMap (OperatorNamespace c) operatorConfigMapName w
  = (Ok operatorConfig, w1) →
  getDeployCSIConfig c w
  = match default ∅ (Data operatorConfig) !! deployCSIKey with
    | Some value =>
        match strconv.ParseBool value with
        | Ok deployCSI => ((Ok (deployCSI, None)), w1)
        | Err err =>
            (Ok (false,
                 Some (Errorf "failed to parse value for DEPLOY_CSI in operator configmap as a boolean" err)),
             w1)
        | Panic msg => (Panic msg, w1)
        end
    | None =>
        match Get KCustomResourceDefinition ""
                "storageclusters.ocs.openshift.io" w1 with
        | (Ok _, w2) => (Ok (false, None), w2)
        | (Err err, w2) =>
            if IsNotFound err then (Ok (true, None), w2)
            else (Ok (false,
                      Some (Errorf "failed to verify existence of storagecluster crd" err)),
                  w2)
        | (Panic msg, w2) => (Panic msg, w2)
        end
    end.
Proof.
  intros Hget. unfold getDeployCSIConfig.
  rewrite bind_run, try_run, get_newObject, Hget. cbv beta iota.
  replace (match Data operatorConfig with Some data => data | None => ∅ end)
    with (default ∅ (Data operatorConfig)) by by destruct (Data operatorConfig).
  destruct (default ∅ (Data operatorConfig) !! deployCSIKey) as [value|].
  - by destruct (strconv.ParseBool value).
  - rewrite bind_run, try_run, get_newObject.
    destruct (Get KCustomResourceDefinition _ _ w1) as [[crd|err|msg] w2];
      [done| |done].
    by destruct (IsNotFound err).
Qed.

(** C1.  Once the operator config map has been read: a [DEPLOY_CSI] key
    that parses as a boolean gives that boolean, one that does not gives
    [false] and an error; without the key the flag is [true] when the
    probe for the storage cluster definition answers NotFound, [false]
    when the definition is there, and [false] with an error when the
    probe fails otherwise. *)
Theorem getDeployCSIConfig_resolves w w1 (operatorConfig : Resource KConfigMap) :
  Get KConfigMap (OperatorNamespace c) "ocs-client-operator-config" w
  = (Ok operatorConfig, w1) →
  let data := default ∅ (Data operatorConfig) in
  let probe :=
    Get KCustomResourceDefinition "" "storageclusters.ocs.openshift.io" in
  (∀ value deployCSI,
      data !! "DEPLOY_CSI" = Some value →
      strconv.ParseBool value = Ok deployCSI →
      getDeployCSIConfig c w = (Ok (deployCSI, None), w1))
  ∧ (∀ value err,
        data !! "DEPLOY_CSI" = Some value →
        strconv.ParseBool value = Err err →
        ∃ err', getDeployCSIConfig c w = (Ok (false, Some err'), w1))
  ∧ (∀ w2,
        data !! "DEPLOY_CSI" = None →
        probe w1 = (Err ErrNotFound, w2) →
        getDeployCSIConfig c w = (Ok (true, None), w2))
  ∧ (∀ crd w2,
        data !! "DEPLOY_CSI" = None →
        probe w1 = (Ok crd, w2) →
        getDeployCSIConfig c w = (Ok (false, None), w2))
  ∧ (∀ err w2,
        data !! "DEPLOY_CSI" = None →
        probe w1 = (Err err, w2) →
        IsNotFound err = false →
        ∃ err', getDeployCSIConfig c w = (Ok (false, Some err'), w2)).
Proof.
  intros Hget data probe. rewrite (getDeployCSIConfig_read _ _ _ Hget).
  fold data. unfold deployCSIKey.
  refine (conj _ (conj _ (conj _ (conj _ _)))).
  - by intros value deployCSI -> ->.
  - intros value err -> ->. by eexists.
  - intros w2 -> Hprobe. fold probe. by rewrite Hprobe.
  - intros crd w2 -> Hprobe. fold probe. by rewrite Hprobe.
  - intros err w2 -> Hprobe Hnf. fold probe. rewrite Hprobe, Hnf.
    by eexists.
Qed.

(** C2, as the code has it.  The read of the config map for the metrics
    labels takes NotFound for an empty config map (whose labels text is
    empty); the read of the flag resolution reports every failure,
    NotFound included, as an error with the flag [false], and does not
    go on to probe for the storage cluster definition. *)
Theorem config_map_absent w w1 :
  (Get KConfigMap (OperatorNamespace c) "ocs-client-operator-config" w
   = (Err ErrNotFound, w1) →
   getOperatorConfig c w = (Ok (newObject KConfigMap "" "" None), w1)
   ∧ mapIndex (Data (newObject (Payload := Payload) KConfigMap "" "" None))
       "OCS_METRICS_LABELS" = "")
  ∧ (∀ err,
        Get KConfigMap (OperatorNamespace c) "ocs-client-operator-config" w
        = (Err err, w1) →
        getDeployCSIConfig c w
        = (Ok (false, Some (Errorf "failed to get operator configmap" err)), w1)).
Proof.
  split.
  - intros Hget. split; [|reflexivity].
    unfold getOperatorConfig. rewrite bind_run, try_run.
    unfold operatorConfigMapName. by rewrite Hget.
  - intros err Hget. unfold getDeployCSIConfig.
    rewrite bind_run, try_run, get_newObject.
    unfold operatorConfigMapName. by rewrite Hget.
Qed.

End FlagProperties.

Section LabelSubscriptionProperties.

Context {Payload : Type} `{!EqDecision Payload} (zero : Payload).
Context `{!@Externals Payload} (c : @ClusterVersionReconciler Payload).

Local Abbreviation Resource := (@Resource Payload).
Local Abbreviation World := (@World Payload).
Local Abbreviation M := (@M Payload).

Implicit Types (w : World).

Lemma Find_None_client w :
  clientSubscriptions c w = [] →
  Find (storeList KSubscription (OperatorNamespace c) (objects w))
    (fun sub => bool_decide (Package (spec (k := KSubscription) sub)
                             = "ocs-client-operator")) = None.
Proof.
  intros Hnone. unfold Find.
  rewrite (proj2 (list_find_None _ _)); [done|].
  apply Forall_forall. intros sub Hin Hsub.
  apply bool_decide_eq_true in Hsub.
  by apply (filter_nil_not_elem_of _ _ sub Hnone).
Qed.

Lemma labelClientOperatorSubscription_missing w :
  clientSubscriptions c w = [] →
  ∃ e w',
    labelClientOperatorSubscription c w = (Err e, w')
    ∧ objects w' = objects w
    ∧ calls w' = listCall c :: calls w.
Proof.
  intros Hnone. unfold labelClientOperatorSubscription.
  rewrite bind_run, try_run.
  destruct (List_effect KSubscription (OperatorNamespace c) w) as [Ho Hc].
  destruct (List KSubscription (OperatorNamespace c) w)
    as [[items|e|msg] w1] eqn:Hlist; cbn [snd] in *.
  - apply List_result in Hlist as ->.
    cbv beta iota. rewrite (Find_None_client _ Hnone).
    by eexists _, _.
  - by eexists _, _.
  - by destruct (List_no_panic _ _ _ _ _ Hlist).
Qed.

Lemma webhook_clientSubscriptions w :
  clientSubscriptions c (snd (reconcileSubscriptionValidatingWebhook c w))
  = clientSubscriptions c w.
Proof.
  unfold clientSubscriptions, reconcileSubscriptionValidatingWebhook,
    createOrUpdate.
  rewrite bind_run.
  pose proof (CreateOrUpdate_storeList
                (newObject KValidatingWebhookConfiguration ""
                   SubscriptionWebhookName [])
                (subscriptionWebhookMutate c) KSubscription
                (OperatorNamespace c) w) as Hl.
  destruct (CreateOrUpdate _ _ w) as [[?|?|?] w1]; cbn [snd] in *;
    cbv beta iota; unfold mret, M_ret; cbn [snd]; by rewrite Hl.
Qed.

(** C10.  When the operator namespace holds no subscription for the
    package [ocs-client-operator], [labelClientOperatorSubscription]
    returns an error after its one list call, and a pass whose webhook
    step succeeded ends with that error there: no call of the console or
    CSI steps is issued.  When the list call finds such a subscription, an
    update is issued for it exactly when it does not carry the label
    [managed-by] with the value of the webhook yet. *)
Theorem labelClientOperatorSubscription_labels :
  (∀ w,
      clientSubscriptions c w = [] →
      ∃ e w',
        labelClientOperatorSubscription c w = (Err e, w')
        ∧ objects w' = objects w
        ∧ calls w' = listCall c :: calls w)
  ∧ (∀ req w w1,
        clientSubscriptions c w = [] →
        reconcileSubscriptionValidatingWebhook c w = (Ok tt, w1) →
        ∃ e w',
          labelClientOperatorSubscription c w1 = (Err e, w')
          ∧ Reconcile zero c req w = (Err e, w')
          ∧ objects w' = objects w1
          ∧ calls w' = listCall c :: calls w1)
  ∧ (∀ w w1 items sub,
        List KSubscription (OperatorNamespace c) w = (Ok items, w1) →
        Find items (fun sub => bool_decide (Package (spec (k := KSubscription) sub)
                                            = "ocs-client-operator"))
        = Some sub →
        (labelled sub →
         labelClientOperatorSubscription c w = (Ok tt, w1))
        ∧ (¬ labelled sub →
           calls (snd (labelClientOperatorSubscription c w))
           = theCall VUpdate KSubscription (GetNamespace sub) (GetName sub)
               :: calls w1)).
Proof.
  refine (conj _ (conj _ _)).
  - apply labelClientOperatorSubscription_missing.
  - intros req w w1 Hnone Hwebhook.
    assert (clientSubscriptions c w1 = []) as Hnone1.
    { pose proof (webhook_clientSubscriptions w) as Hsame.
      rewrite Hwebhook in Hsame. cbn [snd] in Hsame. by rewrite Hsame. }
    destruct (labelClientOperatorSubscription_missing w1 Hnone1)
      as (e & w' & Hlabel & Ho & Hc).
    exists e, w'. split; [done|]. split; [|done].
    unfold Reconcile. rewrite bind_run, Hwebhook. cbv beta iota.
    by rewrite bind_run, Hlabel.
  - intros w w1 items sub Hlist Hfind.
    unfold labelClientOperatorSubscription, labelled.
    rewrite bind_run, try_run, Hlist. cbv beta iota. rewrite Hfind.
    unfold AddLabel, subscriptionLabelKey, subscriptionLabelValue.
    split; intros Hlabel.
    + rewrite decide_True by done. reflexivity.
    + rewrite decide_False by done. rewrite !bind_run.
      destruct (Update_effect
                  (withMeta
                     (setLabels
                        (Some (<["managed-by" := "webhook.subscription.ocs.openshift.io"]>
                                 (default ∅ (GetLabels sub))))
                        (meta sub)) sub) w1) as [Hc _].
      cbn [GetNamespace GetName withMeta meta setLabels Name Namespace] in Hc.
      destruct (Update _ w1) as [[?|?|?] w2]; cbn [snd] in *; done.
Qed.

End LabelSubscriptionProperties.

(** * Further properties of the code

    ** The label parser on composed texts *)

Section LabelComposition.

Lemma append_nil (s : string) : "" +:+ s = s.
Proof. reflexivity. Qed.

Lemma append_cons (ch : ascii) (a s : string) :
  String ch a +:+ s = String ch (a +:+ s).
Proof. reflexivity. Qed.

Lemma length_append (a b : string) :
  String.length (a +:+ b) = (String.length a + String.length b)%nat.
Proof.
  induction a as [|ch a IH]; [done|].
  rewrite append_cons. cbn [String.length]. by rewrite IH.
Qed.

Lemma Cut_append (a b : string) (sep : ascii) :
  strings.Cut (a +:+ String sep b) sep
  = match strings.Cut a sep with
    | Some (before, after) => Some (before, after +:+ String sep b)
    | None => Some (a, b)
    end.
Proof.
  induction a as [|ch a IH];
    rewrite ?append_nil, ?append_cons; cbn [strings.Cut].
  - by rewrite Ascii.eqb_refl.
  - destruct (Ascii.eqb ch sep); [done|]. rewrite IH.
    by destruct (strings.Cut a sep) as [[before after]|].
Qed.

Lemma genSplit_append (n : nat) :
  ∀ (a b : string) (sep : ascii) (m : nat),
    (String.length a ≤ n)%nat → (String.length b ≤ m)%nat →
    strings.genSplit (S n + m) (a +:+ String sep b) sep
    = strings.genSplit n a sep ++ strings.genSplit m b sep.
Proof.
  induction n as [n IH] using lt_wf_ind. intros a b sep m Ha Hb.
  cbn [Nat.add strings.genSplit]. rewrite Cut_append.
  destruct (strings.Cut a sep) as [[before after]|] eqn:Hcut.
  - pose proof (Cut_length _ _ _ _ Hcut) as Hlt.
    destruct n as [|n']; [lia|].
    cbn [strings.genSplit]. rewrite Hcut. cbn [app]. f_equal.
    apply (IH n'); lia.
  - rewrite (genSplit_fuel (n + m)) by lia.
    rewrite <-(genSplit_fuel m) by lia.
    destruct n as [|n']; cbn [strings.genSplit]; [done|].
    by rewrite Hcut.
Qed.

(** [Split] of two texts joined by the separator is [Split] of the one
    followed by [Split] of the other. *)
Lemma Split_append (a b : string) (sep : ascii) :
  strings.Split (a +:+ String sep b) sep
  = strings.Split a sep ++ strings.Split b sep.
Proof.
  unfold strings.Split. rewrite length_append. cbn [String.length].
  replace (String.length a + S (String.length b))%nat
    with (S (String.length a) + String.length b)%nat by lia.
  by apply genSplit_append.
Qed.

Lemma Cut_absent (s : string) (sep : ascii) :
  strings.contains sep s = false → strings.Cut s sep = None.
Proof.
  induction s as [|ch rest IH]; cbn [strings.contains strings.Cut]; [done|].
  rewrite (Ascii.eqb_sym sep ch).
  destruct (Ascii.eqb ch sep); [done|]. intros Hc. by rewrite (IH Hc).
Qed.

Lemma Split_one (s : string) (sep : ascii) :
  strings.contains sep s = false → strings.Split s sep = [s].
Proof.
  intros Hc. unfold strings.Split.
  destruct (String.length s); cbn [strings.genSplit]; [done|].
  by rewrite (Cut_absent _ _ Hc).
Qed.

Lemma contains_nonempty (ch : ascii) (s : string) :
  strings.contains ch s = true → s ≠ "".
Proof. by destruct s. Qed.

Lemma beforeColon_append (key value : string) :
  strings.contains ":" key = false →
  beforeColon (key +:+ String ":" value) = key
  ∧ afterColon (key +:+ String ":" value) = value.
Proof.
  induction key as [|ch key IH];
    rewrite ?append_nil, ?append_cons;
    cbn [beforeColon afterColon strings.contains].
  { by rewrite Ascii.eqb_refl. }
  rewrite (Ascii.eqb_sym ":" ch).
  destruct (Ascii.eqb ch ":"); [done|].
  intros Hc. destruct (IH Hc) as [-> ->]. done.
Qed.

Lemma contains_append (ch : ascii) (a b : string) :
  strings.contains ch (a +:+ b)
  = strings.contains ch a || strings.contains ch b.
Proof.
  induction a as [|d a IH];
    rewrite ?append_nil, ?append_cons; cbn [strings.contains]; [done|].
  by destruct (Ascii.eqb ch d).
Qed.

Lemma applyLabels_wellFormed (label : string) (t : ObjectMeta) :
  everyLineHasColon label = true →
  applyLabels label t = Ok (setLabels (Some (parsedLabels label)) t).
Proof.
  intros Hok. unfold applyLabels. by rewrite (applyLabelsLoop_ok _ ∅ Hok).
Qed.

(** X1.  [applyLabels] does not merge: whatever labels the object had,
    the labels after it are the ones of the text alone, and nothing else
    of the metadata changes. *)
Theorem applyLabels_replaces (label : string) (t t' : ObjectMeta) :
  applyLabels label t = Ok t' →
  t' = setLabels (Labels t') t
  ∧ (∃ parsed, Labels t' = Some parsed)
  ∧ ∀ other : ObjectMeta,
      applyLabels label other = Ok (setLabels (Labels t') other).
Proof.
  unfold applyLabels.
  destruct (applyLabelsLoop _ _) as [promLabel|e|msg]; [|done..].
  intros [= <-]. cbn [Labels setLabels]. by eauto.
Qed.

(** X2.  One line [key:value] whose key holds no colon: [applyLabels]
    returns, and the labels of the metadata it returns are exactly the
    trimmed key with the trimmed value (the value may hold colons of its
    own); the other fields are as they were. *)
Theorem applyLabels_one_line (key value : string) (t : ObjectMeta) :
  strings.contains ":" key = false →
  strings.contains newline key = false →
  strings.contains newline value = false →
  ∃ t',
    applyLabels (key +:+ String ":" value) t = Ok t'
    ∧ Labels t' = Some {[strings.TrimSpace key := strings.TrimSpace value]}
    ∧ Labels t' ≫= (fun labels => labels !! strings.TrimSpace key)
      = Some (strings.TrimSpace value)
    ∧ sameButLabels t t'.
Proof.
  intros Hcolon Hkey Hvalue.
  assert (strings.contains newline (key +:+ String ":" value) = false) as Hnl.
  { rewrite contains_append, Hkey. cbn [orb strings.contains].
    by rewrite Hvalue. }
  assert (strings.contains ":" (key +:+ String ":" value) = true) as Hc.
  { rewrite contains_append. cbn [strings.contains].
    rewrite Ascii.eqb_refl. apply orb_true_r. }
  rewrite applyLabels_wellFormed.
  - eexists. split; [reflexivity|]. cbn [Labels setLabels].
    assert (parsedLabels (key +:+ String ":" value)
            = {[strings.TrimSpace key := strings.TrimSpace value]}) as ->.
    { unfold parsedLabels, labelLines. fold newline.
      rewrite (Split_one _ _ Hnl).
      rewrite filter_cons_True by by eapply contains_nonempty.
      cbn [filter foldl]. unfold labelStep.
      destruct (beforeColon_append key value Hcolon) as [-> ->].
      by rewrite insert_empty. }
    split; [done|]. cbn [mbind option_bind].
    split; [by rewrite lookup_singleton_eq|]. by repeat split.
  - unfold everyLineHasColon. fold newline. rewrite (Split_one _ _ Hnl).
    cbn [forallb]. unfold lineOk. rewrite Hc. by rewrite orb_true_r.
Qed.

(** X3.  A line appended to a well-formed text: [applyLabels] returns,
    the labels of the metadata it returns are those of the text with the
    key of the new line set to its value, so a key given on several lines
    ends with the value of the last one, and every other key is as the
    text alone gives it. *)
Theorem applyLabels_later_line_wins (text line : string) (t : ObjectMeta) :
  everyLineHasColon text = true →
  strings.contains newline line = false →
  strings.contains ":" line = true →
  ∃ t' earlier,
    applyLabels text t = Ok earlier
    ∧ applyLabels (text +:+ String newline line) t = Ok t'
    ∧ Labels t' ≫= (fun labels =>
                      labels !! strings.TrimSpace (beforeColon line))
      = Some (strings.TrimSpace (afterColon line))
    ∧ (∀ key, key ≠ strings.TrimSpace (beforeColon line) →
              Labels t' ≫= (fun labels => labels !! key)
              = Labels earlier ≫= (fun labels => labels !! key))
    ∧ sameButLabels t t'.
Proof.
  intros Htext Hnl Hc.
  assert (parsedLabels (text +:+ String newline line)
          = labelStep (parsedLabels text) line) as Hparsed.
  { unfold parsedLabels, labelLines. rewrite Split_append, filter_app.
    rewrite (Split_one _ _ Hnl).
    rewrite (filter_cons_True _ line) by by eapply contains_nonempty.
    cbn [filter]. by rewrite foldl_app. }
  rewrite (applyLabels_wellFormed text) by done.
  rewrite applyLabels_wellFormed.
  - eexists _, _. split; [reflexivity|]. split; [reflexivity|].
    cbn [Labels setLabels mbind option_bind]. rewrite Hparsed.
    unfold labelStep.
    split; [by rewrite lookup_insert_eq|].
    split; [|by repeat split].
    intros key Hkey. by rewrite lookup_insert_ne.
  - unfold everyLineHasColon. rewrite Split_append, forallb_app.
    fold (everyLineHasColon text). rewrite Htext, (Split_one _ _ Hnl).
    cbn [forallb andb]. unfold lineOk. rewrite Hc. by rewrite orb_true_r.
Qed.

End LabelComposition.

(** ** The mutate functions on their edge cases *)

Section MutateEdges.

Context {Payload : Type} `{!EqDecision Payload}.
Context `{!@Externals Payload} (c : @ClusterVersionReconciler Payload).

Local Abbreviation Resource := (@Resource Payload).
Local Abbreviation World := (@World Payload).

(** X4.  The first registration: on a webhook configuration without
    webhooks the mutate function leaves exactly one webhook, the desired
    one with an empty certificate bundle (the bundle of the template is
    not taken over); the annotations of the configuration it returns are
    the one that asks for the bundle to be injected and no other, and the
    other fields of its metadata are as they were. *)
Theorem subscriptionWebhookMutate_first_registration
    (whConfig : Resource KValidatingWebhookConfiguration)
    (service : ServiceReference) :
  Webhooks whConfig = [] →
  Service (ClientConfig SubscriptionValidatingWebhook) = Some service →
  ∃ whConfig',
    subscriptionWebhookMutate c whConfig = Ok whConfig'
    ∧ Webhooks whConfig' = [desiredWebhook c (GetName whConfig) service []]
    ∧ Annotations (meta whConfig')
      = Some {["service.beta.openshift.io/inject-cabundle" := "true"]}
    ∧ (∀ key,
          Annotations (meta whConfig') ≫= (fun annotations => annotations !! key)
          = if decide (key = "service.beta.openshift.io/inject-cabundle")
            then Some "true" else None)
    ∧ sameButAnnotations (meta whConfig) (meta whConfig').
Proof.
  intros Hwebhooks Hservice.
  unfold subscriptionWebhookMutate, Webhooks in *. cbn [spec meta withMeta].
  rewrite Hwebhooks. cbn [ClientConfig setClientConfig Service].
  rewrite Hservice. eexists. split; [reflexivity|].
  cbn [spec meta withSpec withMeta Annotations setAnnotations].
  split; [done|]. split; [done|]. split; [|by repeat split].
  intros key. cbn [mbind option_bind]. case_decide as Hkey.
  - subst key. by rewrite lookup_singleton_eq.
  - by rewrite lookup_singleton_ne.
Qed.

(** X5.  The mutate function of the webhook is idempotent: applied to
    what it returned it returns the same, so a configuration it has
    shaped is left as it is by the next pass. *)
Theorem subscriptionWebhookMutate_idempotent
    (whConfig whConfig' : Resource KValidatingWebhookConfiguration) :
  subscriptionWebhookMutate c whConfig = Ok whConfig' →
  subscriptionWebhookMutate c whConfig' = Ok whConfig'.
Proof.
  unfold subscriptionWebhookMutate, Webhooks. cbn [spec meta withMeta].
  destruct (spec whConfig) as [|first others];
    cbn [ClientConfig setClientConfig Service];
    (destruct (Service (ClientConfig SubscriptionValidatingWebhook))
       as [service|] eqn:Hservice; [|done]);
    intros [= <-]; reflexivity.
Qed.

Lemma SetControllerReference_frame {ko k} (owner : Resource ko)
    (obj obj' : Resource k) :
  SetControllerReference owner obj = Ok obj' →
  spec obj' = spec obj
  ∧ meta obj' = setOwnerReferences (OwnerReferences (meta obj')) (meta obj).
Proof.
  unfold SetControllerReference.
  destruct (validateOwner owner obj); [|done..].
  destruct (GetControllerOf obj) as [existing|].
  - destruct (referSameObject existing _); [|done]. by intros [= <-].
  - by intros [= <-].
Qed.

(** X6.  The mutate function of the nginx config map: on a config map
    without data it panics when the configuration to write is not empty
    (an entry is assigned in a nil map); on one with data it returns a
    config map that reads the configuration under [nginx.conf], keeps
    every other entry, and otherwise only changes the owner
    references. *)
Theorem nginxConfigMapMutate_data (consoleDeployment : Resource KDeployment)
    (nginxConf : string) (nginxConfigMap : Resource KConfigMap) :
  (Data nginxConfigMap = None → nginxConf ≠ "" →
   nginxConfigMapMutate consoleDeployment nginxConf nginxConfigMap
   = Panic "assignment to entry in nil map")
  ∧ (∀ data nginxConfigMap',
        Data nginxConfigMap = Some data →
        nginxConfigMapMutate consoleDeployment nginxConf nginxConfigMap
        = Ok nginxConfigMap' →
        mapIndex (Data nginxConfigMap') "nginx.conf" = nginxConf
        ∧ (∀ key, key ≠ "nginx.conf" →
                  mapIndex (Data nginxConfigMap') key
                  = mapIndex (Some data) key)
        ∧ meta nginxConfigMap'
          = setOwnerReferences (OwnerReferences (meta nginxConfigMap'))
              (meta nginxConfigMap)).
Proof.
  unfold nginxConfigMapMutate. split.
  - intros Hnil Hconf. rewrite Hnil. unfold mapIndex.
    cbn [mbind option_bind default].
    rewrite decide_True by done. reflexivity.
  - intros data cm' Hdata. rewrite Hdata.
    case_decide as Hcur; cbn [mbind Outcome_bind]; intros Hown;
      apply SetControllerReference_frame in Hown as [Hs Hm];
      unfold Data in *; rewrite Hs; cbn [spec withSpec meta] in *.
    + unfold mapIndex. cbn [mbind option_bind].
      rewrite lookup_insert_eq. repeat split; try done.
      intros key Hkey. by rewrite lookup_insert_ne.
    + rewrite Hdata. by repeat split.
Qed.

End MutateEdges.

(** ** The owner reference *)

Section OwnProperties.

Context {Payload : Type} `{!EqDecision Payload}.
Context (c : @ClusterVersionReconciler Payload).

Local Abbreviation Resource := (@Resource Payload).

Lemma list_find_insert_first {A} (P : A → Prop) `{!∀ x, Decision (P x)}
    (l : list A) (j : nat) (x : A) :
  (j < length l)%nat → P x →
  (∀ i y, l !! i = Some y → (i < j)%nat → ¬ P y) →
  list_find P (<[j := x]> l) = Some (j, x).
Proof.
  intros Hj Hx Hbefore. apply list_find_Some. split_and!.
  - by apply list_lookup_insert_eq.
  - done.
  - intros i y Hi Hlt. rewrite list_lookup_insert_ne in Hi by lia.
    by eapply Hbefore.
Qed.

Lemma list_find_append_first {A} (P : A → Prop) `{!∀ x, Decision (P x)}
    (l : list A) (x : A) :
  list_find P l = None → P x →
  list_find P (l ++ [x]) = Some (length l, x).
Proof.
  intros Hnone Hx. rewrite list_find_app_r by done.
  cbn. rewrite decide_True by done. reflexivity.
Qed.

Lemma referSameObject_refl (r : OwnerReference) : referSameObject r r = true.
Proof. unfold referSameObject. by apply bool_decide_eq_true. Qed.

(** After [upsertOwnerRef] of a controller reference into owners whose
    controller, if any, is the same owner, the reference is the first
    controller and the first reference to that owner. *)
Lemma upsertOwnerRef_first {k} (ref : OwnerReference) (obj : Resource k) :
  orController ref = true →
  (∀ existing, GetControllerOf obj = Some existing →
               referSameObject existing ref = true) →
  let owners' := OwnerReferences (meta (upsertOwnerRef ref obj)) in
  ∃ j, list_find (fun r => orController r = true) owners' = Some (j, ref)
       ∧ list_find (fun r => referSameObject r ref = true) owners'
         = Some (j, ref).
Proof.
  intros Hctl Hsame. unfold upsertOwnerRef.
  cbn [meta withMeta OwnerReferences setOwnerReferences].
  set (owners := OwnerReferences (meta obj)) in *.
  assert (∀ i y, list_find (fun r => orController r = true) owners = Some (i, y) →
                 referSameObject y ref = true) as Hfirst.
  { intros i y Hfind. apply Hsame. unfold GetControllerOf. fold owners.
    by rewrite Hfind. }
  destruct (list_find (fun r => referSameObject r ref = true) owners)
    as [[j y]|] eqn:Hfind.
  - apply list_find_Some in Hfind as (Hj & Hy & Hbefore).
    exists j. split.
    + apply list_find_insert_first; [by eapply lookup_lt_Some|done|].
      intros i z Hi Hlt Hz.
      destruct (list_find (fun r => orController r = true) owners)
        as [[i0 z0]|] eqn:Hc.
      * pose proof (Hfirst _ _ eq_refl) as Hz0.
        apply list_find_Some in Hc as (Hi0 & _ & Hleast).
        destruct (decide (i0 < j)%nat) as [Hlt0|Hge].
        { by apply (Hbefore i0 z0). }
        destruct (decide (i = i0)) as [->|Hne].
        { apply (Hbefore i0 z0); [done|lia|done]. }
        apply (Hleast i z); [done|lia|done].
      * apply list_find_None in Hc.
        by apply (Forall_lookup_1 _ _ _ _ Hc Hi).
    + apply list_find_insert_first;
        [by eapply lookup_lt_Some|apply referSameObject_refl|done].
  - exists (length owners). split.
    + apply list_find_append_first; [|done].
      destruct (list_find (fun r => orController r = true) owners)
        as [[i0 z0]|] eqn:Hc; [|done].
      pose proof (Hfirst _ _ eq_refl) as Hz0.
      apply list_find_Some in Hc as (Hi0 & _ & _).
      apply list_find_None in Hfind.
      by destruct (Forall_lookup_1 _ _ _ _ Hfind Hi0).
    + apply list_find_append_first; [done|apply referSameObject_refl].
Qed.

(** X7.  After a successful [own] the controller of the object is the
    operator deployment, the object is otherwise as it was (only the
    owner references changed), and owning it again returns it
    unchanged. *)
Theorem own_sets_controller {k} (obj obj' : Resource k) :
  own c obj = Ok obj' →
  GetControllerOf obj' = Some (operatorReference c)
  ∧ spec obj' = spec obj
  ∧ meta obj' = setOwnerReferences (OwnerReferences (meta obj')) (meta obj)
  ∧ own c obj' = Ok obj'.
Proof.
  unfold own, SetControllerReference. fold (operatorReference c).
  destruct (validateOwner (OperatorDeployment c) obj) eqn:Hvalid; [|done..].
  intros Hrun.
  assert (upsertOwnerRef (operatorReference c) obj = obj'
          ∧ ∀ existing, GetControllerOf obj = Some existing →
                        referSameObject existing (operatorReference c) = true)
    as [Hupsert Hsame].
  { destruct (GetControllerOf obj) as [existing|].
    - destruct (referSameObject existing (operatorReference c)) eqn:Hs; [|done].
      split; [by injection Hrun|]. by intros ? [= <-].
    - split; [by injection Hrun|done]. }
  clear Hrun.
  destruct (upsertOwnerRef_first (operatorReference c) obj eq_refl Hsame)
    as (j & Hctl & Hown).
  rewrite Hupsert in Hctl, Hown.
  assert (validateOwner (OperatorDeployment c) obj' = Ok a) as Hvalid'.
  { rewrite <-Hvalid, <-Hupsert. reflexivity. }
  rewrite Hvalid'. unfold GetControllerOf at 1 2. rewrite Hctl. cbn [fmap option_fmap option_map snd].
  rewrite referSameObject_refl.
  split; [done|]. split; [by rewrite <-Hupsert|].
  split; [by rewrite <-Hupsert|].
  f_equal. unfold upsertOwnerRef. rewrite Hown.
  assert (<[j := (operatorReference c)]> (OwnerReferences (meta obj'))
          = OwnerReferences (meta obj')) as ->.
  { apply list_insert_id. by apply list_find_Some in Hown as (? & _). }
  by destruct obj' as [[] ?].
Qed.

End OwnProperties.

(** ** The Prometheus rule and the console service under create-or-update *)

Section RuleAndService.

Context {Payload : Type} `{!EqDecision Payload}.
Context `{!@Externals Payload} (c : @ClusterVersionReconciler Payload).

Local Abbreviation Resource := (@Resource Payload).
Local Abbreviation World := (@World Payload).
Local Abbreviation M := (@M Payload).

Implicit Types (w : World).

Lemma mapIndex_absent (m : option (gmap string string)) (key : string) :
  default ∅ m !! key = None → mapIndex m key = "".
Proof.
  unfold mapIndex. destruct m as [d|]; cbn; [|done]. by intros ->.
Qed.

(** X8.  Without a labels text (the operator config map is absent, or has
    no data, or no [OCS_METRICS_LABELS] key) the mutate function of the
    Prometheus rule does not keep the labels of the rule: a rule it
    returns has the empty label map, and its spec, name and namespace
    as before. *)
Theorem prometheusRuleMutate_without_text (operatorConfig : Resource KConfigMap)
    (prometheusRule prometheusRule' : Resource KPrometheusRule) :
  default ∅ (Data operatorConfig) !! "OCS_METRICS_LABELS" = None →
  prometheusRuleMutate c operatorConfig prometheusRule = Ok prometheusRule' →
  GetLabels prometheusRule' = Some ∅
  ∧ spec prometheusRule' = spec prometheusRule
  ∧ GetName prometheusRule' = GetName prometheusRule
  ∧ GetNamespace prometheusRule' = GetNamespace prometheusRule.
Proof.
  intros Habsent. unfold prometheusRuleMutate.
  rewrite (mapIndex_absent _ _ Habsent).
  change (applyLabels "" (meta prometheusRule))
    with (Ok (setLabels (Some (∅ : gmap string string)) (meta prometheusRule))).
  cbn [mbind Outcome_bind]. intros Hown.
  apply SetControllerReference_frame in Hown as [Hspec Hmeta].
  unfold GetLabels, GetName, GetNamespace. rewrite Hmeta.
  by split_and!.
Qed.

Lemma CreateOrUpdate_mutate_panics {k} (obj : Resource k)
    (f : Resource k → Outcome (Resource k)) (msg : string) w :
  (∀ o, f o = Panic msg) →
  objects (snd (CreateOrUpdate obj f w)) = objects w
  ∧ calls (snd (CreateOrUpdate obj f w))
    = theCall VGet k (GetNamespace obj) (GetName obj) :: calls w
  ∧ (fst (CreateOrUpdate obj f w) = Panic msg
     ∨ ∃ e, fst (CreateOrUpdate obj f w) = Err e ∧ IsNotFound e = false).
Proof.
  intros Hf. unfold CreateOrUpdate. rewrite bind_run, try_run.
  destruct (Get_effect k (GetNamespace obj) (GetName obj) w) as [Ho Hc].
  destruct (Get k (GetNamespace obj) (GetName obj) w)
    as [[existing|err|msg'] w1] eqn:Hget; cbn [snd] in Ho, Hc; cbv beta iota.
  - rewrite bind_run, mutate_run, Hf. cbv beta iota. cbn [fst snd].
    split_and!; auto.
  - destruct (IsNotFound err) eqn:Hnf.
    + rewrite bind_run, mutate_run, Hf. cbv beta iota. cbn [fst snd].
      split_and!; auto.
    + unfold fail. cbn [fst snd]. split_and!; eauto.
  - by destruct (Get_no_panic _ _ _ _ _ _ Hget).
Qed.

(** X9.  With a labels text that has a non-empty line without a colon,
    create-or-update of the Prometheus rule never writes the rule: after
    its one read it panics in the mutate function (or the read itself
    failed), and the store is as before. *)
Theorem malformed_labels_block_rule (operatorConfig : Resource KConfigMap)
    (prometheusRule : Resource KPrometheusRule) w :
  everyLineHasColon (mapIndex (Data operatorConfig) "OCS_METRICS_LABELS")
  = false →
  let run := createOrUpdate prometheusRule
               (prometheusRuleMutate c operatorConfig) w in
  objects (snd run) = objects w
  ∧ calls (snd run)
    = theCall VGet KPrometheusRule (GetNamespace prometheusRule)
        (GetName prometheusRule) :: calls w
  ∧ (fst run = Panic "index out of range [1] with length 1"
     ∨ ∃ e, fst run = Err e ∧ IsNotFound e = false).
Proof.
  intros Hbad run.
  destruct (CreateOrUpdate_mutate_panics prometheusRule
              (prometheusRuleMutate c operatorConfig)
              "index out of range [1] with length 1" w) as (Ho & Hc & Hr).
  { intros o. unfold prometheusRuleMutate, applyLabels.
    by rewrite (applyLabelsLoop_panic _ ∅ Hbad). }
  subst run. unfold createOrUpdate. rewrite bind_run.
  destruct (CreateOrUpdate _ _ w) as [[r|e|msg] w1]; cbn [fst snd] in *;
    cbv beta iota; cbn [fst snd].
  - destruct Hr as [[=]|(? & [=] & _)].
  - destruct Hr as [[=]|(e0 & [= <-] & Hnf)]. split_and!; eauto.
  - destruct Hr as [[= ->]|(? & [=] & _)]. split_and!; auto.
Qed.

Lemma SemanticDeepEqual_ResourceVersion {k} (a b : Resource k) :
  SemanticDeepEqual a b = true →
  ResourceVersion (meta a) = ResourceVersion (meta b).
Proof.
  unfold SemanticDeepEqual. intros Heq%bool_decide_eq_true.
  by apply (f_equal (fun r => ResourceVersion (meta r))) in Heq.
Qed.

(** X10.  The mutate function of the console service returns the service
    as [console.GetService] builds it, whatever it was handed: the owner
    reference it has just set and the resource version read are
    overwritten.  So on a store that holds the service under another
    resource version than the built one, create-or-update issues an
    update with the built service on every pass. *)
Theorem consoleService_is_rewritten (consoleDeployment : Resource KDeployment) :
  let built := GetService (ConsolePort c) (OperatorNamespace c) in
  (∀ consoleService consoleService',
      consoleServiceMutate c consoleDeployment consoleService
      = Ok consoleService' →
      consoleService' = built)
  ∧ (∀ w w1 existing owned,
        Get KService (GetNamespace built) (GetName built) w = (Ok existing, w1) →
        SetControllerReference consoleDeployment existing = Ok owned →
        ResourceVersion (meta existing) ≠ ResourceVersion (meta built) →
        createOrUpdate built (consoleServiceMutate c consoleDeployment) w
        = (_ ← Update built; mret tt) w1
        ∧ calls (snd (createOrUpdate built
                        (consoleServiceMutate c consoleDeployment) w))
          = theCall VUpdate KService (GetNamespace built) (GetName built)
              :: calls w1).
Proof.
  intros built. split.
  - intros consoleService consoleService'. unfold consoleServiceMutate.
    destruct (SetControllerReference _ _); [|done..].
    cbn [mbind Outcome_bind mret Outcome_ret]. by intros [= <-].
  - intros w w1 existing owned Hget Hown Hrv.
    assert (createOrUpdate built (consoleServiceMutate c consoleDeployment) w
            = (_ ← Update built; mret tt) w1) as Hrun.
    { unfold createOrUpdate, CreateOrUpdate.
      rewrite !bind_run, try_run, Hget. cbv beta iota.
      rewrite bind_run, mutate_run. unfold consoleServiceMutate.
      rewrite Hown. cbn [mbind Outcome_bind mret Outcome_ret]. fold built.
      rewrite bool_decide_eq_true_2 by done.
      destruct (SemanticDeepEqual existing built) eqn:Heq.
      { by apply SemanticDeepEqual_ResourceVersion in Heq. }
      rewrite !bind_run. by destruct (Update built w1) as [[?|?|?] ?]. }
    split; [done|]. rewrite Hrun, bind_run.
    destruct (Update_effect built w1) as [Hc _].
    by destruct (Update built w1) as [[?|?|?] ?].
Qed.

End RuleAndService.

(** ** The reads of the operator config map *)

Section ConfigReads.

Context {Payload : Type} `{!EqDecision Payload}.
Context (c : @ClusterVersionReconciler Payload).

Local Abbreviation Resource := (@Resource Payload).
Local Abbreviation World := (@World Payload).
Local Abbreviation M := (@M Payload).

Implicit Types (w : World).

(** X11.  The flag resolution only reads: it leaves the store as it is
    and issues the read of the config map, followed by at most the probe
    for the storage cluster definition.  It always returns its pair, and
    a pair with an error has the flag [false] and an error that is
    neither NotFound nor AlreadyExists for its callers. *)
Theorem getDeployCSIConfig_only_reads w :
  let run := getDeployCSIConfig c w in
  objects (snd run) = objects w
  ∧ (calls (snd run) = readConfigCall c :: calls w
     ∨ calls (snd run) = probeCall :: readConfigCall c :: calls w)
  ∧ (∃ deployCSI err, fst run = Ok (deployCSI, err))
  ∧ (∀ deployCSI err,
        fst run = Ok (deployCSI, Some err) →
        deployCSI = false ∧ IsNotFound err = false
        ∧ IsAlreadyExists err = false).
Proof.
  intros run. subst run. unfold getDeployCSIConfig.
  rewrite bind_run, try_run, get_newObject.
  destruct (Get_effect KConfigMap (OperatorNamespace c)
              operatorConfigMapName w) as [Ho Hc].
  destruct (Get KConfigMap (OperatorNamespace c) operatorConfigMapName w)
    as [[operatorConfig|err|msg] w1] eqn:Hget; cbn [snd] in Ho, Hc;
    cbv beta iota.
  - destruct (_ !! deployCSIKey) as [value|].
    + destruct (strconv.ParseBool value) as [deployCSI|err|msg] eqn:Hparse.
      * cbn [fst snd]. split_and!; [done|by left|by eauto|].
        by intros ?? [= _ ?].
      * cbn [fst snd]. split_and!; [done|by left|by eauto|].
        by intros ?? [= <- <-].
      * unfold strconv.ParseBool in Hparse. by repeat case_match.
    + rewrite bind_run, try_run, get_newObject.
      destruct (Get_effect KCustomResourceDefinition ""
                  "storageclusters.ocs.openshift.io" w1) as [Ho2 Hc2].
      destruct (Get KCustomResourceDefinition "" _ w1)
        as [[crd|err|msg] w2] eqn:Hprobe; cbn [snd] in Ho2, Hc2;
        cbv beta iota.
      * unfold mret, M_ret. cbn [fst snd].
        split_and!; [congruence| |by eauto|by intros ?? [= _ ?]].
        right. by rewrite Hc2, Hc.
      * destruct (IsNotFound err); cbn [negb]; unfold mret, M_ret;
          cbn [fst snd];
          (split_and!; [congruence| |by eauto|]);
          try (right; by rewrite Hc2, Hc).
        -- by intros ?? [= _ ?].
        -- by intros ?? [= <- <-].
      * by destruct (Get_no_panic _ _ _ _ _ _ Hprobe).
  - cbn [fst snd]. split_and!; [done|by left|by eauto|].
    by intros ?? [= <- <-].
  - by destruct (Get_no_panic _ _ _ _ _ _ Hget).
Qed.

(** X12.  The read for the metrics labels returns the config map the
    store holds, reports every failure other than NotFound unchanged,
    and leaves the store alone after its single read. *)
Theorem getOperatorConfig_reads :
  (∀ w w1 cm,
      Get KConfigMap (OperatorNamespace c) "ocs-client-operator-config" w
      = (Ok cm, w1) →
      getOperatorConfig c w = (Ok cm, w1))
  ∧ (∀ w w1 err,
        Get KConfigMap (OperatorNamespace c) "ocs-client-operator-config" w
        = (Err err, w1) →
        IsNotFound err = false →
        getOperatorConfig c w = (Err err, w1))
  ∧ (∀ w,
        objects (snd (getOperatorConfig c w)) = objects w
        ∧ calls (snd (getOperatorConfig c w)) = readConfigCall c :: calls w).
Proof.
  unfold getOperatorConfig, operatorConfigMapName. split_and!.
  - intros w w1 cm Hget. by rewrite bind_run, try_run, Hget.
  - intros w w1 err Hget Hnf. rewrite bind_run, try_run, Hget.
    cbv beta iota. by rewrite Hnf.
  - intros w. rewrite bind_run, try_run.
    destruct (Get_effect KConfigMap (OperatorNamespace c)
                "ocs-client-operator-config" w) as [Ho Hc].
    destruct (Get KConfigMap _ _ w) as [[cm|err|msg] w1]; cbn [snd] in *;
      cbv beta iota; [done| |done].
    by destruct (negb (IsNotFound err)).
Qed.

End ConfigReads.

(** ** The pass as a whole *)

Section PassProperties.

Context {Payload : Type} `{!EqDecision Payload} (zero : Payload).
Context `{!@Externals Payload} (c : @ClusterVersionReconciler Payload).

Local Abbreviation Resource := (@Resource Payload).
Local Abbreviation World := (@World Payload).
Local Abbreviation M := (@M Payload).
Local Abbreviation respects := (@respects Payload).
Local Abbreviation untouched := (@untouched Payload).

Implicit Types (w : World).

Ltac frame_leaf :=
  first [ apply (respects_ret _) | apply (respects_fail _)
        | apply (respects_panic _) | apply (respects_lift _) ].

(** [Reconcile] is the steps up to the flag resolution followed by
    [afterFlag]. *)
Lemma Reconcile_afterFlag (req : Request) w :
  Reconcile zero c req w
  = match flagOfPass c w with
    | (Ok resolved, w') => afterFlag zero c req resolved w'
    | (Err e, w') => (Err e, w')
    | (Panic msg, w') => (Panic msg, w')
    end.
Proof.
  unfold Reconcile, flagOfPass. rewrite !(bind_run (reconcileSubscriptionValidatingWebhook c)).
  destruct (reconcileSubscriptionValidatingWebhook c w) as [[[]|?|?] w1];
    [|done..].
  cbv beta iota. rewrite !(bind_run (labelClientOperatorSubscription c)).
  destruct (labelClientOperatorSubscription c w1) as [[[]|?|?] w2]; [|done..].
  cbv beta iota. rewrite !(bind_run (ensureConsolePlugin c)).
  destruct (ensureConsolePlugin c w2) as [[[]|?|?] w3]; [|done..].
  cbv beta iota. rewrite bind_run.
  by destruct (getDeployCSIConfig c w3) as [[resolved|?|?] w4].
Qed.

(** X13.  A pass stops at the first step that fails: when a step up to
    the flag resolution returns an error or panics, or the flag resolution
    reports an error, [Reconcile] ends with that outcome in the world that
    step left, and no resource of the CSI branch was created or
    updated. *)
Theorem reconcile_stops_at_first_failure (req : Request) w w' :
  NginxConfigMapName ≠ MonConfigMapName →
  NginxConfigMapName ≠ EncryptionConfigMapName →
  ((∀ e, flagOfPass c w = (Err e, w') →
         Reconcile zero c req w = (Err e, w'))
   ∧ (∀ msg, flagOfPass c w = (Panic msg, w') →
             Reconcile zero c req w = (Panic msg, w'))
   ∧ (∀ deployCSI e, flagOfPass c w = (Ok (deployCSI, Some e), w') →
                     Reconcile zero c req w = (Err e, w')))
  ∧ (snd (flagOfPass c w) = w' →
     ∀ k ns name, csiManaged c k ns name → untouched k ns name w w').
Proof.
  intros Hmon Henc. split; [split_and!|].
  - intros e Hflag. by rewrite Reconcile_afterFlag, Hflag.
  - intros msg Hflag. by rewrite Reconcile_afterFlag, Hflag.
  - intros deployCSI e Hflag. by rewrite Reconcile_afterFlag, Hflag.
  - intros <- k ns name Hcsi. by apply flagOfPass_untouched.
Qed.

(** X14.  With the flag resolved to [true], a pass that cannot read the
    cluster version of the request, or whose sidecar images cannot be
    initialised from its version, ends with that error before anything of
    the CSI branch is written. *)
Theorem reconcile_needs_cluster_version (req : Request) w w3 :
  NginxConfigMapName ≠ MonConfigMapName →
  NginxConfigMapName ≠ EncryptionConfigMapName →
  flagOfPass c w = (Ok (true, None), w3) →
  (∀ e w4,
      Get KClusterVersion (reqNamespace req) (reqName req) w3 = (Err e, w4) →
      Reconcile zero c req w = (Err e, w4)
      ∧ ∀ k ns name, csiManaged c k ns name → untouched k ns name w w4)
  ∧ (∀ instance e w4,
        Get KClusterVersion (reqNamespace req) (reqName req) w3
        = (Ok instance, w4) →
        InitializeSidecars (spec (k := KClusterVersion) instance) = Err e →
        Reconcile zero c req w = (Err e, w4)
        ∧ ∀ k ns name, csiManaged c k ns name → untouched k ns name w w4).
Proof.
  intros Hmon Henc Hflag.
  assert (∀ k ns name, csiManaged c k ns name → untouched k ns name w w3)
    as Hbefore.
  { intros k ns name Hcsi.
    pose proof (flagOfPass_untouched c k ns name Hmon Henc Hcsi w) as Hu.
    by rewrite Hflag in Hu. }
  assert (∀ k ns name r w4,
            Get KClusterVersion (reqNamespace req) (reqName req) w3 = (r, w4) →
            csiManaged c k ns name → untouched k ns name w w4) as Hread.
  { intros k ns name r w4 Hget Hcsi. etrans; [by apply Hbefore|].
    pose proof (Get_untouched k ns name KClusterVersion (reqNamespace req)
                  (reqName req) w3) as Hu.
    by rewrite Hget in Hu. }
  split.
  - intros e w4 Hget. split; [|by eauto].
    rewrite Reconcile_afterFlag, Hflag. unfold afterFlag. cbn [fst snd].
    by rewrite bind_run, Hget.
  - intros instance e w4 Hget Hinit. split; [|by eauto].
    rewrite Reconcile_afterFlag, Hflag. unfold afterFlag. cbn [fst snd].
    rewrite bind_run, Hget. cbv beta iota. rewrite bind_run. unfold lift.
    by rewrite Hinit.
Qed.

Lemma respects_lift_bind (R : relation World) `{!Reflexive R} {A B}
    (o : Outcome A) (g : A → M B) :
  (∀ a, o = Ok a → respects R (g a)) → respects R (lift o ≫= g).
Proof.
  intros Hg w. rewrite bind_run. unfold lift.
  destruct o as [a|e|msg]; [|done..]. by apply Hg.
Qed.

Lemma createConfigMapOnce_untouched k0 ns0 name0 (name : string) :
  ¬ (k0 = KConfigMap ∧ ns0 = OperatorNamespace c ∧ name0 = name) →
  respects (untouched k0 ns0 name0) (createConfigMapOnce c name).
Proof.
  intros Hother. unfold createConfigMapOnce, create.
  apply (respects_lift_bind _). intros configMap Hown.
  apply SetControllerReference_key in Hown as [Hns Hname].
  apply (respects_bind _).
  { apply respects_try, (respects_bind _); [|intros; frame_leaf].
    apply Create_untouched. intros (<- & <- & <-). apply Hother.
    by rewrite Hns, Hname. }
  intros [err|[]]; [|frame_leaf].
  destruct (negb (IsAlreadyExists err)); frame_leaf.
Qed.

Lemma CreateCSIDriver_untouched k0 ns0 name0 (csiDriver : Resource KCSIDriver) :
  k0 ≠ KCSIDriver →
  respects (untouched k0 ns0 name0) (CreateCSIDriver csiDriver).
Proof.
  intros Hk. unfold CreateCSIDriver.
  apply (respects_bind _).
  { apply respects_try, Create_untouched, otherKey_kind. done. }
  intros [err|?]; [|frame_leaf].
  destruct (IsAlreadyExists err); frame_leaf.
Qed.

Lemma neverWritten_kinds k0 ns0 name0 :
  neverWritten c k0 ns0 name0 →
  k0 = KClusterVersion ∨ k0 = KCustomResourceDefinition ∨ k0 = KConfigMap.
Proof. intros [->|[->|[-> _]]]; auto. Qed.

Lemma Reconcile_untouched (req : Request) k0 ns0 name0 :
  neverWritten c k0 ns0 name0 →
  respects (untouched k0 ns0 name0) (Reconcile zero c req).
Proof.
  intros Hnever. pose proof (neverWritten_kinds _ _ _ Hnever) as Hkind.
  assert (∀ k, k ≠ KClusterVersion → k ≠ KCustomResourceDefinition →
               k ≠ KConfigMap → k0 ≠ k) as Hk.
  { intros k ??? ->. by destruct Hkind as [?|[?|?]]. }
  assert (∀ name, name = NginxConfigMapName ∨ name = MonConfigMapName
                  ∨ name = EncryptionConfigMapName →
                  ¬ (k0 = KConfigMap ∧ ns0 = OperatorNamespace c
                     ∧ name0 = name)) as Hcm.
  { intros name Hname (-> & -> & ->).
    destruct Hnever as [?|[?|[_ Hnot]]]; [done..|]. by apply Hnot. }
  unfold Reconcile.
  apply (respects_bind _); [by apply webhook_untouched, Hk|].
  intros _.
  apply (respects_bind _); [by apply labelSubscription_untouched, Hk|].
  intros _.
  apply (respects_bind _).
  { apply ensureConsolePlugin_untouched; [by apply Hk..|].
    apply Hcm. by left. }
  intros _.
  apply (respects_bind _); [apply getDeployCSIConfig_untouched|].
  intros [deployCSI [err|]]; cbn [fst snd]; [frame_leaf|].
  destruct deployCSI; [|frame_leaf].
  apply (respects_bind _); [apply Get_untouched|]. intros instance.
  apply (respects_bind _); [frame_leaf|]. intros sidecars.
  apply (respects_bind _).
  { apply createOrUpdate_untouched, otherKey_kind.
    intros <-. by apply (Hk KSecurityContextConstraints). }
  intros _.
  apply (respects_bind _);
    [apply createConfigMapOnce_untouched, Hcm; by auto|]. intros _.
  apply (respects_bind _);
    [apply createConfigMapOnce_untouched, Hcm; by auto|]. intros _.
  apply (respects_bind _).
  { apply createOrUpdate_untouched, otherKey_kind.
    intros <-. by apply (Hk KDeployment). }
  intros _.
  apply (respects_bind _).
  { apply createOrUpdate_untouched, otherKey_kind.
    intros <-. by apply (Hk KDaemonSet). }
  intros _.
  apply (respects_bind _).
  { apply createOrUpdate_untouched, otherKey_kind.
    intros <-. by apply (Hk KDeployment). }
  intros _.
  apply (respects_bind _).
  { apply createOrUpdate_untouched, otherKey_kind.
    intros <-. by apply (Hk KDaemonSet). }
  intros _.
  apply (respects_bind _);
    [by apply CreateCSIDriver_untouched, Hk|]. intros _.
  apply (respects_bind _);
    [by apply CreateCSIDriver_untouched, Hk|]. intros _.
  apply (respects_bind _); [frame_leaf|]. intros prometheusRule.
  apply (respects_bind _); [apply getOperatorConfig_untouched|].
  intros operatorConfig.
  apply (respects_bind _); [|intros; frame_leaf].
  apply createOrUpdate_untouched, otherKey_kind.
  intros <-. by apply (Hk KPrometheusRule).
Qed.

(** X15.  The inputs are only read: no number of passes creates or
    updates the cluster version, a custom resource definition, or a
    config map other than the nginx one and the two write-once ones; the
    store answers for them as before. *)
Theorem inputs_are_only_read (reqs : list Request) (k : Kind)
    (ns name : string) w :
  neverWritten c k ns name →
  untouched k ns name w (reconcilePasses c zero reqs w).
Proof.
  intros Hnever. revert w.
  induction reqs as [|req reqs IH]; intros w; cbn [reconcilePasses].
  - reflexivity.
  - etrans; [by apply Reconcile_untouched|]. apply IH.
Qed.

End PassProperties.

(** ** What every client call respects, a pass respects *)

Section AnyCall.

Context {Payload : Type} `{!EqDecision Payload} (zero : Payload).
Context `{!@Externals Payload} (c : @ClusterVersionReconciler Payload).

Local Abbreviation Resource := (@Resource Payload).
Local Abbreviation World := (@World Payload).
Local Abbreviation M := (@M Payload).
Local Abbreviation respects := (@respects Payload).

Variable R : relation World.
Context `{!Reflexive R} `{!Transitive R}.
Hypothesis R_Get : ∀ k ns name, respects R (Get k ns name).
Hypothesis R_List : ∀ k ns, respects R (List k ns).
Hypothesis R_Create : ∀ k (obj : Resource k), respects R (Create obj).
Hypothesis R_Update : ∀ k (obj : Resource k), respects R (Update obj).

Ltac any_leaf :=
  first [ apply (respects_ret _) | apply (respects_fail _)
        | apply (respects_panic _) | apply (respects_lift _) ].

Lemma CreateOrUpdate_any {k} (obj : Resource k)
    (f : Resource k → Outcome (Resource k)) :
  respects R (CreateOrUpdate obj f).
Proof.
  unfold CreateOrUpdate.
  apply (respects_bind _); [apply respects_try, R_Get|].
  intros [err|existing].
  - destruct (IsNotFound err); [|any_leaf].
    apply (respects_mutate_bind _). intros obj' _ _.
    apply (respects_bind _); [apply R_Create|intros; any_leaf].
  - apply (respects_mutate_bind _). intros obj' _ _.
    destruct (SemanticDeepEqual existing obj'); [any_leaf|].
    apply (respects_bind _); [apply R_Update|intros; any_leaf].
Qed.

Lemma createOrUpdate_any {k} (obj : Resource k)
    (f : Resource k → Outcome (Resource k)) :
  respects R (createOrUpdate obj f).
Proof.
  unfold createOrUpdate.
  apply (respects_bind _); [apply CreateOrUpdate_any|intros; any_leaf].
Qed.

Lemma labelClientOperatorSubscription_any :
  respects R (labelClientOperatorSubscription c).
Proof.
  unfold labelClientOperatorSubscription.
  apply (respects_bind _); [apply respects_try, R_List|].
  intros [err|items]; [any_leaf|].
  destruct (Find items _) as [sub|]; [|any_leaf].
  destruct (AddLabel sub _ _) as [added sub'].
  apply (respects_bind _); [|intros; any_leaf].
  destruct added; [|any_leaf].
  apply (respects_bind _); [apply R_Update|intros; any_leaf].
Qed.

Lemma ensureConsolePlugin_any : respects R (ensureConsolePlugin c).
Proof.
  unfold ensureConsolePlugin.
  apply (respects_bind _); [apply R_Get|]. intros consoleDeployment.
  do 3 (apply (respects_bind _); [apply createOrUpdate_any|intros _]).
  any_leaf.
Qed.

Lemma getDeployCSIConfig_any : respects R (getDeployCSIConfig c).
Proof.
  unfold getDeployCSIConfig, get.
  apply (respects_bind _); [apply respects_try, R_Get|].
  intros [err|operatorConfig]; [any_leaf|].
  destruct (_ !! deployCSIKey) as [value|].
  - destruct (strconv.ParseBool value); any_leaf.
  - apply (respects_bind _); [apply respects_try, R_Get|].
    intros [err|crd]; [|any_leaf].
    destruct (negb (IsNotFound err)); any_leaf.
Qed.

Lemma createConfigMapOnce_any (name : string) :
  respects R (createConfigMapOnce c name).
Proof.
  unfold createConfigMapOnce, create.
  apply (respects_bind _); [any_leaf|]. intros configMap.
  apply (respects_bind _).
  { apply respects_try, (respects_bind _); [apply R_Create|].
    intros; any_leaf. }
  intros [err|[]]; [|any_leaf].
  destruct (negb (IsAlreadyExists err)); any_leaf.
Qed.

Lemma CreateCSIDriver_any (csiDriver : Resource KCSIDriver) :
  respects R (CreateCSIDriver csiDriver).
Proof.
  unfold CreateCSIDriver.
  apply (respects_bind _); [apply respects_try, R_Create|].
  intros [err|?]; [|any_leaf].
  destruct (IsAlreadyExists err); any_leaf.
Qed.

Lemma getOperatorConfig_any : respects R (getOperatorConfig c).
Proof.
  unfold getOperatorConfig.
  apply (respects_bind _); [apply respects_try, R_Get|].
  intros [err|cm]; [|any_leaf].
  destruct (negb (IsNotFound err)); any_leaf.
Qed.

End AnyCall.

(** ** An update keeps what the store holds *)

Section StorePut.

Context {Payload : Type} `{!EqDecision Payload} (zero : Payload).
Context `{!@Externals Payload} (c : @ClusterVersionReconciler Payload).

Local Abbreviation Resource := (@Resource Payload).
Local Abbreviation Obj := (@Obj Payload).
Local Abbreviation World := (@World Payload).
Local Abbreviation respects := (@respects Payload).

Implicit Types (l : list Obj) (w : World).

Lemma storeGet_storePut_same {k} (r r0 : Resource k) l :
  storeGet k (GetNamespace r) (GetName r) l = Some r0 →
  storeGet k (GetNamespace r) (GetName r) (storePut r l) = Some r.
Proof.
  induction l as [|o l IH]; cbn [storeGet storePut]; [done|].
  destruct (cast k o) as [r1|] eqn:Hcast.
  - destruct (named (GetNamespace r) (GetName r) r1) eqn:Hn.
    + intros _. cbn [storeGet]. rewrite cast_same.
      by rewrite (proj2 (named_true _ _ r)).
    + intros Hget. cbn [storeGet]. rewrite Hcast, Hn. by apply IH.
  - intros Hget. cbn [storeGet]. rewrite Hcast. by apply IH.
Qed.

Lemma storeGet_storePut_stays {k} (r : Resource k) k0 ns0 name0 l :
  is_Some (storeGet k0 ns0 name0 l) →
  is_Some (storeGet k0 ns0 name0 (storePut r l)).
Proof.
  intros [r0 Hr0].
  destruct (decide (k = k0 ∧ GetNamespace r = ns0 ∧ GetName r = name0))
    as [(<- & <- & <-)|Hother].
  - rewrite (storeGet_storePut_same r r0) by done. by eexists.
  - rewrite storeGet_storePut_other by done. by eexists.
Qed.

End StorePut.

(** ** The filters of the secondary watches *)

Section WatchFilters.

Context {Payload : Type} `{!EqDecision Payload}.
Context `{!@Externals Payload} (c : @ClusterVersionReconciler Payload).

Local Abbreviation Resource := (@Resource Payload).
Local Abbreviation Event := (@Event Payload).

(** X17.  The watch on subscriptions enqueues the cluster version exactly
    for an event whose object is in the operator namespace and, when the
    event is an update, whose labels differ from the old ones; an update
    that leaves the labels as they are enqueues nothing, whatever else it
    changes.  The watch on webhook configurations enqueues exactly for
    the configuration named as the subscription webhook.  Both enqueue
    nothing otherwise. *)
Theorem subscription_and_webhook_filters :
  (∀ e : Event KSubscription,
      watchSubscription c e = [versionRequest]
      ↔ GetNamespace (eventObject e) = OperatorNamespace c
        ∧ ∀ old new, e = UpdateEvent old new → GetLabels new ≠ GetLabels old)
  ∧ (∀ old new : Resource KSubscription,
        GetLabels new = GetLabels old →
        watchSubscription c (UpdateEvent old new) = [])
  ∧ (∀ e : Event KSubscription,
        watchSubscription c e = [versionRequest] ∨ watchSubscription c e = [])
  ∧ (∀ e : Event KValidatingWebhookConfiguration,
        watchValidatingWebhookConfiguration e = [versionRequest]
        ↔ GetName (eventObject e) = SubscriptionWebhookName)
  ∧ (∀ e : Event KValidatingWebhookConfiguration,
        GetName (eventObject e) ≠ SubscriptionWebhookName →
        watchValidatingWebhookConfiguration e = []).
Proof.
  unfold watchSubscription, watchValidatingWebhookConfiguration, Watches,
    subscriptionPredicates, webhookPredicates.
  refine (conj _ (conj _ (conj _ (conj _ _))));
    [intros e|intros old new Hlabels|intros e|intros e|intros e Hname];
    cbn [forallb]; rewrite !andb_true_r.
  - split.
    + destruct (_ && _) eqn:Hpass; [|done]. intros _.
      apply andb_true_iff in Hpass as [Hns Hlabels].
      split.
      * destruct e; by apply bool_decide_eq_true in Hns.
      * intros old new ->. cbn [LabelChangedPredicate] in Hlabels.
        by apply negb_true_iff, bool_decide_eq_false in Hlabels.
    + intros [Hns Hlabels].
      assert (NewPredicateFuncs
                (λ client : Resource KSubscription,
                   bool_decide (GetNamespace client = OperatorNamespace c)) e
              = true) as ->.
      { destruct e; by apply bool_decide_eq_true. }
      assert (LabelChangedPredicate e = true) as ->.
      { destruct e as [o|old new|o|o]; try done.
        cbn [LabelChangedPredicate].
        apply negb_true_iff, bool_decide_eq_false. by apply Hlabels. }
      apply enqueueClusterVersionRequest_one.
  - cbn [NewPredicateFuncs LabelChangedPredicate].
    rewrite (bool_decide_eq_true_2 _ Hlabels). cbn [negb].
    by rewrite andb_false_r.
  - destruct (_ && _); [left|by right].
    apply enqueueClusterVersionRequest_one.
  - split.
    + destruct (NewPredicateFuncs _ e) eqn:Hpass; [|done]. intros _.
      destruct e; by apply bool_decide_eq_true in Hpass.
    + intros Hname.
      assert (NewPredicateFuncs
                (λ client : Resource KValidatingWebhookConfiguration,
                   bool_decide (GetName client = SubscriptionWebhookName)) e
              = true) as ->.
      { destruct e; by apply bool_decide_eq_true. }
      apply enqueueClusterVersionRequest_one.
  - assert (NewPredicateFuncs
              (λ client : Resource KValidatingWebhookConfiguration,
                 bool_decide (GetName client = SubscriptionWebhookName)) e
            = false) as ->; [|done].
    destruct e; by apply bool_decide_eq_false.
Qed.

End WatchFilters.

(** ** A step that has written finds nothing to write *)

Section Settled.

Context {Payload : Type} `{!EqDecision Payload}.
Context `{!@Externals Payload} (c : @ClusterVersionReconciler Payload).

Local Abbreviation Resource := (@Resource Payload).
Local Abbreviation Obj := (@Obj Payload).
Local Abbreviation World := (@World Payload).
Local Abbreviation unhindered := (@unhindered Payload).

Implicit Types (l : list Obj) (w : World).

Ltac run_call :=
  cbv [Get List Create Update mbind M_bind record nextFault getObjects
       fail mret M_ret stamp commit];
  cbn [objects revision faults calls fst snd].

Lemma storeGet_app_new {k} ns name l (r : Resource k) :
  storeGet k ns name l = None →
  GetNamespace r = ns → GetName r = name →
  storeGet k ns name (l ++ [existT k r]) = Some r.
Proof.
  intros Hnone Hns Hname.
  induction l as [|o l IH]; cbn [storeGet app] in *.
  - rewrite cast_same. by rewrite (proj2 (named_true ns name r)).
  - destruct (cast k o) as [r0|]; [|by apply IH].
    destruct (named ns name r0); [done|by apply IH].
Qed.

Lemma Get_run k ns name w (r : Resource k) :
  unhindered w →
  storeGet k ns name (objects w) = Some r →
  ∃ w', Get k ns name w = (Ok r, w')
        ∧ objects w' = objects w
        ∧ calls w' = theCall VGet k ns name :: calls w.
Proof.
  unfold unhindered. intros Hfree Hget. run_call.
  destruct (faults w) as [|[e|] fs]; [|done|]; cbn [objects];
    rewrite Hget; by eexists.
Qed.

Lemma List_run k ns w :
  unhindered w →
  ∃ w', List k ns w = (Ok (storeList k ns (objects w)), w')
        ∧ objects w' = objects w
        ∧ calls w' = theCall VList k ns "" :: calls w.
Proof.
  unfold unhindered. intros Hfree. run_call.
  destruct (faults w) as [|[e|] fs]; [|done|]; by eexists.
Qed.

Lemma Create_ok {k} (obj stored : Resource k) w w' :
  Create obj w = (Ok stored, w') →
  (∃ rv, stored = wire (withMeta (setResourceVersion rv (meta obj)) obj))
  ∧ storeGet k (GetNamespace obj) (GetName obj) (objects w) = None
  ∧ objects w' = objects w ++ [existT k stored].
Proof.
  run_call.
  destruct (faults w) as [|[e|] fs]; cbn [objects revision]; [|done|];
    (destruct (storeGet k (GetNamespace obj) (GetName obj) (objects w));
     [done|]; intros [= <- <-]; cbn [objects]; split; [by eexists|done]).
Qed.

Lemma Update_ok {k} (obj stored : Resource k) w w' :
  Update obj w = (Ok stored, w') →
  (∃ rv, stored = wire (withMeta (setResourceVersion rv (meta obj)) obj))
  ∧ is_Some (storeGet k (GetNamespace obj) (GetName obj) (objects w))
  ∧ objects w' = storePut stored (objects w).
Proof.
  run_call.
  destruct (faults w) as [|[e|] fs]; cbn [objects revision]; [|done|];
    (destruct (storeGet k (GetNamespace obj) (GetName obj) (objects w))
       as [current|]; [|done];
     repeat case_decide; try destruct (allowsUnconditionalUpdate k);
     try done; cbv beta; cbn [objects revision]; intros [= <- <-];
     cbn [objects]; (split; [by eexists|]); (split; [by eexists|done])).
Qed.

Lemma wire_key {k} (r : Resource k) rv :
  let stored := wire (withMeta (setResourceVersion rv (meta r)) r) in
  GetNamespace stored = GetNamespace r ∧ GetName stored = GetName r.
Proof. done. Qed.

(** What a successful [CreateOrUpdate] leaves in the store under the key
    of its object: the object it found, when the mutate function changed
    nothing in it, or else what the mutate function returned, as the
    store read it back. *)
Lemma CreateOrUpdate_written {k} (obj : Resource k)
    (f : Resource k → Outcome (Resource k)) w r w1 :
  CreateOrUpdate obj f w = (Ok r, w1) →
  ∃ base obj' stored,
    f base = Ok obj'
    ∧ storeGet k (GetNamespace obj) (GetName obj) (objects w1) = Some stored
    ∧ ((stored = base ∧ SemanticDeepEqual base obj' = true)
       ∨ ∃ rv, stored = wire (withMeta (setResourceVersion rv (meta obj')) obj')).
Proof.
  unfold CreateOrUpdate. rewrite bind_run, try_run.
  destruct (Get_effect k (GetNamespace obj) (GetName obj) w) as [Ho _].
  destruct (Get k (GetNamespace obj) (GetName obj) w)
    as [[existing|err|msg] w0] eqn:Hget; cbn [snd] in *; cbv beta iota;
    [| |done].
  - apply Get_result in Hget. rewrite bind_run, mutate_run.
    destruct (f existing) as [obj'|e|msg] eqn:Hf; [|done..].
    case_bool_decide as Hkey; [|done]. destruct Hkey as [Hns Hname].
    destruct (SemanticDeepEqual existing obj') eqn:Heq.
    + intros [= <- <-]. exists existing, obj', existing.
      rewrite Ho. split; [done|]. split; [done|]. by left.
    + rewrite bind_run.
      destruct (Update obj' w0) as [[stored|?|?] w2] eqn:Hupd; [|done..].
      cbv beta iota. intros [= <- <-].
      apply Update_ok in Hupd as ([rv ->] & [current Hcur] & ->).
      exists existing, obj'. eexists. split; [done|]. split; [|by right; eexists].
      rewrite Hns, Hname in Hcur. rewrite Ho in *.
      pose proof (storeGet_storePut_same
                    (wire (withMeta (setResourceVersion rv (meta obj')) obj'))
                    current (objects w)) as Hsame.
      destruct (wire_key obj' rv) as [Hns' Hname']. cbn zeta in *.
      rewrite Hns', Hname', Hns, Hname in Hsame. by apply Hsame.
  - destruct (IsNotFound err); [|done].
    rewrite bind_run, mutate_run.
    destruct (f obj) as [obj'|e|msg] eqn:Hf; [|done..].
    case_bool_decide as Hkey; [|done]. destruct Hkey as [Hns Hname].
    rewrite bind_run.
    destruct (Create obj' w0) as [[stored|?|?] w2] eqn:Hcre; [|done..].
    cbv beta iota. intros [= <- <-].
    apply Create_ok in Hcre as ([rv ->] & Hnone & ->).
    exists obj, obj'. eexists. split; [done|]. split; [|by right; eexists].
    rewrite Hns, Hname, Ho in Hnone. rewrite Ho.
    by apply storeGet_app_new.
Qed.

(** [CreateOrUpdate] on an object the store holds and the mutate function
    leaves semantically as it is: one read, no write. *)
Lemma CreateOrUpdate_settled {k} (obj existing obj' : Resource k)
    (f : Resource k → Outcome (Resource k)) w :
  unhindered w →
  storeGet k (GetNamespace obj) (GetName obj) (objects w) = Some existing →
  f existing = Ok obj' →
  GetNamespace obj' = GetNamespace obj → GetName obj' = GetName obj →
  SemanticDeepEqual existing obj' = true →
  ∃ w', CreateOrUpdate obj f w = (Ok OperationResultNone, w')
        ∧ objects w' = objects w
        ∧ calls w'
          = theCall VGet k (GetNamespace obj) (GetName obj) :: calls w.
Proof.
  intros Hfree Hget Hf Hns Hname Heq.
  destruct (Get_run _ _ _ w existing Hfree Hget) as (w' & Hrun & Ho & Hc).
  exists w'. split; [|done].
  unfold CreateOrUpdate. rewrite bind_run, try_run, Hrun. cbv beta iota.
  rewrite bind_run, mutate_run, Hf.
  rewrite bool_decide_eq_true_2 by done. cbv beta iota. by rewrite Heq.
Qed.

End Settled.

Section WebhookSettles.

Context {Payload : Type} `{!EqDecision Payload}.
Context `{!@Externals Payload} (c : @ClusterVersionReconciler Payload).

Local Abbreviation Resource := (@Resource Payload).
Local Abbreviation World := (@World Payload).
Local Abbreviation unhindered := (@unhindered Payload).

Lemma omitempty_singleton (key value : string) :
  omitempty (Some {[key := value]}) = Some {[key := value]}.
Proof.
  unfold omitempty. case_decide as Hempty; [|done].
  apply (f_equal (λ m : gmap string string, m !! key)) in Hempty.
  by rewrite lookup_singleton_eq, lookup_empty in Hempty.
Qed.

Lemma subscriptionWebhookMutate_key
    (whConfig whConfig' : Resource KValidatingWebhookConfiguration) :
  subscriptionWebhookMutate c whConfig = Ok whConfig' →
  GetNamespace whConfig' = GetNamespace whConfig
  ∧ GetName whConfig' = GetName whConfig.
Proof.
  unfold subscriptionWebhookMutate, Webhooks. cbn [spec meta withMeta].
  destruct (spec whConfig) as [|first others];
    cbn [ClientConfig setClientConfig Service];
    (destruct (Service (ClientConfig SubscriptionValidatingWebhook));
     [|done]); by intros [= <-].
Qed.

(** What the store read back from a write of the mutated configuration
    is a fixed point of the mutate function. *)
Lemma subscriptionWebhookMutate_stored
    (base whConfig : Resource KValidatingWebhookConfiguration) rv :
  subscriptionWebhookMutate c base = Ok whConfig →
  let stored :=
    wire (withMeta (setResourceVersion rv (meta whConfig)) whConfig) in
  subscriptionWebhookMutate c stored = Ok stored.
Proof.
  unfold subscriptionWebhookMutate, Webhooks. cbn [spec meta withMeta].
  destruct (spec base) as [|first others];
    cbn [ClientConfig setClientConfig Service];
    (destruct (Service (ClientConfig SubscriptionValidatingWebhook))
       as [service|] eqn:Hservice; [|done]);
    intros [= <-]; cbn zeta;
    unfold wire, withMeta, withSpec, wireSpec, GetName;
    cbn [meta spec setAnnotations setLabels setResourceVersion Name Namespace
         ResourceVersion Labels Annotations OwnerReferences
         ClientConfig setClientConfig Service CABundle URL];
    rewrite ?Hservice, omitempty_singleton; reflexivity.
Qed.

(** X18.  The webhook step settles: after a run of
    [reconcileSubscriptionValidatingWebhook] that succeeded, a later run
    that finds the webhook configuration as that run left it and meets no
    failure succeeds with one read and no write, whatever the first run
    found and wrote. *)
Theorem webhook_step_settles w w1 w2 :
  reconcileSubscriptionValidatingWebhook c w = (Ok tt, w1) →
  storeGet KValidatingWebhookConfiguration "" SubscriptionWebhookName
    (objects w2)
  = storeGet KValidatingWebhookConfiguration "" SubscriptionWebhookName
      (objects w1) →
  unhindered w2 →
  ∃ w3,
    reconcileSubscriptionValidatingWebhook c w2 = (Ok tt, w3)
    ∧ objects w3 = objects w2
    ∧ calls w3 = webhookCall :: calls w2.
Proof.
  unfold reconcileSubscriptionValidatingWebhook, createOrUpdate.
  set (whConfig := newObject KValidatingWebhookConfiguration ""
                     SubscriptionWebhookName []).
  rewrite bind_run.
  destruct (CreateOrUpdate whConfig (subscriptionWebhookMutate c) w)
    as [[r|?|?] w1'] eqn:Hrun; [|done..].
  cbv beta iota. intros [= <-] Hsame Hfree.
  apply CreateOrUpdate_written in Hrun
    as (base & obj' & stored & Hf & Hget & Hstored).
  change (GetNamespace whConfig) with "" in Hget.
  change (GetName whConfig) with SubscriptionWebhookName in Hget.
  rewrite <- Hsame in Hget.
  destruct (storeGet_named _ _ _ _ _ Hget) as [Hns Hname].
  assert (∃ obj2, subscriptionWebhookMutate c stored = Ok obj2
                  ∧ SemanticDeepEqual stored obj2 = true)
    as (obj2 & Hf2 & Heq).
  { destruct Hstored as [[-> Heq]|[rv ->]].
    - by exists obj'.
    - eexists. split; [by eapply subscriptionWebhookMutate_stored|].
      by apply bool_decide_eq_true. }
  destruct (subscriptionWebhookMutate_key _ _ Hf2) as [Hns2 Hname2].
  destruct (CreateOrUpdate_settled whConfig stored obj2
              (subscriptionWebhookMutate c) w2)
    as (w3 & Hrun2 & Ho & Hc); try done.
  - by rewrite Hns2, Hns.
  - by rewrite Hname2, Hname.
  - exists w3. rewrite bind_run, Hrun2. by cbv beta iota.
Qed.

End WebhookSettles.

(** ** The label step: failures, and a second run *)

Section LabelStep.

Context {Payload : Type} `{!EqDecision Payload}.
Context `{!@Externals Payload} (c : @ClusterVersionReconciler Payload).

Local Abbreviation Resource := (@Resource Payload).
Local Abbreviation Obj := (@Obj Payload).
Local Abbreviation World := (@World Payload).
Local Abbreviation unhindered := (@unhindered Payload).
Local Abbreviation isClientSubscription := (@isClientSubscription Payload).
Local Abbreviation labelled := (@labelled Payload).

Implicit Types (l : list Obj) (w : World).

Lemma Find_cons {A} (f : A → bool) (x : A) (xs : list A) :
  Find (x :: xs) f = if f x then Some x else Find xs f.
Proof.
  unfold Find. cbn [list_find].
  destruct (f x); [by rewrite decide_True|].
  rewrite decide_False by done.
  rewrite <- option_fmap_compose. done.
Qed.

Lemma storeList_cons k ns (o : Obj) l :
  storeList k ns (o :: l)
  = match cast k o with
    | Some r =>
        if decide (GetNamespace r = ns) then r :: storeList k ns l
        else storeList k ns l
    | None => storeList k ns l
    end.
Proof.
  unfold storeList. cbn [omap list_omap].
  destruct (cast k o) as [r|]; [|done].
  rewrite filter_cons. by case_decide.
Qed.

(** After an update of the subscription [Find] chose, [Find] chooses
    what the update stored. *)
Lemma Find_storePut {k} (f : Resource k → bool) (sub stored : Resource k) l :
  Find (storeList k (GetNamespace sub) l) f = Some sub →
  GetNamespace stored = GetNamespace sub →
  GetName stored = GetName sub →
  f stored = true →
  Find (storeList k (GetNamespace sub) (storePut stored l)) f = Some stored.
Proof.
  intros Hfind Hns Hname Hf.
  induction l as [|o l IH]; [done|].
  rewrite storeList_cons in Hfind. cbn [storePut].
  destruct (cast k o) as [r0|] eqn:Hcast.
  - destruct (named (GetNamespace stored) (GetName stored) r0) eqn:Hnamed.
    + rewrite storeList_cons, cast_same, decide_True by done.
      by rewrite Find_cons, Hf.
    + rewrite storeList_cons, Hcast.
      case_decide as Hr0; [|by apply IH].
      rewrite Find_cons in Hfind |- *.
      destruct (f r0); [|by apply IH].
      injection Hfind as ->.
      rewrite Hns, Hname in Hnamed.
      by rewrite (proj2 (named_true _ _ _)) in Hnamed.
  - rewrite storeList_cons, Hcast. by apply IH.
Qed.

Lemma Find_Some_test {A} (f : A → bool) (xs : list A) (x : A) :
  Find xs f = Some x → f x = true ∧ x ∈ xs.
Proof.
  unfold Find. intros Hfind.
  apply fmap_Some in Hfind as ([i y] & Hfind & ->).
  apply list_find_Some in Hfind as (Hi & Hy & _). cbn [snd].
  split; [done|]. by eapply list_elem_of_lookup_2.
Qed.

Lemma storeList_namespace k ns l (r : Resource k) :
  r ∈ storeList k ns l → GetNamespace r = ns.
Proof.
  unfold storeList. intros Hin. by apply list_elem_of_filter in Hin as [? _].
Qed.

(** X19.  The failures of the label step: a list call that fails makes
    the step fail with the fixed error [failed to list subscriptions],
    the cause being dropped, after that one call and with the store as it
    was; a failure of the update is returned as it is. *)
Theorem label_step_failures :
  (∀ w e w1,
      List KSubscription (OperatorNamespace c) w = (Err e, w1) →
      labelClientOperatorSubscription c w
      = (Err (ErrOther "failed to list subscriptions"), w1)
      ∧ objects w1 = objects w
      ∧ calls w1 = listCall c :: calls w)
  ∧ (∀ w items w1 sub e w2,
        List KSubscription (OperatorNamespace c) w = (Ok items, w1) →
        Find items isClientSubscription = Some sub →
        Update (snd (AddLabel sub subscriptionLabelKey subscriptionLabelValue))
          w1 = (Err e, w2) →
        ¬ labelled sub →
        labelClientOperatorSubscription c w = (Err e, w2)).
Proof.
  split.
  - intros w e w1 Hlist.
    destruct (List_effect KSubscription (OperatorNamespace c) w) as [Ho Hc].
    rewrite Hlist in Ho, Hc. cbn [snd] in Ho, Hc.
    unfold labelClientOperatorSubscription.
    by rewrite bind_run, try_run, Hlist.
  - intros w items w1 sub e w2 Hlist Hfind Hupdate Hlabel.
    unfold labelClientOperatorSubscription, isClientSubscription in *.
    rewrite bind_run, try_run, Hlist. cbv beta iota. rewrite Hfind.
    unfold AddLabel, labelled, subscriptionLabelKey, subscriptionLabelValue
      in *.
    rewrite decide_False in Hupdate |- * by done. cbn [snd] in Hupdate.
    by rewrite !bind_run, Hupdate.
Qed.

Lemma omitempty_insert (key value : string) (m : gmap string string) :
  omitempty (Some (<[key := value]> m)) = Some (<[key := value]> m).
Proof.
  unfold omitempty. case_decide as Hempty; [|done].
  apply (f_equal (λ m : gmap string string, m !! key)) in Hempty.
  by rewrite lookup_insert_eq, lookup_empty in Hempty.
Qed.

(** What the store holds after the update of an unlabelled
    subscription. *)
Lemma labelled_update (sub stored : Resource KSubscription) w1 w2 :
  ¬ labelled sub →
  Update (snd (AddLabel sub subscriptionLabelKey subscriptionLabelValue)) w1
  = (Ok stored, w2) →
  GetLabels stored
  = Some (<["managed-by" := "webhook.subscription.ocs.openshift.io"]>
            (default ∅ (GetLabels sub)))
  ∧ spec stored = spec sub
  ∧ GetNamespace stored = GetNamespace sub
  ∧ GetName stored = GetName sub
  ∧ objects w2 = storePut stored (objects w1).
Proof.
  intros Hlabel Hupdate.
  unfold AddLabel, labelled, subscriptionLabelKey, subscriptionLabelValue in *.
  rewrite decide_False in Hupdate by done. cbn [snd] in Hupdate.
  apply Update_ok in Hupdate as ([rv ->] & _ & ->).
  unfold GetLabels, wire. cbn [meta spec withMeta setLabels setAnnotations
    setResourceVersion Labels wireSpec].
  by rewrite omitempty_insert.
Qed.

(** X20.  The label step settles: after a run of
    [labelClientOperatorSubscription] that succeeded, a later run that
    finds the subscriptions of the operator namespace as that run left
    them and meets no failure succeeds with the list call alone: nothing
    is written a second time. *)
Theorem label_step_settles w w1 w2 :
  labelClientOperatorSubscription c w = (Ok tt, w1) →
  storeList KSubscription (OperatorNamespace c) (objects w2)
  = storeList KSubscription (OperatorNamespace c) (objects w1) →
  unhindered w2 →
  ∃ w3,
    labelClientOperatorSubscription c w2 = (Ok tt, w3)
    ∧ objects w3 = objects w2
    ∧ calls w3 = listCall c :: calls w2.
Proof.
  intros Hrun Hsame Hfree.
  assert (∃ sub, Find (storeList KSubscription (OperatorNamespace c)
                         (objects w1)) isClientSubscription = Some sub
                 ∧ labelled sub) as (sub & Hfind & Hlabel).
  { unfold labelClientOperatorSubscription in Hrun.
    rewrite bind_run, try_run in Hrun.
    destruct (List_effect KSubscription (OperatorNamespace c) w) as [Ho _].
    destruct (List KSubscription (OperatorNamespace c) w)
      as [[items|e|msg] w0] eqn:Hlist; cbn [snd] in Ho; cbv beta iota in Hrun;
      [|done..].
    apply List_result in Hlist as ->.
    fold isClientSubscription in Hrun.
    destruct (Find _ isClientSubscription) as [sub|] eqn:Hfind; [|done].
    assert (Decision (labelled sub)) as Hdec by (unfold labelled; apply _).
    destruct Hdec as [Hlabel|Hlabel].
    - exists sub. split; [|done].
      unfold AddLabel, labelled, subscriptionLabelKey, subscriptionLabelValue
        in *.
      rewrite decide_True in Hrun by done. injection Hrun as <-.
      by rewrite Ho.
    - pose proof (labelled_update sub) as Hupd.
      destruct (AddLabel sub _ _) as [added sub'] eqn:Hadd.
      assert (added = true) as ->.
      { unfold AddLabel, labelled, subscriptionLabelKey,
          subscriptionLabelValue in *.
        rewrite decide_False in Hadd by done. by injection Hadd as <- _. }
      rewrite !bind_run in Hrun. cbn [snd] in Hupd.
      destruct (Update sub' w0) as [[stored|?|?] w0'] eqn:Hupdate; [|done..].
      cbv beta iota in Hrun. injection Hrun as <-.
      destruct (Hupd stored w0 w0' Hlabel Hupdate)
        as (Hlabels & Hspec & Hns & Hname & ->).
      exists stored. rewrite Ho.
      destruct (Find_Some_test _ _ _ Hfind) as [Htest Hin].
      apply storeList_namespace in Hin. rewrite <- Hin in Hfind |- *.
      split.
      + apply Find_storePut; try done.
        unfold isClientSubscription in *. by rewrite Hspec.
      + unfold labelled. rewrite Hlabels. cbn [from_option id].
        by rewrite lookup_insert_eq. }
  destruct (List_run KSubscription (OperatorNamespace c) w2 Hfree)
    as (w3 & Hlist & Ho & Hc).
  exists w3. split; [|done].
  unfold labelClientOperatorSubscription.
  rewrite bind_run, try_run, Hlist. cbv beta iota.
  fold isClientSubscription. rewrite Hsame, Hfind.
  unfold AddLabel, labelled, subscriptionLabelKey, subscriptionLabelValue in *.
  by rewrite decide_True by done.
Qed.

(** What a run of the label step that succeeded did, when the
    subscription it chose was without the label: the store is the one
    before with that subscription replaced by what the update stored. *)
Lemma label_step_writes w w1 (sub : Resource KSubscription) :
  Find (storeList KSubscription (OperatorNamespace c) (objects w))
    isClientSubscription = Some sub →
  ¬ labelled sub →
  labelClientOperatorSubscription c w = (Ok tt, w1) →
  ∃ stored,
    objects w1 = storePut stored (objects w)
    ∧ GetLabels stored
      = Some (<["managed-by" := "webhook.subscription.ocs.openshift.io"]>
                (default ∅ (GetLabels sub)))
    ∧ spec stored = spec sub
    ∧ GetNamespace stored = GetNamespace sub
    ∧ GetName stored = GetName sub
    ∧ is_Some (storeGet KSubscription (GetNamespace sub) (GetName sub)
                 (objects w)).
Proof.
  intros Hfind Hlabel Hrun.
  unfold labelClientOperatorSubscription in Hrun.
  rewrite bind_run, try_run in Hrun.
  destruct (List_effect KSubscription (OperatorNamespace c) w) as [Ho _].
  destruct (List KSubscription (OperatorNamespace c) w)
    as [[items|e|msg] w0] eqn:Hlist; cbn [snd] in Ho; cbv beta iota in Hrun;
    [|done..].
  apply List_result in Hlist as ->.
  fold isClientSubscription in Hrun. rewrite Hfind in Hrun.
  pose proof (labelled_update sub) as Hupd.
  destruct (AddLabel sub _ _) as [added sub'] eqn:Hadd.
  assert (added = true ∧ GetNamespace sub' = GetNamespace sub
          ∧ GetName sub' = GetName sub) as (-> & Hns' & Hname').
  { unfold AddLabel, labelled, subscriptionLabelKey, subscriptionLabelValue
      in *.
    rewrite decide_False in Hadd by done. by injection Hadd as <- <-. }
  rewrite !bind_run in Hrun. cbn [snd] in Hupd.
  destruct (Update sub' w0) as [[stored|?|?] w0'] eqn:Hupdate; [|done..].
  cbv beta iota in Hrun. injection Hrun as <-.
  destruct (Hupd stored w0 w0' Hlabel Hupdate)
    as (Hlabels & Hspec & Hns & Hname & Hobjects).
  apply Update_ok in Hupdate as (_ & Hin & _).
  exists stored. rewrite Hobjects, Ho.
  rewrite Ho, Hns', Hname' in Hin. done.
Qed.

(** X21.  The write of the label step is seen by the watch on
    subscriptions: when [labelClientOperatorSubscription] succeeds on a
    store whose subscription of this operator is without the label
    [managed-by], the store afterwards holds that subscription with the
    label, its other labels and its spec as they were, this is the
    subscription the next run finds, and the update event from the one
    to the other passes the filters of the watch, so the cluster version
    is enqueued once more. *)
Theorem label_write_is_watched w w1 (sub : Resource KSubscription) :
  Find (storeList KSubscription (OperatorNamespace c) (objects w))
    isClientSubscription = Some sub →
  ¬ labelled sub →
  labelClientOperatorSubscription c w = (Ok tt, w1) →
  ∃ stored,
    storeGet KSubscription (GetNamespace sub) (GetName sub) (objects w1)
    = Some stored
    ∧ Find (storeList KSubscription (OperatorNamespace c) (objects w1))
        isClientSubscription = Some stored
    ∧ labelled stored
    ∧ spec stored = spec sub
    ∧ (∀ key, key ≠ "managed-by" →
              default ∅ (GetLabels stored) !! key
              = default ∅ (GetLabels sub) !! key)
    ∧ watchSubscription c (UpdateEvent sub stored) = [versionRequest].
Proof.
  intros Hfind Hlabel Hrun.
  destruct (label_step_writes w w1 sub Hfind Hlabel Hrun)
    as (stored & Hobjects & Hlabels & Hspec & Hns & Hname & [cur Hcur]).
  destruct (Find_Some_test _ _ _ Hfind) as [Htest Hin].
  apply storeList_namespace in Hin.
  assert (labelled stored) as Hstored.
  { unfold labelled. rewrite Hlabels. cbn [from_option id].
    by rewrite lookup_insert_eq. }
  exists stored. rewrite Hobjects. split_and!.
  - rewrite <- Hns, <- Hname in Hcur |- *.
    by apply (storeGet_storePut_same stored cur).
  - rewrite <- Hin in Hfind |- *. apply Find_storePut; try done.
    unfold isClientSubscription in *. by rewrite Hspec.
  - done.
  - done.
  - intros key Hkey. rewrite Hlabels. cbn [from_option id].
    by rewrite lookup_insert_ne.
  - unfold watchSubscription, Watches, subscriptionPredicates.
    cbn [forallb NewPredicateFuncs LabelChangedPredicate].
    rewrite bool_decide_eq_true_2 by by rewrite Hns.
    rewrite bool_decide_eq_false_2.
    + apply enqueueClusterVersionRequest_one.
    + intros Heq. apply Hlabel. unfold labelled in *. by rewrite <- Heq.
Qed.

End LabelStep.

(** ** What a pass that succeeds leaves in the store *)

Section Installs.

Context {Payload : Type} `{!EqDecision Payload} (zero : Payload).
Context `{!@Externals Payload} (c : @ClusterVersionReconciler Payload).

Local Abbreviation Resource := (@Resource Payload).
Local Abbreviation World := (@World Payload).
Local Abbreviation M := (@M Payload).
Local Abbreviation respects := (@respects Payload).
Local Abbreviation benign := (@benign Payload).
Local Abbreviation held := (@held Payload).
Local Abbreviation carries := (@carries Payload).

Implicit Types (w : World).

Ltac run_call :=
  cbv [Get List Create Update mbind M_bind record nextFault getObjects
       fail mret M_ret stamp commit];
  cbn [objects revision faults calls fst snd].

Global Instance carries_refl : Reflexive carries.
Proof. intros w. by split. Qed.

Global Instance carries_trans : Transitive carries.
Proof.
  intros w1 w2 w3 [Hb1 Hh1] [Hb2 Hh2]. split.
  - intros Hb. by apply Hb2, Hb1.
  - intros key Hkey. by apply Hh2, Hh1.
Qed.

Lemma Get_faults k ns name w :
  faults (snd (Get k ns name w)) = tail (faults w).
Proof.
  run_call. destruct (faults w) as [|[e|] fs]; cbn [objects faults snd tail];
    try done; by destruct (storeGet k ns name (objects w)).
Qed.

Lemma List_faults k ns w : faults (snd (List k ns w)) = tail (faults w).
Proof. run_call. by destruct (faults w) as [|[e|] fs]. Qed.

Lemma Create_faults {k} (obj : Resource k) w :
  faults (snd (Create obj w)) = tail (faults w).
Proof.
  run_call. destruct (faults w) as [|[e|] fs]; cbn [objects faults snd tail];
    try done;
    by destruct (storeGet k (GetNamespace obj) (GetName obj) (objects w)).
Qed.

Lemma Update_faults {k} (obj : Resource k) w :
  faults (snd (Update obj w)) = tail (faults w).
Proof.
  run_call. destruct (faults w) as [|[e|] fs]; cbn [objects faults snd tail];
    try done;
    (destruct (storeGet k (GetNamespace obj) (GetName obj) (objects w));
     [|done]; repeat case_decide;
     try destruct (allowsUnconditionalUpdate k); done).
Qed.

Lemma benign_tail w w' : faults w' = tail (faults w) → benign w → benign w'.
Proof.
  unfold benign. intros ->. destruct (faults w); [done|].
  apply Forall_inv_tail.
Qed.

Lemma Get_carries k ns name : respects carries (Get k ns name).
Proof.
  intros w. split; [apply benign_tail, Get_faults|].
  intros key. unfold held.
  destruct (Get_effect k ns name w) as [-> _]. done.
Qed.

Lemma List_carries k ns : respects carries (List k ns).
Proof.
  intros w. split; [apply benign_tail, List_faults|].
  intros key. unfold held.
  destruct (List_effect k ns w) as [-> _]. done.
Qed.

Lemma Create_carries {k} (obj : Resource k) : respects carries (Create obj).
Proof.
  intros w. split; [apply benign_tail, Create_faults|].
  intros [[k0 ns0] name0]. unfold held. cbn [fst snd]. intros [r Hr].
  destruct (Create_effect obj w) as [_ [->|(stored & _ & _ & _ & ->)]];
    [by eexists|].
  rewrite (storeGet_app_Some _ _ _ _ _ _ Hr). by eexists.
Qed.

Lemma Update_carries {k} (obj : Resource k) : respects carries (Update obj).
Proof.
  intros w. split; [apply benign_tail, Update_faults|].
  intros [[k0 ns0] name0]. unfold held. cbn [fst snd]. intros Hin.
  destruct (Update_effect obj w) as [_ [->|(stored & _ & _ & ->)]];
    [done|].
  by apply storeGet_storePut_stays.
Qed.

(** An AlreadyExists answer that no failure of the schedule explains
    comes from the store. *)
Lemma Create_exists {k} (obj : Resource k) w e w1 :
  benign w →
  Create obj w = (Err e, w1) →
  IsAlreadyExists e = true →
  is_Some (storeGet k (GetNamespace obj) (GetName obj) (objects w1)).
Proof.
  unfold benign. run_call.
  destruct (faults w) as [|[e0|] fs]; cbn [faults snd objects].
  - intros _.
    destruct (storeGet k (GetNamespace obj) (GetName obj) (objects w))
      eqn:Hget; [|done].
    intros [= <- <-] _. cbn [objects]. by eexists.
  - intros Hb [= <- <-] He.
    apply Forall_inv in Hb. by rewrite (Hb e0 eq_refl) in He.
  - intros _.
    destruct (storeGet k (GetNamespace obj) (GetName obj) (objects w))
      eqn:Hget; [|done].
    intros [= <- <-] _. cbn [objects]. by eexists.
Qed.

Lemma Create_held {k} (obj stored : Resource k) w w1 :
  Create obj w = (Ok stored, w1) →
  held w1 (k, GetNamespace obj, GetName obj).
Proof.
  intros Hrun. apply Create_ok in Hrun as ([rv ->] & Hnone & Ho).
  unfold held. cbn [fst snd]. rewrite Ho.
  erewrite storeGet_app_new; by eauto.
Qed.

Lemma createOrUpdate_held {k} (obj : Resource k)
    (f : Resource k → Outcome (Resource k)) w w1 :
  createOrUpdate obj f w = (Ok tt, w1) →
  held w1 (k, GetNamespace obj, GetName obj).
Proof.
  unfold createOrUpdate. rewrite bind_run.
  destruct (CreateOrUpdate obj f w) as [[r|?|?] w'] eqn:Hrun; [|done..].
  intros [= <-].
  apply CreateOrUpdate_written in Hrun as (_ & _ & stored & _ & Hget & _).
  unfold held. cbn [fst snd]. by eexists.
Qed.

Lemma createConfigMapOnce_held (name : string) w w1 :
  benign w →
  createConfigMapOnce c name w = (Ok tt, w1) →
  held w1 (KConfigMap, OperatorNamespace c, name).
Proof.
  intros Hb. unfold createConfigMapOnce, create. rewrite bind_run.
  unfold lift. destruct (own c _) as [configMap|e|msg] eqn:Hown; [|done..].
  apply SetControllerReference_key in Hown as [Hns Hname].
  change (GetNamespace configMap = OperatorNamespace c) in Hns.
  change (GetName configMap = name) in Hname.
  rewrite bind_run, try_run, bind_run.
  destruct (Create configMap w) as [[stored|e|msg] w'] eqn:Hcreate;
    cbv beta iota; [| |done].
  - intros [= <-]. apply Create_held in Hcreate.
    by rewrite Hns, Hname in Hcreate.
  - destruct (IsAlreadyExists e) eqn:He; [|done]. intros [= <-].
    pose proof (Create_exists _ _ _ _ Hb Hcreate He) as Hin.
    by rewrite Hns, Hname in Hin.
Qed.

Lemma CreateCSIDriver_held (csiDriver : Resource KCSIDriver) w w1 :
  benign w →
  CreateCSIDriver csiDriver w = (Ok tt, w1) →
  held w1 (KCSIDriver, GetNamespace csiDriver, GetName csiDriver).
Proof.
  intros Hb. unfold CreateCSIDriver. rewrite bind_run, try_run.
  destruct (Create csiDriver w) as [[stored|e|msg] w'] eqn:Hcreate;
    cbv beta iota; [| |done].
  - intros [= <-]. by apply Create_held in Hcreate.
  - destruct (IsAlreadyExists e) eqn:He; [|done]. intros [= <-].
    by apply (Create_exists _ _ _ _ Hb Hcreate He).
Qed.

Lemma flagOfPass_carries : respects carries (flagOfPass c).
Proof.
  unfold flagOfPass, reconcileSubscriptionValidatingWebhook.
  apply (respects_bind _).
  { apply (createOrUpdate_any carries); auto using Get_carries, List_carries,
      (@Create_carries), (@Update_carries). }
  intros _. apply (respects_bind _).
  { apply (labelClientOperatorSubscription_any c carries);
      auto using Get_carries, List_carries, (@Create_carries),
        (@Update_carries). }
  intros _. apply (respects_bind _).
  { apply (ensureConsolePlugin_any c carries);
      auto using Get_carries, List_carries, (@Create_carries),
        (@Update_carries). }
  intros _.
  apply (getDeployCSIConfig_any c carries);
    auto using Get_carries, List_carries, (@Create_carries),
      (@Update_carries).
Qed.

Lemma carried {A} (m : M A) w (a : Outcome A) w1 (keys : list _) :
  respects carries m → m w = (a, w1) →
  benign w → Forall (held w) keys →
  benign w1 ∧ Forall (held w1) keys.
Proof.
  intros Hm Hrun Hb Hkeys. specialize (Hm w). rewrite Hrun in Hm.
  destruct Hm as [Hb1 Hh1]. split; [by apply Hb1|].
  eapply Forall_impl; [exact Hkeys|]. apply Hh1.
Qed.

Ltac next Hrun Hstep :=
  rewrite bind_run in Hrun;
  match type of Hrun with
  | (match ?x with _ => _ end) = _ =>
      destruct x as [[?|?|?] ?w] eqn:Hstep; [|done..]
  end;
  cbv beta iota in Hrun.

Ltac next_lift Hrun Hstep :=
  rewrite bind_run in Hrun; unfold lift at 1 in Hrun;
  cbv beta iota in Hrun;
  match type of Hrun with
  | (match ?o with _ => _ end) = _ =>
      destruct o as [?|?|?] eqn:Hstep; [|done..]
  end;
  cbv beta iota in Hrun.

Ltac client_carries :=
  auto using Get_carries, List_carries, (@Create_carries), (@Update_carries).

Ltac solve_carries :=
  first [ apply Get_carries
        | apply (createOrUpdate_any carries); client_carries
        | apply (createConfigMapOnce_any c carries); client_carries
        | apply (CreateCSIDriver_any carries); client_carries
        | apply (getOperatorConfig_any c carries); client_carries
        | apply flagOfPass_carries ].

(** The facts [Hb] and [Hkeys] about the world before the step [Hstep]
    become facts about the world after it. *)
Ltac carry Hstep Hb Hkeys :=
  match type of Hstep with
  | ?m ?w = _ =>
      let Hm := fresh in
      let Hnew := fresh in
      assert (respects carries m) as Hm by solve_carries;
      pose proof (carried _ _ _ _ _ Hm Hstep Hb Hkeys) as Hnew;
      clear Hm Hb Hkeys; destruct Hnew as [Hb Hkeys]
  end.

(** A step that succeeded and leaves its object in the store. *)
Ltac installs Hrun Hb Hkeys :=
  let Hstep := fresh "Hstep" in
  let Hnew := fresh "Hnew" in
  next Hrun Hstep;
  match type of Hstep with
  | _ = (Ok ?u, _) => destruct u
  end;
  first [ pose proof (createOrUpdate_held _ _ _ _ Hstep) as Hnew
        | pose proof (createConfigMapOnce_held _ _ _ Hb Hstep) as Hnew
        | pose proof (CreateCSIDriver_held _ _ _ Hb Hstep) as Hnew ];
  carry Hstep Hb Hkeys;
  apply (Forall_cons_2 _ _ _ Hnew) in Hkeys; clear Hnew.

(** X22.  What a pass that succeeds leaves behind: when no failure of
    the schedule is AlreadyExists, the flag resolves to [true] and
    [Reconcile] returns without error, the store holds the SCC, the two
    write-once config maps, the two deployments and the two daemon sets of
    the drivers, the two CSI driver objects and the Prometheus rule. *)
Theorem successful_pass_installs (req : Request) w w3 w' :
  benign w →
  flagOfPass c w = (Ok (true, None), w3) →
  Reconcile zero c req w = (Ok tt, w') →
  ∃ rule,
    Decode pvcPrometheusRules = Ok rule
    ∧ Forall (held w') (csiObjects c rule).
Proof.
  intros Hb Hflag Hrun.
  rewrite Reconcile_afterFlag, Hflag in Hrun.
  unfold afterFlag in Hrun. cbn [fst snd] in Hrun.
  pose proof (Forall_nil_2 (held w)) as Hkeys.
  carry Hflag Hb Hkeys.
  next Hrun Hinstance. carry Hinstance Hb Hkeys.
  next_lift Hrun Hsidecars.
  do 9 installs Hrun Hb Hkeys.
  next_lift Hrun Hrule.
  next Hrun Hconfig. carry Hconfig Hb Hkeys.
  installs Hrun Hb Hkeys.
  injection Hrun as <-.
  eexists. split; [reflexivity|].
  apply Forall_reverse. exact Hkeys.
Qed.

End Installs.

(** ** The write-once config maps *)

Section WriteOnce.

Context {Payload : Type} `{!EqDecision Payload} (zero : Payload).
Context `{!@Externals Payload} (c : @ClusterVersionReconciler Payload).

Local Abbreviation Resource := (@Resource Payload).
Local Abbreviation World := (@World Payload).
Local Abbreviation unhindered := (@unhindered Payload).

Implicit Types (w : World).

Ltac run_call :=
  cbv [Get List Create Update mbind M_bind record nextFault getObjects
       fail mret M_ret stamp commit];
  cbn [objects revision faults calls fst snd].





End WriteOnce.

(** ** The theorems at work on the concrete cluster *)

(** Witness of C5: the example text meets the hypothesis. *)
Lemma applyLabels_parses_witness :
  ∃ t',
    applyLabels exampleLabels emptyMeta = Ok t'
    ∧ Labels t' = Some (parsedLabels exampleLabels)
    ∧ sameButLabels emptyMeta t'.
Proof.
  apply (proj1 applyLabels_parses exampleLabels emptyMeta).
  reflexivity.
Defined.

(** Witness of C6: a text of two well-formed lines. *)
Lemma applyLabels_safety_witness :
  ∃ t', applyLabels exampleLabels emptyMeta = Ok t'.
Proof.
  apply (proj1 applyLabels_safety exampleLabels emptyMeta).
  reflexivity.
Defined.

Import Scenario.

(** Witness of C1: [DEPLOY_CSI] set to ["false"], no storage cluster
    definition. *)
Lemma getDeployCSIConfig_resolves_witness :
  getDeployCSIConfig reconciler (configured [("DEPLOY_CSI", "false")])
  = (Ok (false, None),
     afterCall readConfigMap (configured [("DEPLOY_CSI", "false")])).
Proof.
  refine (proj1 (getDeployCSIConfig_resolves reconciler
                   (configured [("DEPLOY_CSI", "false")])
                   (afterCall readConfigMap (configured [("DEPLOY_CSI", "false")]))
                   (operatorConfig [("DEPLOY_CSI", "false")]) _)
            "false" false _ _); reflexivity.
Defined.

(** The three cases of the flag default: no key and no storage cluster
    definition, no key next to the definition, the key set to
    ["false"]. *)
Example flag_defaults :
  fst (getDeployCSIConfig reconciler (configured [])) = Ok (true, None)
  ∧ fst (getDeployCSIConfig reconciler (withStorageCluster []))
    = Ok (false, None)
  ∧ fst (getDeployCSIConfig reconciler (configured [("DEPLOY_CSI", "false")]))
    = Ok (false, None).
Proof. repeat split; reflexivity. Qed.

(** Counterexample to C2: the operator is installed without its config
    map and there is no storage cluster definition; the flag resolution
    does not resolve to [true] but reports the missing config map, after
    its one read and without a probe, and the pass fails with that
    error. *)
Lemma flag_resolution_needs_config_map :
  storeGet KConfigMap operatorNamespace "ocs-client-operator-config"
    (objects installed) = None
  ∧ storeGet KCustomResourceDefinition "" "storageclusters.ocs.openshift.io"
      (objects installed) = None
  ∧ fst (getDeployCSIConfig reconciler installed) ≠ Ok (true, None)
  ∧ getDeployCSIConfig reconciler installed
    = (Ok (false, Some (Errorf "failed to get operator configmap" ErrNotFound)),
       afterCall readConfigMap installed)
  ∧ fst (Reconcile "" (H := externals) reconciler request installed)
    = Err (Errorf "failed to get operator configmap" ErrNotFound).
Proof. repeat split; try reflexivity. intros [=]. Qed.

(** Witness of C2 as amended: the config map is absent. *)
Lemma config_map_absent_witness :
  getOperatorConfig reconciler installed
  = (Ok (newObject KConfigMap "" "" None), afterCall readConfigMap installed)
  ∧ getDeployCSIConfig reconciler installed
    = (Ok (false, Some (Errorf "failed to get operator configmap" ErrNotFound)),
       afterCall readConfigMap installed).
Proof.
  split.
  - apply (proj1 (config_map_absent reconciler installed
                    (afterCall readConfigMap installed))).
    reflexivity.
  - apply (proj2 (config_map_absent reconciler installed
                    (afterCall readConfigMap installed))).
    reflexivity.
Defined.

(** Witness of C3: a configuration with an injected bundle. *)
Lemma subscriptionWebhookMutate_keeps_CABundle_witness :
  ∃ whConfig' wh,
    subscriptionWebhookMutate (H := externals) reconciler webhookConfiguration
    = Ok whConfig'
    ∧ Webhooks whConfig' = [wh]
    ∧ CABundle (ClientConfig wh) = [Byte.x30; Byte.x82; Byte.x01; Byte.x0a].
Proof.
  destruct (subscriptionWebhookMutate_keeps_CABundle (H := externals)
              reconciler webhookConfiguration injectedWebhook []
              {| srNamespace := ""; srName := "webhook-server";
                 srPath := Some "/validate-subscription";
                 srPort := Some 443%Z |})
    as (whConfig' & wh & Hrun & Hwebhooks & Hbundle & _).
  - reflexivity.
  - discriminate.
  - reflexivity.
  - exists whConfig', wh. repeat split; assumption.
Defined.



(** Witness of C7: [DEPLOY_CSI] is ["false"]. *)
Lemma disabled_flag_is_no_op_witness :
  Reconcile "" (H := externals) reconciler request
    (configured [("DEPLOY_CSI", "false")])
  = (Ok tt,
     snd (flagOfPass (H := externals) reconciler
            (configured [("DEPLOY_CSI", "false")]))).
Proof.
  apply (disabled_flag_is_no_op (H := externals) "" reconciler request
           (configured [("DEPLOY_CSI", "false")])).
  - discriminate.
  - discriminate.
  - vm_compute. reflexivity.
Defined.

(** Witness of C8: the operator config map is created. *)
Lemma watches_enqueue_version_request_witness :
  watchConfigMap reconciler createdConfigMapEvent = [versionRequest].
Proof.
  apply (proj1 (watches_enqueue_version_request (H := externals) reconciler)).
  reflexivity.
Defined.

(** Witness of C10: only another operator is subscribed. *)
Lemma labelClientOperatorSubscription_labels_witness :
  ∃ e w',
    labelClientOperatorSubscription reconciler unsubscribed = (Err e, w')
    ∧ objects w' = objects unsubscribed
    ∧ calls w' = listCall reconciler :: calls unsubscribed.
Proof.
  apply (proj1 (labelClientOperatorSubscription_labels (H := externals) ""
                  reconciler)).
  reflexivity.
Defined.

(** ** The further properties at work on the concrete cluster *)

Import Cases.

(** Witness of X1: the example text. *)
Lemma applyLabels_replaces_witness :
  applyLabels exampleLabels (setLabels (Some {["old" := "label"]}) emptyMeta)
  = Ok (setLabels (Some (parsedLabels exampleLabels))
          (setLabels (Some {["old" := "label"]}) emptyMeta)).
Proof.
  apply (proj2 (proj2 (applyLabels_replaces exampleLabels emptyMeta
                         (setLabels (Some (parsedLabels exampleLabels))
                            emptyMeta) eq_refl))).
Defined.

(** Witness of X2: one line. *)
Lemma applyLabels_one_line_witness :
  ∃ t',
    applyLabels ("team" +:+ String ":" " storage") emptyMeta = Ok t'
    ∧ Labels t'
      = Some {[strings.TrimSpace "team" := strings.TrimSpace " storage"]}
    ∧ Labels t' ≫= (fun labels => labels !! strings.TrimSpace "team")
      = Some (strings.TrimSpace " storage")
    ∧ sameButLabels emptyMeta t'.
Proof.
  apply (applyLabels_one_line "team" " storage" emptyMeta); reflexivity.
Defined.

(** Witness of X3: the team of the example text is set again. *)
Lemma applyLabels_later_line_wins_witness :
  ∃ t' earlier,
    applyLabels exampleLabels emptyMeta = Ok earlier
    ∧ applyLabels (exampleLabels +:+ String newline "team: compute")
        emptyMeta = Ok t'
    ∧ Labels t' ≫= (fun labels =>
                      labels !! strings.TrimSpace (beforeColon "team: compute"))
      = Some (strings.TrimSpace (afterColon "team: compute"))
    ∧ (∀ key, key ≠ strings.TrimSpace (beforeColon "team: compute") →
              Labels t' ≫= (fun labels => labels !! key)
              = Labels earlier ≫= (fun labels => labels !! key))
    ∧ sameButLabels emptyMeta t'.
Proof.
  apply (applyLabels_later_line_wins exampleLabels "team: compute" emptyMeta);
    reflexivity.
Defined.

(** Witness of X4: the configuration the webhook step starts from. *)
Lemma subscriptionWebhookMutate_first_registration_witness :
  ∃ whConfig',
    subscriptionWebhookMutate (H := externals) reconciler
      newWebhookConfiguration = Ok whConfig'
    ∧ Webhooks whConfig'
      = [desiredWebhook (H := externals) reconciler
           (GetName newWebhookConfiguration) templateService []]
    ∧ Annotations (meta whConfig')
      = Some {["service.beta.openshift.io/inject-cabundle" := "true"]}
    ∧ (∀ key,
          Annotations (meta whConfig') ≫= (fun annotations => annotations !! key)
          = if decide (key = "service.beta.openshift.io/inject-cabundle")
            then Some "true" else None)
    ∧ sameButAnnotations (meta newWebhookConfiguration) (meta whConfig').
Proof.
  apply (subscriptionWebhookMutate_first_registration (H := externals)
           reconciler newWebhookConfiguration templateService);
    reflexivity.
Defined.

(** Witness of X5: the configuration with the injected bundle. *)
Lemma subscriptionWebhookMutate_idempotent_witness :
  subscriptionWebhookMutate (H := externals) reconciler
    shapedWebhookConfiguration
  = Ok shapedWebhookConfiguration.
Proof.
  apply (subscriptionWebhookMutate_idempotent (H := externals) reconciler
           webhookConfiguration shapedWebhookConfiguration).
  reflexivity.
Defined.

(** Witness of X6: the nginx config map came back without data. *)
Lemma nginxConfigMapMutate_data_witness :
  nginxConfigMapMutate consoleDeployment "server { listen 9001 ssl; }"
    bareNginxConfigMap
  = Panic "assignment to entry in nil map".
Proof.
  apply (proj1 (nginxConfigMapMutate_data consoleDeployment
                  "server { listen 9001 ssl; }" bareNginxConfigMap)).
  - reflexivity.
  - discriminate.
Defined.

(** Witness of X7: the monitoring config map of a first pass. *)
Lemma own_sets_controller_witness :
  GetControllerOf ownedMonConfigMap = Some (operatorReference reconciler)
  ∧ spec ownedMonConfigMap = spec monConfigMap
  ∧ meta ownedMonConfigMap
    = setOwnerReferences (OwnerReferences (meta ownedMonConfigMap))
        (meta monConfigMap)
  ∧ own reconciler ownedMonConfigMap = Ok ownedMonConfigMap.
Proof.
  apply (own_sets_controller reconciler monConfigMap ownedMonConfigMap).
  reflexivity.
Defined.

(** Witness of X8: the operator config map has no labels text. *)
Lemma prometheusRuleMutate_without_text_witness :
  GetLabels unlabelledPrometheusRule = Some ∅
  ∧ spec unlabelledPrometheusRule = spec prometheusRule
  ∧ GetName unlabelledPrometheusRule = GetName prometheusRule
  ∧ GetNamespace unlabelledPrometheusRule = GetNamespace prometheusRule.
Proof.
  apply (prometheusRuleMutate_without_text reconciler
           (operatorConfig []) prometheusRule unlabelledPrometheusRule);
    reflexivity.
Defined.

(** Witness of X9: a labels text of one line without a colon. *)
Lemma malformed_labels_block_rule_witness :
  objects
    (snd (createOrUpdate prometheusRule
            (prometheusRuleMutate reconciler
               (operatorConfig [("OCS_METRICS_LABELS", "team storage")]))
            (configured [("OCS_METRICS_LABELS", "team storage")])))
  = objects (configured [("OCS_METRICS_LABELS", "team storage")]).
Proof.
  apply (malformed_labels_block_rule reconciler
           (operatorConfig [("OCS_METRICS_LABELS", "team storage")])
           prometheusRule
           (configured [("OCS_METRICS_LABELS", "team storage")])).
  reflexivity.
Defined.

(** Witness of X10: the store holds a console service. *)
Lemma consoleService_is_rewritten_witness :
  calls (snd (createOrUpdate
                (GetService (Externals := externals) (ConsolePort reconciler)
                   (OperatorNamespace reconciler))
                (consoleServiceMutate (H := externals) reconciler
                   consoleDeployment)
                withConsoleService))
  = theCall VUpdate KService operatorNamespace
      "ocs-client-operator-console-service"
      :: calls (afterCall readConsoleService withConsoleService).
Proof.
  refine (proj2 (proj2 (consoleService_is_rewritten (H := externals)
                          reconciler consoleDeployment)
                   withConsoleService
                   (afterCall readConsoleService withConsoleService)
                   oldConsoleService _ _ _ _)).
  - reflexivity.
  - reflexivity.
  - discriminate.
Defined.

(** Witness of X11: the config map is absent. *)
Lemma getDeployCSIConfig_only_reads_witness :
  false = false
  ∧ IsNotFound (Errorf "failed to get operator configmap" ErrNotFound) = false
  ∧ IsAlreadyExists (Errorf "failed to get operator configmap" ErrNotFound)
    = false.
Proof.
  apply (proj2 (proj2 (proj2 (getDeployCSIConfig_only_reads reconciler
                                 installed)))).
  reflexivity.
Defined.

(** Witness of X12: the operator is configured. *)
Lemma getOperatorConfig_reads_witness :
  getOperatorConfig reconciler (configured [])
  = (Ok (operatorConfig []), afterCall readConfigMap (configured [])).
Proof.
  apply (proj1 (getOperatorConfig_reads reconciler)).
  reflexivity.
Defined.

(** Witness of X13: the operator config map is absent. *)
Lemma reconcile_stops_at_first_failure_witness :
  Reconcile "" (H := externals) reconciler request installed
  = (Err (Errorf "failed to get operator configmap" ErrNotFound),
     snd (flagOfPass (H := externals) reconciler installed)).
Proof.
  refine (proj2 (proj2 (proj1 (reconcile_stops_at_first_failure
                                 (H := externals) "" reconciler request
                                 installed _ _ _)))
            false _ _).
  - discriminate.
  - discriminate.
  - vm_compute. reflexivity.
Defined.

(** Witness of X14: the cluster version is not there. *)
Lemma reconcile_needs_cluster_version_witness :
  Reconcile "" (H := externals) reconciler request withoutVersion
  = (Err ErrNotFound,
     snd (Get KClusterVersion "" "version"
            (snd (flagOfPass (H := externals) reconciler withoutVersion)))).
Proof.
  refine (proj1 (proj1 (reconcile_needs_cluster_version (H := externals) ""
                          reconciler request withoutVersion
                          (snd (flagOfPass (H := externals) reconciler
                                  withoutVersion)) _ _ _)
                   ErrNotFound _ _)).
  - discriminate.
  - discriminate.
  - vm_compute. reflexivity.
  - vm_compute. reflexivity.
Defined.

(** Witness of X15: the cluster version over two passes. *)
Lemma inputs_are_only_read_witness :
  untouched KClusterVersion "" "version" installed
    (reconcilePasses (H := externals) reconciler "" [request; request]
       installed).
Proof.
  apply (inputs_are_only_read (H := externals) "" reconciler
           [request; request] KClusterVersion "" "version" installed).
  left. reflexivity.
Defined.

(** Witness of X17: the subscription moved to another channel. *)
Lemma subscription_and_webhook_filters_witness :
  watchSubscription reconciler (UpdateEvent subscription movedSubscription)
  = [].
Proof.
  apply (proj1 (proj2 (subscription_and_webhook_filters (H := externals)
                         reconciler))).
  reflexivity.
Defined.

(** Witness of X18: the first pass registered the webhook. *)
Lemma webhook_step_settles_witness :
  ∃ w3,
    reconcileSubscriptionValidatingWebhook (H := externals) reconciler
      (snd (reconcileSubscriptionValidatingWebhook (H := externals)
              reconciler installed))
    = (Ok tt, w3)
    ∧ objects w3
      = objects (snd (reconcileSubscriptionValidatingWebhook
                        (H := externals) reconciler installed))
    ∧ calls w3
      = webhookCall (H := externals)
          :: calls (snd (reconcileSubscriptionValidatingWebhook
                           (H := externals) reconciler installed)).
Proof.
  apply (webhook_step_settles (H := externals) reconciler installed
           (snd (reconcileSubscriptionValidatingWebhook (H := externals)
                   reconciler installed))).
  - vm_compute. reflexivity.
  - reflexivity.
  - vm_compute. exact I.
Defined.

(** Witness of X19: the store does not answer. *)
Lemma label_step_failures_witness :
  labelClientOperatorSubscription reconciler unreachable
  = (Err (ErrOther "failed to list subscriptions"),
     afterCall (listCall reconciler) installed)
  ∧ objects (afterCall (listCall reconciler) installed) = objects unreachable
  ∧ calls (afterCall (listCall reconciler) installed)
    = listCall reconciler :: calls unreachable.
Proof.
  apply (proj1 (label_step_failures reconciler) unreachable
           (ErrOther "connection refused")).
  reflexivity.
Defined.

(** Witness of X20: the first pass labelled the subscription. *)
Lemma label_step_settles_witness :
  ∃ w3,
    labelClientOperatorSubscription reconciler
      (snd (labelClientOperatorSubscription reconciler installed))
    = (Ok tt, w3)
    ∧ objects w3
      = objects (snd (labelClientOperatorSubscription reconciler installed))
    ∧ calls w3
      = listCall reconciler
          :: calls (snd (labelClientOperatorSubscription reconciler
                           installed)).
Proof.
  apply (label_step_settles reconciler installed
           (snd (labelClientOperatorSubscription reconciler installed))).
  - vm_compute. reflexivity.
  - reflexivity.
  - vm_compute. exact I.
Defined.

(** Witness of X21: the first pass labels the subscription. *)
Lemma label_write_is_watched_witness :
  ∃ stored,
    storeGet KSubscription (GetNamespace subscription) (GetName subscription)
      (objects (snd (labelClientOperatorSubscription reconciler installed)))
    = Some stored
    ∧ Find (storeList KSubscription (OperatorNamespace reconciler)
              (objects (snd (labelClientOperatorSubscription reconciler
                               installed))))
        isClientSubscription = Some stored
    ∧ labelled stored
    ∧ spec stored = spec subscription
    ∧ (∀ key, key ≠ "managed-by" →
              default ∅ (GetLabels stored) !! key
              = default ∅ (GetLabels subscription) !! key)
    ∧ watchSubscription reconciler (UpdateEvent subscription stored)
      = [versionRequest].
Proof.
  apply (label_write_is_watched reconciler installed
           (snd (labelClientOperatorSubscription reconciler installed))
           subscription).
  - reflexivity.
  - intros Hlabel. vm_compute in Hlabel. discriminate.
  - vm_compute. reflexivity.
Defined.

(** Witness of X22: a first pass over the configured cluster. *)
Lemma successful_pass_installs_witness :
  ∃ rule,
    Decode (Externals := externals)
      (pvcPrometheusRules (Externals := externals)) = Ok rule
    ∧ Forall (held (snd (Reconcile "" (H := externals) reconciler request
                           (configured []))))
        (csiObjects (H := externals) reconciler rule).
Proof.
  apply (successful_pass_installs (H := externals) "" reconciler request
           (configured [])
           (snd (flagOfPass (H := externals) reconciler (configured [])))
           (snd (Reconcile "" (H := externals) reconciler request
                   (configured [])))).
  - vm_compute. constructor.
  - vm_compute. reflexivity.
  - vm_compute. reflexivity.
Defined.
